(** * API Gateway resilience path: circuit breaker, retry, rate limiting

    A shallow embedding of [shared/CircuitBreaker.js] and of the request path
    of [gateway/GatewayService.js], with the properties of the gateway
    specification stated and settled against it.

    Conventions of the embedding.
    - JavaScript numbers that count things or hold millisecond timestamps are
      integers of [Z]; the counters of the program stay far below 2^53, where
      doubles are exact.
    - [new Date()] and [Date.now()] read a clock; every operation that reads
      the clock takes the reading as an argument.
    - A callback supplied by the user of the breaker either returns or throws;
      its return value is always discarded by the breaker.
    - A wrapped asynchronous call is described by how and when its promise
      settles ([CallBehaviour]).
    - Every operation also returns the list of externally visible events it
      caused (callbacks invoked, wrapped call started), in order. *)

From Stdlib Require Import ZArith List Bool Lia.
From stdpp Require Import gmap strings list fin_maps pretty.
Import ListNotations.

Local Open Scope string_scope.
Local Open Scope list_scope.
Local Open Scope Z_scope.

(** ** Errors and responses *)

(** JSON values, as far as the gateway builds and inspects them. [JTime t]
    is the ISO rendering [new Date(t).toISOString()] of a clock reading. *)
#[warnings="-register-all"] Inductive JsonValue :=
  | JStr (s : string)
  | JNum (n : Z)
  | JTime (t : Z)
  | JObj (members : list (string * JsonValue)).

(** A JSON object: its keys with their values, in order. *)
Definition Json := list (string * JsonValue).

(** What [axios] resolves with, and the [response] member of the error it
    rejects with when the server answered with an error status. *)
Record AxiosResponse := {
  status : Z;
  data : Json
}.

(** A thrown JavaScript value, with the members the program inspects:
    [error.name], [error.code], [error.response] and [error.message]. *)
Record JsError := {
  ename : string;
  ecode : option string;
  eresponse : option AxiosResponse;
  emessage : string
}.

(** [class CircuitBreakerOpenError extends Error] *)
Definition CircuitBreakerOpenError (message : string) : JsError :=
  {| ename := "CircuitBreakerOpenError";
     ecode := Some "CIRCUIT_BREAKER_OPEN";
     eresponse := None;
     emessage := message |}.

(** [class CircuitBreakerTimeoutError extends Error] *)
Definition CircuitBreakerTimeoutError (message : string) : JsError :=
  {| ename := "CircuitBreakerTimeoutError";
     ecode := Some "CIRCUIT_BREAKER_TIMEOUT";
     eresponse := None;
     emessage := message |}.

(** The error the runtime throws when a value that is not a function is
    called, as in [this.onSuccess(result)] with [this.onSuccess === null]. *)
Definition TypeError (message : string) : JsError :=
  {| ename := "TypeError"; ecode := None; eresponse := None;
     emessage := message |}.

(** ** The circuit breaker *)

Inductive State := CLOSED | OPEN | HALF_OPEN.

Definition State_eqb (a b : State) : bool :=
  match a, b with
  | CLOSED, CLOSED | OPEN, OPEN | HALF_OPEN, HALF_OPEN => true
  | _, _ => false
  end.

(** How a call of a user callback ends. *)
Inductive CallbackResult :=
  | CbReturns
  | CbThrows (e : JsError).

(** [this.metrics] *)
Record Metrics := {
  totalRequests : Z;
  successfulRequests : Z;
  failedRequests : Z;
  circuitOpenCount : Z;
  circuitCloseCount : Z;
  lastStateChange : Z
}.

(** The fields of a [CircuitBreaker] object. A JavaScript [null] in a
    timestamp or callback field is [None]. *)
Record CircuitBreaker := {
  name : string;
  failureThreshold : Z;
  timeout : Z;
  resetTimeout : Z;
  monitoringPeriod : Z;
  state : State;
  failures : Z;
  successes : Z;
  lastFailureTime : option Z;
  lastSuccessTime : option Z;
  nextAttemptTime : option Z;
  metrics : Metrics;
  onStateChange : option (State -> State -> CallbackResult);
  onFailure : option (JsError -> CallbackResult);
  onSuccess : option (AxiosResponse -> CallbackResult)
}.

(** The [options] argument of the constructor; an absent key is [None]. *)
Record Options := {
  opt_name : option string;
  opt_failureThreshold : option Z;
  opt_timeout : option Z;
  opt_resetTimeout : option Z;
  opt_monitoringPeriod : option Z;
  opt_onStateChange : option (State -> State -> CallbackResult);
  opt_onFailure : option (JsError -> CallbackResult);
  opt_onSuccess : option (AxiosResponse -> CallbackResult)
}.

Definition noOptions : Options :=
  {| opt_name := None; opt_failureThreshold := None; opt_timeout := None;
     opt_resetTimeout := None; opt_monitoringPeriod := None;
     opt_onStateChange := None; opt_onFailure := None; opt_onSuccess := None |}.

(** [options.x || d] on a number: an absent key and the falsy number [0]
    both give the default. *)
Definition orNumber (o : option Z) (d : Z) : Z :=
  match o with
  | Some v => if v =? 0 then d else v
  | None => d
  end.

(** [options.name || 'default']: the empty string is falsy. *)
Definition orString (o : option string) (d : string) : string :=
  match o with
  | Some v => if String.eqb v "" then d else v
  | None => d
  end.

(** [constructor(options = {})], at clock reading [now]. *)
Definition newCircuitBreaker (now : Z) (options : Options) : CircuitBreaker :=
  {| name := orString (opt_name options) "default";
     failureThreshold := orNumber (opt_failureThreshold options) 5;
     timeout := orNumber (opt_timeout options) 60000;
     resetTimeout := orNumber (opt_resetTimeout options) 30000;
     monitoringPeriod := orNumber (opt_monitoringPeriod options) 10000;
     state := CLOSED;
     failures := 0;
     successes := 0;
     lastFailureTime := None;
     lastSuccessTime := None;
     nextAttemptTime := None;
     metrics := {| totalRequests := 0; successfulRequests := 0;
                   failedRequests := 0; circuitOpenCount := 0;
                   circuitCloseCount := 0; lastStateChange := now |};
     onStateChange := opt_onStateChange options;
     onFailure := opt_onFailure options;
     onSuccess := opt_onSuccess options |}.

(** *** Field assignments *)

(** [this.field = v]: the other fields are kept. *)
Definition set_metrics (m : Metrics) (b : CircuitBreaker)
  : CircuitBreaker :=
  match b with
  | Build_CircuitBreaker n thr tmo rst mon st fl su lf ls na _ osc ofl osu =>
      Build_CircuitBreaker n thr tmo rst mon st fl su lf ls na m osc ofl osu
  end.

Definition set_state (s : State) (b : CircuitBreaker)
  : CircuitBreaker :=
  match b with
  | Build_CircuitBreaker n thr tmo rst mon _ fl su lf ls na me osc ofl osu =>
      Build_CircuitBreaker n thr tmo rst mon s fl su lf ls na me osc ofl osu
  end.

Definition set_failures (x : Z) (b : CircuitBreaker)
  : CircuitBreaker :=
  match b with
  | Build_CircuitBreaker n thr tmo rst mon st _ su lf ls na me osc ofl osu =>
      Build_CircuitBreaker n thr tmo rst mon st x su lf ls na me osc ofl osu
  end.

Definition set_successes (x : Z) (b : CircuitBreaker)
  : CircuitBreaker :=
  match b with
  | Build_CircuitBreaker n thr tmo rst mon st fl _ lf ls na me osc ofl osu =>
      Build_CircuitBreaker n thr tmo rst mon st fl x lf ls na me osc ofl osu
  end.

Definition set_lastFailureTime (t : option Z) (b : CircuitBreaker)
  : CircuitBreaker :=
  match b with
  | Build_CircuitBreaker n thr tmo rst mon st fl su _ ls na me osc ofl osu =>
      Build_CircuitBreaker n thr tmo rst mon st fl su t ls na me osc ofl osu
  end.

Definition set_lastSuccessTime (t : option Z) (b : CircuitBreaker)
  : CircuitBreaker :=
  match b with
  | Build_CircuitBreaker n thr tmo rst mon st fl su lf _ na me osc ofl osu =>
      Build_CircuitBreaker n thr tmo rst mon st fl su lf t na me osc ofl osu
  end.

Definition set_nextAttemptTime (t : option Z) (b : CircuitBreaker)
  : CircuitBreaker :=
  match b with
  | Build_CircuitBreaker n thr tmo rst mon st fl su lf ls _ me osc ofl osu =>
      Build_CircuitBreaker n thr tmo rst mon st fl su lf ls t me osc ofl osu
  end.

(** [this.metrics.counter++] *)
Definition bump_totalRequests (m : Metrics) : Metrics :=
  match m with
  | Build_Metrics tot suc fai opn cls chg =>
      Build_Metrics (tot + 1) suc fai opn cls chg
  end.

Definition bump_successfulRequests (m : Metrics) : Metrics :=
  match m with
  | Build_Metrics tot suc fai opn cls chg =>
      Build_Metrics tot (suc + 1) fai opn cls chg
  end.

Definition bump_failedRequests (m : Metrics) : Metrics :=
  match m with
  | Build_Metrics tot suc fai opn cls chg =>
      Build_Metrics tot suc (fai + 1) opn cls chg
  end.

Definition bump_circuitOpenCount (m : Metrics) : Metrics :=
  match m with
  | Build_Metrics tot suc fai opn cls chg =>
      Build_Metrics tot suc fai (opn + 1) cls chg
  end.

Definition bump_circuitCloseCount (m : Metrics) : Metrics :=
  match m with
  | Build_Metrics tot suc fai opn cls chg =>
      Build_Metrics tot suc fai opn (cls + 1) chg
  end.

(** [this.metrics.lastStateChange = ...] *)
Definition set_lastStateChange (t : Z) (m : Metrics) : Metrics :=
  match m with
  | Build_Metrics tot suc fai opn cls _ =>
      Build_Metrics tot suc fai opn cls t
  end.

(** *** Computations on a breaker *)

(** What an operation makes visible outside the breaker:
    - [EvStateChange oldState newState]: the call
      [this.onStateChange(oldState, newState, this)];
    - [EvCall]: the call [fn(...args)] of the wrapped function;
    - [EvOnSuccess result]: the call [this.onSuccess(result)];
    - [EvOnFailure error]: the call [this.onFailure(error)]. *)
Inductive Event :=
  | EvStateChange (oldState newState : State)
  | EvCall
  | EvOnSuccess (result : AxiosResponse)
  | EvOnFailure (error : JsError).

(** How a piece of code ends: it returns, it throws (an asynchronous function:
    its promise is fulfilled, rejected), or the promise it returned is never
    settled. *)
Inductive Outcome (A : Type) :=
  | Normal (a : A)
  | Throw (e : JsError)
  | Pending.
Arguments Normal {A} a.
Arguments Throw {A} e.
Arguments Pending {A}.

(** A method of the breaker: it runs on the object [this], leaves it in a new
    state and reports what it made visible. *)
Definition M (A : Type) : Type :=
  CircuitBreaker -> Outcome A * CircuitBreaker * list Event.

Definition ret {A} (a : A) : M A := fun b => (Normal a, b, []).

Definition bind {A B} (c : M A) (k : A -> M B) : M B := fun b =>
  match c b with
  | (Normal a, b1, l1) =>
      match k a b1 with
      | (r, b2, l2) => (r, b2, l1 ++ l2)
      end
  | (Throw e, b1, l1) => (Throw e, b1, l1)
  | (Pending, b1, l1) => (Pending, b1, l1)
  end.

Declare Scope breaker_scope.
Delimit Scope breaker_scope with breaker.
Notation "'let!' x ':=' c 'in' k" := (bind c (fun x => k))
  (at level 10, x name, c at level 100, k at level 200) : breaker_scope.
Notation "c '>>' k" := (bind c (fun _ => k))
  (at level 100, k at level 200, right associativity) : breaker_scope.
Local Open Scope breaker_scope.

Definition get : M CircuitBreaker := fun b => (Normal b, b, []).

(** An assignment to fields of [this]. *)
Definition assign (f : CircuitBreaker -> CircuitBreaker) : M unit :=
  fun b => (Normal tt, f b, []).

Definition throw {A} (e : JsError) : M A := fun b => (Throw e, b, []).

(** Something becomes visible. *)
Definition emit (ev : Event) : M unit := fun b => (Normal tt, b, [ev]).

(** The call of a user callback, recorded as [ev]. *)
Definition invoke (ev : Event) (r : CallbackResult) : M unit := fun b =>
  match r with
  | CbReturns => (Normal tt, b, [ev])
  | CbThrows e => (Throw e, b, [ev])
  end.

(** [try { c } catch (error) { h error }] *)
Definition tryCatch {A} (c : M A) (h : JsError -> M A) : M A := fun b =>
  match c b with
  | (Throw e, b1, l1) =>
      match h e b1 with
      | (r, b2, l2) => (r, b2, l1 ++ l2)
      end
  | r => r
  end.

(** A handler inside a [new Promise] executor that throws before it reaches
    [resolve] or [reject]: the exception rejects only the promise of the
    inner chain, and the outer promise is left unsettled. *)
Definition unsettledIfThrows {A} (c : M A) : M A := fun b =>
  match c b with
  | (Throw _, b1, l1) => (Pending, b1, l1)
  | r => r
  end.

(** *** Methods *)

(** [setState(newState)], at clock reading [now]. The fields are written
    first; the callback runs last and is not guarded. *)
Definition setState (now : Z) (newState : State) : M unit :=
  let! this := get in
  if State_eqb (state this) newState then ret tt
  else
    let oldState := state this in
    assign (set_state newState) >>
    assign (fun b => set_metrics (set_lastStateChange now (metrics b)) b) >>
    match newState with
    | OPEN =>
        assign (fun b => set_nextAttemptTime (Some (now + resetTimeout b)) b) >>
        assign (fun b => set_metrics (bump_circuitOpenCount (metrics b)) b)
    | HALF_OPEN =>
        assign (set_nextAttemptTime None)
    | CLOSED =>
        assign (set_nextAttemptTime None) >>
        assign (set_failures 0) >>
        assign (fun b => set_metrics (bump_circuitCloseCount (metrics b)) b)
    end >>
    match onStateChange this with
    | Some hook =>
        invoke (EvStateChange oldState newState) (hook oldState newState)
    | None => ret tt
    end.

(** [recordSuccess()] *)
Definition recordSuccess (now : Z) : M unit :=
  assign (fun b => set_successes (successes b + 1) b) >>
  assign (set_failures 0) >>
  assign (set_lastSuccessTime (Some now)) >>
  assign (fun b => set_metrics (bump_successfulRequests (metrics b)) b) >>
  let! this := get in
  if State_eqb (state this) HALF_OPEN then setState now CLOSED else ret tt.

(** [recordFailure()] *)
Definition recordFailure (now : Z) : M unit :=
  assign (fun b => set_failures (failures b + 1) b) >>
  assign (set_lastFailureTime (Some now)) >>
  assign (fun b => set_metrics (bump_failedRequests (metrics b)) b) >>
  let! this := get in
  if failureThreshold this <=? failures this then setState now OPEN
  else ret tt.

(** [shouldAttemptReset()] *)
Definition shouldAttemptReset (now : Z) (this : CircuitBreaker) : bool :=
  match nextAttemptTime this with
  | None => false
  | Some t => t <=? now
  end.

(** How the wrapped call [fn(...args)] behaves: its promise is fulfilled
    or rejected [dt] milliseconds after the call, or never settles, or [fn]
    throws before it returns a promise. *)
Inductive CallBehaviour :=
  | Resolves (result : AxiosResponse) (dt : Z)
  | Rejects (error : JsError) (dt : Z)
  | NeverSettles
  | ThrowsSync (error : JsError).

(** The delay Node.js gives a timer created with [setTimeout(f, delay)]: a
    delay below 1 or above 2^31 - 1 is replaced by 1. *)
Definition timerDelay (delay : Z) : Z :=
  if (delay <? 1) || (2147483647 <? delay) then 1 else delay.

Definition timeoutMessage (this : CircuitBreaker) : string :=
  "Circuit Breaker '" +:+ name this +:+ "' timeout after "
    +:+ pretty (timeout this) +:+ "ms".

(** The text before the rendering of the date [this.nextAttemptTime], which
    depends on the locale of the process. *)
Definition openMessage (this : CircuitBreaker) : string :=
  "Circuit Breaker '" +:+ name this +:+ "' is OPEN. Next attempt at ".

(** [executeWithTimeout(fn, ...args)], entered at clock reading [now].

    The timer is created first and rejects the promise with a
    [CircuitBreakerTimeoutError]; it calls neither [recordFailure] nor
    anything else. The handlers of the wrapped call race with it: the call
    wins when it settles strictly before the timer fires. *)
Definition executeWithTimeout (now : Z) (call : CallBehaviour)
  : M AxiosResponse :=
  let! this := get in
  let timedOut := throw (CircuitBreakerTimeoutError (timeoutMessage this)) in
  emit EvCall >>
  match call with
  | ThrowsSync error => throw error
  | NeverSettles => timedOut
  | Resolves result dt =>
      if dt <? timerDelay (timeout this) then
        tryCatch
          (recordSuccess (now + dt) >> ret result)
          (fun error =>
             unsettledIfThrows (recordFailure (now + dt)) >> throw error)
      else timedOut
  | Rejects error dt =>
      if dt <? timerDelay (timeout this) then
        unsettledIfThrows (recordFailure (now + dt)) >> throw error
      else timedOut
  end.

(** [this.onSuccess(result)]: calling [null] throws a TypeError. *)
Definition callOnSuccess (result : AxiosResponse) : M unit :=
  let! this := get in
  match onSuccess this with
  | Some f => invoke (EvOnSuccess result) (f result)
  | None => throw (TypeError "this.onSuccess is not a function")
  end.

(** [this.onFailure(error)] *)
Definition callOnFailure (error : JsError) : M unit :=
  let! this := get in
  match onFailure this with
  | Some f => invoke (EvOnFailure error) (f error)
  | None => throw (TypeError "this.onFailure is not a function")
  end.

(** [async execute(fn, ...args)], entered at clock reading [now]. *)
Definition execute (now : Z) (call : CallBehaviour) : M AxiosResponse :=
  assign (fun b => set_metrics (bump_totalRequests (metrics b)) b) >>
  let! this := get in
  (if State_eqb (state this) OPEN then
     if shouldAttemptReset now this then setState now HALF_OPEN
     else throw (CircuitBreakerOpenError (openMessage this))
   else ret tt) >>
  tryCatch
    (let! result := executeWithTimeout now call in
     callOnSuccess result >>
     ret result)
    (fun error =>
       callOnFailure error >>
       throw error).

(** What [executeWithTimeout] leaves behind after its timer has fired: the
    handlers of the wrapped call still run when the call settles, [dt]
    milliseconds after it was started at [start]; what they throw or pass to
    [resolve] and [reject] is lost. *)
Definition lateSettlement (start : Z) (call : CallBehaviour) : M unit :=
  match call with
  | Resolves _ dt =>
      unsettledIfThrows
        (tryCatch (recordSuccess (start + dt))
                  (fun _ => recordFailure (start + dt)))
  | Rejects _ dt => unsettledIfThrows (recordFailure (start + dt))
  | NeverSettles | ThrowsSync _ => ret tt
  end.

(** [reset()] *)
Definition reset (now : Z) : M unit :=
  assign (set_failures 0) >>
  assign (set_successes 0) >>
  assign (set_lastFailureTime None) >>
  assign (set_lastSuccessTime None) >>
  assign (set_nextAttemptTime None) >>
  setState now CLOSED.

(** [forceOpen()] *)
Definition forceOpen (now : Z) : M unit := setState now OPEN.

(** [forceClosed()] *)
Definition forceClosed (now : Z) : M unit := setState now CLOSED.

(** [getState()]: the fields of the breaker an observer can read. *)
Record BreakerState := {
  bs_name : string;
  bs_state : State;
  bs_failures : Z;
  bs_successes : Z;
  bs_lastFailureTime : option Z;
  bs_lastSuccessTime : option Z;
  bs_nextAttemptTime : option Z;
  bs_metrics : Metrics
}.

Definition getState (this : CircuitBreaker) : BreakerState :=
  {| bs_name := name this;
     bs_state := state this;
     bs_failures := failures this;
     bs_successes := successes this;
     bs_lastFailureTime := lastFailureTime this;
     bs_lastSuccessTime := lastSuccessTime this;
     bs_nextAttemptTime := nextAttemptTime this;
     bs_metrics := metrics this |}.

(** Reading the result of a run. *)
Definition outcomeOf {A} (r : Outcome A * CircuitBreaker * list Event)
  : Outcome A := fst (fst r).
Definition breakerOf {A} (r : Outcome A * CircuitBreaker * list Event)
  : CircuitBreaker := snd (fst r).
Definition eventsOf {A} (r : Outcome A * CircuitBreaker * list Event)
  : list Event := snd r.

(** ** The manager of circuit breakers *)

(** [this.globalMetrics] *)
Record GlobalMetrics := {
  totalBreakers : Z;
  openBreakers : Z;
  halfOpenBreakers : Z;
  closedBreakers : Z
}.

(** [class CircuitBreakerManager]; [breakers] is a [Map] from names to
    breaker objects. *)
Record CircuitBreakerManager := {
  breakers : gmap string CircuitBreaker;
  globalMetrics : GlobalMetrics
}.

Definition newCircuitBreakerManager : CircuitBreakerManager :=
  {| breakers := ∅;
     globalMetrics := {| totalBreakers := 0; openBreakers := 0;
                         halfOpenBreakers := 0; closedBreakers := 0 |} |}.

(** The number of breakers of [m] in state [s]. *)
Definition countInState (s : State) (m : gmap string CircuitBreaker) : Z :=
  map_fold (fun _ breaker n => if State_eqb (state breaker) s then n + 1 else n)
           0 m.

(** [updateGlobalMetrics()] *)
Definition updateGlobalMetrics (mgr : CircuitBreakerManager)
  : CircuitBreakerManager :=
  {| breakers := breakers mgr;
     globalMetrics :=
       {| totalBreakers := Z.of_nat (size (breakers mgr));
          openBreakers := countInState OPEN (breakers mgr);
          halfOpenBreakers := countInState HALF_OPEN (breakers mgr);
          closedBreakers := countInState CLOSED (breakers mgr) |} |}.

(** The object [{ name, ...options }]: a [name] key of [options] replaces the
    one given first. *)
Definition withName (n : string) (options : Options) : Options :=
  {| opt_name := match opt_name options with
                 | Some n' => Some n'
                 | None => Some n
                 end;
     opt_failureThreshold := opt_failureThreshold options;
     opt_timeout := opt_timeout options;
     opt_resetTimeout := opt_resetTimeout options;
     opt_monitoringPeriod := opt_monitoringPeriod options;
     opt_onStateChange := opt_onStateChange options;
     opt_onFailure := opt_onFailure options;
     opt_onSuccess := opt_onSuccess options |}.

(** [getBreaker(name, options = {})], at clock reading [now]: the breaker
    stored under [name], created first when there is none. *)
Definition getBreaker (now : Z) (n : string) (options : Options)
    (mgr : CircuitBreakerManager) : CircuitBreaker * CircuitBreakerManager :=
  match breakers mgr !! n with
  | Some breaker => (breaker, mgr)
  | None =>
      let breaker := newCircuitBreaker now (withName n options) in
      (breaker,
       updateGlobalMetrics
         {| breakers := <[n := breaker]> (breakers mgr);
            globalMetrics := globalMetrics mgr |})
  end.

(** ** The gateway *)

(** An entry of [this.services]. *)
Record ServiceConfig := {
  service_url : string;
  service_timeout : Z;
  service_retries : nat
}.

(** An entry of [this.rateLimitStore]. *)
Record RateLimitEntry := {
  count : Z;
  resetTime : Z
}.

(** [class GatewayService]: the fields that rate limiting and forwarding
    read and write. [services] holds the own properties of the object
    literal [this.services]. The handlers in [this.middleware] are closures
    over the object and are passed to [executeMiddleware] as a list of
    their own; [this.logs] and [this.routes] are left to logging and
    statistics. *)
Record GatewayService := {
  services : gmap string ServiceConfig;
  rateLimitStore : gmap string RateLimitEntry;
  circuitBreakerManager : CircuitBreakerManager
}.

(** Members of an incoming request [req]: [req.method], [req.path],
    [req.ip] and [req.headers.authorization]. *)
Record Request := {
  req_method : string;
  req_path : string;
  req_ip : option string;
  req_authorization : option string
}.

(** What has been written to the response object:
    [res.status(statusCode).json(body)]. *)
Record Reply := {
  statusCode : Z;
  body : Json
}.

(** *** Retry with exponential backoff *)

(** How one call [axios(config)] ends, [dt] milliseconds after it started. *)
Inductive AxiosOutcome :=
  | AxiosResolves (response : AxiosResponse) (dt : Z)
  | AxiosRejects (error : JsError) (dt : Z)
  | AxiosNeverSettles.

(** [isRetryableError(error)] *)
Definition isRetryableError (error : JsError) : bool :=
  match eresponse error with
  | Some response => 500 <=? status response
  | None =>
      match ecode error with
      | Some code =>
          existsb (String.eqb code) ["ECONNREFUSED"; "ETIMEDOUT"; "ENOTFOUND"]
      | None => false
      end
  end.

(** What a run of [makeRequestWithRetry] does, in order: [Attempt i] is the
    call [axios(config)] of iteration [i], and [Sleep delay] is
    [await new Promise(resolve => setTimeout(resolve, delay))]. *)
Inductive RetryEvent :=
  | Attempt (i : nat)
  | Sleep (delay : Z).

(** A run of [makeRequestWithRetry]: how it ended, what it did, and the
    milliseconds it took. *)
Record RetryRun := {
  rr_result : Outcome AxiosResponse;
  rr_events : list RetryEvent;
  rr_elapsed : Z
}.

(** The calls of [axios] a run made, and the delays it slept. *)
Definition isAttempt (ev : RetryEvent) : bool :=
  match ev with
  | Attempt _ => true
  | Sleep _ => false
  end.

Definition attempts (r : RetryRun) : nat :=
  length (filter (fun ev => isAttempt ev = true) (rr_events r)).

Definition delays (r : RetryRun) : list Z :=
  omap (fun ev => match ev with Sleep delay => Some delay | _ => None end)
       (rr_events r).

(** A failed attempt that took [dt] milliseconds and the sleep after it,
    in front of the rest of the run. *)
Definition afterRetry (i : nat) (dt delay : Z) (r : RetryRun) : RetryRun :=
  {| rr_result := rr_result r;
     rr_events := Attempt i :: Sleep delay :: rr_events r;
     rr_elapsed := dt + delay + rr_elapsed r |}.

(** The loop [for (let i = 0; i <= retries; i++)] from iteration [i] on.
    [axios i] is how the call of iteration [i] ends. [fuel] bounds the
    iterations that can follow this one; it is [retries - i] throughout, so
    that it runs out exactly when [i < retries] fails. *)
Fixpoint retryLoop (axios : nat -> AxiosOutcome) (retries fuel i : nat)
  : RetryRun :=
  match axios i with
  | AxiosResolves response dt =>
      {| rr_result := Normal response; rr_events := [Attempt i];
         rr_elapsed := dt |}
  | AxiosNeverSettles =>
      {| rr_result := Pending; rr_events := [Attempt i]; rr_elapsed := 0 |}
  | AxiosRejects error dt =>
      let lastError :=
        {| rr_result := Throw error; rr_events := [Attempt i];
           rr_elapsed := dt |} in
      match fuel with
      | S fuel' =>
          if (i <? retries)%nat && isRetryableError error then
            let delay := 2 ^ Z.of_nat i * 1000 in
            afterRetry i dt delay (retryLoop axios retries fuel' (S i))
          else lastError
      | O => lastError
      end
  end.

(** [makeRequestWithRetry(config, retries = 3)]; the oracle [axios] stands
    for the calls [axios(config)], one per attempt. *)
Definition makeRequestWithRetry (axios : nat -> AxiosOutcome) (retries : nat)
  : RetryRun :=
  retryLoop axios retries retries 0.

(** *** Rate limiting and the middleware chain *)

Definition windowMs : Z := 15 * 60 * 1000.
Definition maxRequests : Z := 100.

(** What a middleware does with its [next] and [res] arguments: it calls
    [next()] or it writes a response. *)
Inductive MiddlewareStep :=
  | CallsNext
  | Responds (reply : Reply).

(** A middleware function [(req, res, next) => ...], run at clock reading
    [now] on the gateway it closes over. *)
Definition Middleware : Type :=
  Z -> Request -> GatewayService -> MiddlewareStep * GatewayService.

(** [req.ip || 'unknown'] *)
Definition clientIdOf (req : Request) : string :=
  match req_ip req with
  | Some ip => if String.eqb ip "" then "unknown" else ip
  | None => "unknown"
  end.

(** [Math.ceil(ms / 1000)] *)
Definition ceilSeconds (ms : Z) : Z := - ((- ms) / 1000).

Definition set_rateLimitStore (store : gmap string RateLimitEntry)
    (g : GatewayService) : GatewayService :=
  {| services := services g; rateLimitStore := store;
     circuitBreakerManager := circuitBreakerManager g |}.

(** The ['rateLimit'] middleware of [setupDefaultMiddleware]. The entry of
    the client is an object shared with the store: every write to it is a
    write to the store. *)
Definition rateLimit : Middleware := fun now req g =>
  let clientId := clientIdOf req in
  let created :=
    match rateLimitStore g !! clientId with
    | Some clientData => clientData
    | None => {| count := 0; resetTime := now + windowMs |}
    end in
  let clientData :=
    if resetTime created <? now
    then {| count := 0; resetTime := now + windowMs |}
    else created in
  if maxRequests <=? count clientData then
    (Responds
       {| statusCode := 429;
          body := [("error", JStr "Rate limit exceeded");
                   ("message", JStr "Too many requests, please try again later");
                   ("retryAfter", JNum (ceilSeconds (resetTime clientData - now)))] |},
     set_rateLimitStore (<[clientId := clientData]> (rateLimitStore g)) g)
  else
    (CallsNext,
     set_rateLimitStore
       (<[clientId := {| count := count clientData + 1;
                         resetTime := resetTime clientData |}]>
          (rateLimitStore g)) g).

(** How a run of the middleware chain ends: the final [next()] is called,
    or an entry has written a response and the chain stops there. *)
Inductive ChainEnd :=
  | ReachedHandler
  | ShortCircuited (reply : Reply).

(** [executeMiddleware(req, res, next)] on the entries [entries] of
    [this.middleware]: every entry receives [runNext] as its [next]. The
    result lists the names of the entries that ran. *)
Fixpoint executeMiddleware (entries : list (string * Middleware)) (now : Z)
    (req : Request) (g : GatewayService)
  : ChainEnd * list string * GatewayService :=
  match entries with
  | [] => (ReachedHandler, [], g)
  | (n, middleware) :: rest =>
      match middleware now req g with
      | (CallsNext, g1) =>
          match executeMiddleware rest now req g1 with
          | (e, ran, g2) => (e, n :: ran, g2)
          end
      | (Responds reply, g1) => (ShortCircuited reply, [n], g1)
      end
  end.

(** *** Forwarding a request *)

(** The value of the property read [this.services[serviceName]].
    [this.services] is an ordinary object, so a name that is not one of its
    own keys is looked up in [Object.prototype]. The value is a configured
    service, or a member of [Object.prototype] (a function or an object,
    hence truthy, whose [url], [timeout] and [retries] are [undefined]), or
    [undefined]. *)
Inductive ServiceLookup :=
  | OwnService (service : ServiceConfig)
  | InheritedMember
  | NoSuchProperty.

(** The property names every object inherits from [Object.prototype]. *)
Definition objectPrototypeMembers : list string :=
  ["constructor"; "hasOwnProperty"; "isPrototypeOf"; "propertyIsEnumerable";
   "toLocaleString"; "toString"; "valueOf"; "__proto__";
   "__defineGetter__"; "__defineSetter__";
   "__lookupGetter__"; "__lookupSetter__"].

Definition lookupService (g : GatewayService) (serviceName : string)
  : ServiceLookup :=
  match services g !! serviceName with
  | Some service => OwnService service
  | None =>
      if existsb (String.eqb serviceName) objectPrototypeMembers
      then InheritedMember
      else NoSuchProperty
  end.

(** [makeServiceRequest(serviceName, req)] for the value [service] of
    [this.services[serviceName]]. The request it builds is the argument of
    every [axios(config)] call, which the oracle [axios] answers. An
    [undefined] second argument of [makeRequestWithRetry] takes the default
    of the parameter, 3. *)
Definition makeServiceRequest (axios : nat -> AxiosOutcome)
    (service : ServiceLookup) : RetryRun :=
  match service with
  | OwnService config => makeRequestWithRetry axios (service_retries config)
  | InheritedMember => makeRequestWithRetry axios 3
  | NoSuchProperty =>
      {| rr_result :=
           Throw (TypeError "Cannot read properties of undefined (reading 'url')");
         rr_events := []; rr_elapsed := 0 |}
  end.

(** The promise of [async () => await this.makeServiceRequest(...)], as the
    breaker sees it. *)
Definition callOf (r : RetryRun) : CallBehaviour :=
  match rr_result r with
  | Normal response => Resolves response (rr_elapsed r)
  | Throw error => Rejects error (rr_elapsed r)
  | Pending => NeverSettles
  end.

(** Assignment to a key of a JSON object: an existing key keeps its place. *)
Fixpoint setMember (k : string) (v : JsonValue) (o : Json) : Json :=
  match o with
  | [] => [(k, v)]
  | (k', v') :: rest =>
      if String.eqb k' k then (k, v) :: rest
      else (k', v') :: setMember k v rest
  end.

Fixpoint getMember (k : string) (o : Json) : option JsonValue :=
  match o with
  | [] => None
  | (k', v) :: rest => if String.eqb k' k then Some v else getMember k rest
  end.

(** Truthiness of a JSON value. *)
Definition truthy (v : JsonValue) : bool :=
  match v with
  | JStr s => negb (String.eqb s "")
  | JNum n => negb (n =? 0)
  | JTime _ | JObj _ => true
  end.

(** [transformResponse(data, serviceName)], at clock reading [now]. *)
Definition transformResponse (now : Z) (d : Json) (serviceName : string)
  : Json :=
  setMember "_gateway"
    (JObj [("service", JStr serviceName); ("timestamp", JTime now);
           ("version", JStr "1.0.0")]) d.

(** The [catch] block of [processRequest]. *)
Definition errorReply (now : Z) (serviceName : string) (error : JsError)
  : Reply :=
  if String.eqb (ename error) "CircuitBreakerOpenError" then
    {| statusCode := 503;
       body := [("error", JStr "Servicio temporalmente no disponible");
                ("service", JStr serviceName);
                ("message", JStr "El servicio está experimentando problemas. Intente más tarde.");
                ("circuitBreakerState", JStr "OPEN");
                ("timestamp", JTime now)] |}
  else if String.eqb (ename error) "CircuitBreakerTimeoutError" then
    {| statusCode := 504;
       body := [("error", JStr "Timeout del servicio");
                ("service", JStr serviceName);
                ("message", JStr "El servicio tardó demasiado en responder");
                ("circuitBreakerState", JStr "TIMEOUT");
                ("timestamp", JTime now)] |}
  else
    match eresponse error with
    | Some response =>
        {| statusCode := status response;
           body := [("error", JStr "Error en microservicio");
                    ("service", JStr serviceName);
                    ("message",
                      match getMember "error" (data response) with
                      | Some v => if truthy v then v else JStr (emessage error)
                      | None => JStr (emessage error)
                      end);
                    ("timestamp", JTime now)] |}
    | None =>
        if match ecode error with
           | Some code => String.eqb code "ECONNREFUSED"
           | None => false
           end
        then
          {| statusCode := 503;
             body := [("error", JStr "Servicio no disponible");
                      ("service", JStr serviceName);
                      ("message", JStr "El microservicio no está respondiendo");
                      ("timestamp", JTime now)] |}
        else
          {| statusCode := 500;
             body := [("error", JStr "Error interno del gateway");
                      ("message", JStr "Error inesperado en el procesamiento de la petición");
                      ("timestamp", JTime now)] |}
    end.

Definition set_circuitBreakerManager (mgr : CircuitBreakerManager)
    (g : GatewayService) : GatewayService :=
  {| services := services g; rateLimitStore := rateLimitStore g;
     circuitBreakerManager := mgr |}.

(** What a run of [processRequest] leaves: the response written, if any, the
    gateway, and what the breaker made visible. *)
Record Processed := {
  reply : option Reply;
  gateway : GatewayService;
  visible : list Event
}.

(** [async processRequest(serviceName, req, res)], entered at clock reading
    [now]; [replyTime] is the clock reading when the response is written.
    The breaker is an object shared with the map of the manager: what
    [execute] does to it is done to the entry of the map. *)
Definition processRequest (now replyTime : Z) (axios : nat -> AxiosOutcome)
    (serviceName : string) (req : Request) (g : GatewayService) : Processed :=
  match lookupService g serviceName with
  | NoSuchProperty =>
      {| reply :=
           Some {| statusCode := 404;
                   body := [("error", JStr "Servicio no encontrado");
                            ("message",
                              JStr ("El servicio '" +:+ serviceName
                                      +:+ "' no está disponible"))] |};
         gateway := g;
         visible := [] |}
  | service =>
      match getBreaker now serviceName noOptions (circuitBreakerManager g) with
      | (circuitBreaker, mgr) =>
          match execute now (callOf (makeServiceRequest axios service))
                        circuitBreaker with
          | (outcome, circuitBreaker', events) =>
              {| reply :=
                   match outcome with
                   | Normal response =>
                       Some {| statusCode := status response;
                               body := transformResponse replyTime
                                         (data response) serviceName |}
                   | Throw error => Some (errorReply replyTime serviceName error)
                   | Pending => None
                   end;
                 gateway :=
                   set_circuitBreakerManager
                     {| breakers := <[serviceName := circuitBreaker']> (breakers mgr);
                        globalMetrics := globalMetrics mgr |} g;
                 visible := events |}
          end
      end
  end.

(** [setupCircuitBreakers()] gives every configured service a breaker with
    these options; the three callbacks only write to the console. *)
Definition gatewayBreakerOptions (service : ServiceConfig) : Options :=
  {| opt_name := None;
     opt_failureThreshold := Some 5;
     opt_timeout := Some (service_timeout service);
     opt_resetTimeout := Some 30000;
     opt_monitoringPeriod := None;
     opt_onStateChange := Some (fun _ _ => CbReturns);
     opt_onFailure := Some (fun _ => CbReturns);
     opt_onSuccess := Some (fun _ => CbReturns) |}.

(** The services configured by the constructor of [GatewayService]. *)
Definition defaultServices : gmap string ServiceConfig :=
  <["usuarios" := {| service_url := "http://localhost:3001";
                     service_timeout := 5000; service_retries := 3 |}]>
  (<["pagos" := {| service_url := "http://localhost:3002";
                   service_timeout := 5000; service_retries := 3 |}]>
  (<["catalogo" := {| service_url := "http://localhost:3004";
                      service_timeout := 5000; service_retries := 3 |}]> ∅)).

(** [new GatewayService()], at clock reading [now]: [setupCircuitBreakers]
    asks the manager for one breaker per service. *)
Definition newGatewayService (now : Z) : GatewayService :=
  {| services := defaultServices;
     rateLimitStore := ∅;
     circuitBreakerManager :=
       map_fold
         (fun serviceName service mgr =>
            snd (getBreaker now serviceName (gatewayBreakerOptions service) mgr))
         newCircuitBreakerManager defaultServices |}.

(** ** Derived notions used in the statements *)

(** [this.metrics.totalRequests++] *)
Definition countRequest (this : CircuitBreaker) : CircuitBreaker :=
  set_metrics (bump_totalRequests (metrics this)) this.

(** The fields of the breaker once [setState(newState)] has written them. *)
Definition transition (now : Z) (newState : State) (this : CircuitBreaker)
  : CircuitBreaker :=
  let b := set_metrics (set_lastStateChange now (metrics this))
             (set_state newState this) in
  match newState with
  | OPEN =>
      (fun b => set_metrics (bump_circuitOpenCount (metrics b)) b)
        (set_nextAttemptTime (Some (now + resetTimeout b)) b)
  | HALF_OPEN => set_nextAttemptTime None b
  | CLOSED =>
      (fun b => set_metrics (bump_circuitCloseCount (metrics b)) b)
        (set_failures 0 (set_nextAttemptTime None b))
  end.

(** How the call of [onStateChange] with [(oldState, newState)] ends, and
    what it makes visible; a breaker without the callback skips the call. *)
Definition notifyOutcome (this : CircuitBreaker) (oldState newState : State)
  : Outcome unit :=
  match onStateChange this with
  | Some hook =>
      match hook oldState newState with
      | CbReturns => Normal tt
      | CbThrows e => Throw e
      end
  | None => Normal tt
  end.

Definition notifyEvents (this : CircuitBreaker) (oldState newState : State)
  : list Event :=
  match onStateChange this with
  | Some _ => [EvStateChange oldState newState]
  | None => []
  end.

(** The observer of state changes never throws. *)
Definition quietHook (this : CircuitBreaker) : Prop :=
  forall oldState newState, notifyOutcome this oldState newState = Normal tt.

(** The fields of the breaker once [recordSuccess] has counted, before it
    looks at the state. *)
Definition successCounted (now : Z) (this : CircuitBreaker) : CircuitBreaker :=
  (fun b => set_metrics (bump_successfulRequests (metrics b)) b)
    (set_lastSuccessTime (Some now)
       (set_failures 0 (set_successes (successes this + 1) this))).

(** The fields of the breaker once [recordFailure] has counted, before it
    compares with the threshold. *)
Definition failureCounted (now : Z) (this : CircuitBreaker) : CircuitBreaker :=
  (fun b => set_metrics (bump_failedRequests (metrics b)) b)
    (set_lastFailureTime (Some now)
       (set_failures (failures this + 1) this)).

(** The fields of the breaker once [reset] has cleared them, before it
    calls [setState]. *)
Definition cleared (this : CircuitBreaker) : CircuitBreaker :=
  set_nextAttemptTime None
    (set_lastSuccessTime None
       (set_lastFailureTime None
          (set_successes 0 (set_failures 0 this)))).

(** The [try { ... } catch (error) { ... }] statement of [execute]. *)
Definition guardedCall (now : Z) (call : CallBehaviour) : M AxiosResponse :=
  tryCatch
    (let! result := executeWithTimeout now call in
     callOnSuccess result >>
     ret result)
    (fun error =>
       callOnFailure error >>
       throw error).

(** What the [catch] block of [execute] throws for the error it caught, and
    what it makes visible: the block ends in [throw error] unless the call
    [this.onFailure(error)] throws first. *)
Definition rethrown (this : CircuitBreaker) (error : JsError) : JsError :=
  match onFailure this with
  | Some f =>
      match f error with
      | CbReturns => error
      | CbThrows e => e
      end
  | None => TypeError "this.onFailure is not a function"
  end.

Definition catchEvents (this : CircuitBreaker) (error : JsError)
  : list Event :=
  match onFailure this with
  | Some _ => [EvOnFailure error]
  | None => []
  end.

(** The wrapped call fails: its promise is rejected before the timer of
    the breaker fires. *)
Definition rejectsInTime (this : CircuitBreaker) (call : CallBehaviour)
  : bool :=
  match call with
  | Rejects _ dt => dt <? timerDelay (timeout this)
  | _ => false
  end.

(** The wrapped call has not settled when the timer of the breaker fires. *)
Definition timesOut (this : CircuitBreaker) (call : CallBehaviour) : bool :=
  match call with
  | Resolves _ dt | Rejects _ dt => timerDelay (timeout this) <=? dt
  | NeverSettles => true
  | ThrowsSync _ => false
  end.

(** [execute] lets the wrapped call through: the breaker is not OPEN, or it
    is and the time of the next attempt has come. *)
Definition letsThrough (now : Z) (this : CircuitBreaker) : bool :=
  negb (State_eqb (state this) OPEN) || shouldAttemptReset now this.

(** The number of times the wrapped function was called, read off what a
    run made visible. *)
Definition isCall (ev : Event) : bool :=
  match ev with
  | EvCall => true
  | _ => false
  end.

Definition callsMade (events : list Event) : nat :=
  length (filter (fun ev => isCall ev = true) events).

(** The breaker is observed: it has an [onStateChange] callback. *)
Definition observed (this : CircuitBreaker) : Prop :=
  onStateChange this <> None.

(** Replaying from state [s] what the observer was told. Every reported
    change has to start from the state reached so far and to lead to a
    different one; the result is the state the reports end in. *)
Fixpoint replay (s : State) (events : list Event) : option State :=
  match events with
  | [] => Some s
  | EvStateChange oldState newState :: rest =>
      if State_eqb oldState s && negb (State_eqb oldState newState)
      then replay newState rest
      else None
  | _ :: rest => replay s rest
  end.

(** What a run made visible agrees with what it did to the breaker: the
    reported changes lead from the state before to the state after. *)
Definition reportsChanges {A} (before : CircuitBreaker)
    (r : Outcome A * CircuitBreaker * list Event) : Prop :=
  replay (state before) (eventsOf r) = Some (state (breakerOf r)) /\
  onStateChange (breakerOf r) = onStateChange before.

(** Consecutive calls of [execute], each given with the clock reading at
    its entry; the breaker after the last of them. *)
Fixpoint executeAll (calls : list (Z * CallBehaviour))
    (this : CircuitBreaker) : CircuitBreaker :=
  match calls with
  | [] => this
  | (now, call) :: rest => executeAll rest (breakerOf (execute now call this))
  end.

(** The settings and callbacks of a breaker, which no method assigns. *)
Definition sameSettings (b b' : CircuitBreaker) : Prop :=
  name b' = name b /\
  failureThreshold b' = failureThreshold b /\
  timeout b' = timeout b /\
  resetTimeout b' = resetTimeout b /\
  monitoringPeriod b' = monitoringPeriod b /\
  onStateChange b' = onStateChange b /\
  onFailure b' = onFailure b /\
  onSuccess b' = onSuccess b.

(** The error is an HTTP response with a status from [lo] to [hi]. *)
Definition httpError (lo hi : Z) (error : JsError) : Prop :=
  exists response,
    eresponse error = Some response /\ lo <= status response <= hi.

(** Requests of one client, [req], arriving one after the other at the
    clock readings [times]: what the rate limiter did with each, and the
    gateway after the last. *)
Fixpoint rateLimitAll (times : list Z) (req : Request) (g : GatewayService)
  : list MiddlewareStep * GatewayService :=
  match times with
  | [] => ([], g)
  | now :: rest =>
      match rateLimit now req g with
      | (step, g1) =>
          match rateLimitAll rest req g1 with
          | (steps, g2) => (step :: steps, g2)
          end
      end
  end.

(** A request of this client arriving at [now] starts a window: the client
    is new to the store, or its last window has elapsed. *)
Definition startsWindow (now : Z) (req : Request) (g : GatewayService)
  : Prop :=
  match rateLimitStore g !! clientIdOf req with
  | None => True
  | Some clientData => resetTime clientData < now
  end.

(** The response of the rate limiter to a request at [now] in a window that
    ends at [windowReset]. *)
Definition tooManyRequests (now windowReset : Z) : Reply :=
  {| statusCode := 429;
     body := [("error", JStr "Rate limit exceeded");
              ("message", JStr "Too many requests, please try again later");
              ("retryAfter", JNum (ceilSeconds (windowReset - now)))] |}.

(** ** Sample inputs *)

(** A breaker that opens at the second failure, without callbacks. *)
Definition twoFailuresBreaker : CircuitBreaker :=
  newCircuitBreaker 0
    {| opt_name := Some "usuarios"; opt_failureThreshold := Some 2;
       opt_timeout := Some 5000; opt_resetTimeout := Some 30000;
       opt_monitoringPeriod := None; opt_onStateChange := None;
       opt_onFailure := None; opt_onSuccess := None |}.

(** The error of a connection that was refused. *)
Definition econnrefused : JsError :=
  {| ename := "Error"; ecode := Some "ECONNREFUSED"; eresponse := None;
     emessage := "connect ECONNREFUSED 127.0.0.1:3001" |}.

(** The entry of [this.services] for [usuarios]. *)
Definition usuariosConfig : ServiceConfig :=
  {| service_url := "http://localhost:3001"; service_timeout := 5000;
     service_retries := 3 |}.

(** The breaker the gateway creates for the service [usuarios] at clock
    reading 0: threshold 5, timeout 5000 ms, reset timeout 30000 ms. *)
Definition usuariosBreaker : CircuitBreaker :=
  newCircuitBreaker 0 (withName "usuarios" (gatewayBreakerOptions usuariosConfig)).

(** The answer of a health check. *)
Definition ok200 : AxiosResponse :=
  {| status := 200; data := [("mensaje", JStr "Microservicio funcionando")] |}.

(** [usuariosBreaker] after five calls that were refused at once. *)
Definition trippedBreaker : CircuitBreaker :=
  executeAll [(100, Rejects econnrefused 2); (200, Rejects econnrefused 2);
              (300, Rejects econnrefused 2); (400, Rejects econnrefused 2);
              (500, Rejects econnrefused 2)] usuariosBreaker.

(** [usuariosBreaker] after [forceOpen()] at clock reading 1000. *)
Definition forcedOpenBreaker : CircuitBreaker :=
  breakerOf (forceOpen 1000 usuariosBreaker).

(** What an observer of state changes throws when its sink is down. *)
Definition hookError : JsError :=
  {| ename := "Error"; ecode := None; eresponse := None;
     emessage := "telemetry sink unavailable" |}.

(** The gateway's breaker for [usuarios] with [hook] as its observer of
    state changes, after five calls that were refused at once: it opened at
    clock reading 502 and is due for a reset at 30502. *)
Definition trippedWith (hook : State -> State -> CallbackResult)
  : CircuitBreaker :=
  executeAll [(100, Rejects econnrefused 2); (200, Rejects econnrefused 2);
              (300, Rejects econnrefused 2); (400, Rejects econnrefused 2);
              (500, Rejects econnrefused 2)]
    (newCircuitBreaker 0
       {| opt_name := Some "usuarios";
          opt_failureThreshold := Some 5;
          opt_timeout := Some 5000;
          opt_resetTimeout := Some 30000;
          opt_monitoringPeriod := None;
          opt_onStateChange := Some hook;
          opt_onFailure := Some (fun _ => CbReturns);
          opt_onSuccess := Some (fun _ => CbReturns) |}).

(** A server error and a client error as [axios] rejects with them. *)
Definition http500 : JsError :=
  {| ename := "AxiosError"; ecode := Some "ERR_BAD_RESPONSE";
     eresponse := Some {| status := 500;
                          data := [("error", JStr "Error interno")] |};
     emessage := "Request failed with status code 500" |}.

Definition http404 : JsError :=
  {| ename := "AxiosError"; ecode := Some "ERR_BAD_REQUEST";
     eresponse := Some {| status := 404;
                          data := [("error", JStr "Usuario no encontrado")] |};
     emessage := "Request failed with status code 404" |}.

(** A downstream service that answers 500 twice and then 200. *)
Definition failsTwice (attempt : nat) : AxiosOutcome :=
  match attempt with
  | 0%nat | 1%nat => AxiosRejects http500 12
  | _ => AxiosResolves ok200 15
  end.

(** A downstream service that always answers 404. *)
Definition notFound (attempt : nat) : AxiosOutcome := AxiosRejects http404 9.

(** A request of the client at 10.0.0.7. *)
Definition sampleRequest : Request :=
  {| req_method := "GET"; req_path := "/api/usuarios/42";
     req_ip := Some "10.0.0.7"; req_authorization := None |}.

(** ** The rest of the breaker's manager *)

(** The order in which a JavaScript [Map] is iterated is the order in which
    its keys were inserted, which a finite map does not record. Where a
    method iterates over [this.breakers], the keys are given in that order:
    [keys] lists every key of the map once. *)
Definition keysOf (keys : list string) (m : gmap string CircuitBreaker)
  : Prop :=
  NoDup keys /\ forall k, k ∈ keys <-> is_Some (m !! k).

(** [this.breakers.set(name, breaker)] *)
Definition setBreaker (n : string) (breaker : CircuitBreaker)
    (mgr : CircuitBreakerManager) : CircuitBreakerManager :=
  {| breakers := <[n := breaker]> (breakers mgr);
     globalMetrics := globalMetrics mgr |}.

(** [getGlobalMetrics()]: the counts are taken anew at every call. *)
Definition getGlobalMetrics (mgr : CircuitBreakerManager)
  : GlobalMetrics * CircuitBreakerManager :=
  (globalMetrics (updateGlobalMetrics mgr), updateGlobalMetrics mgr).

(** [getAllStates()] *)
Definition getAllStates (keys : list string) (mgr : CircuitBreakerManager)
  : list BreakerState :=
  omap (fun k => option_map getState (breakers mgr !! k)) keys.

(** [resetAll()], at clock reading [now]: [forEach] stops at the first
    breaker whose [reset()] throws. *)
Fixpoint resetAll (now : Z) (keys : list string) (mgr : CircuitBreakerManager)
  : Outcome unit * CircuitBreakerManager * list Event :=
  match keys with
  | [] => (Normal tt, mgr, [])
  | k :: rest =>
      match breakers mgr !! k with
      | None => resetAll now rest mgr
      | Some breaker =>
          match reset now breaker with
          | (Normal _, breaker', events) =>
              match resetAll now rest (setBreaker k breaker' mgr) with
              | (outcome, mgr', events') => (outcome, mgr', events ++ events')
              end
          | (Throw e, breaker', events) =>
              (Throw e, setBreaker k breaker' mgr, events)
          | (Pending, breaker', events) =>
              (Pending, setBreaker k breaker' mgr, events)
          end
      end
  end.

(** ** The rest of the gateway *)

(** *** Maintenance of the breakers *)

(** The object [getCircuitBreakerStates()] returns. *)
Record CircuitBreakerStates := {
  global : GlobalMetrics;
  breakerStates : list BreakerState
}.

(** [getCircuitBreakerStates()] *)
Definition getCircuitBreakerStates (keys : list string) (g : GatewayService)
  : CircuitBreakerStates * GatewayService :=
  match getGlobalMetrics (circuitBreakerManager g) with
  | (counts, mgr) =>
      ({| global := counts; breakerStates := getAllStates keys mgr |},
       set_circuitBreakerManager mgr g)
  end.

(** [resetCircuitBreaker(serviceName)], at clock reading [now]. The breaker
    is the object held by the map of the manager. *)
Definition resetCircuitBreaker (now : Z) (serviceName : string)
    (g : GatewayService) : Outcome unit * GatewayService * list Event :=
  match getBreaker now serviceName noOptions (circuitBreakerManager g) with
  | (breaker, mgr) =>
      match reset now breaker with
      | (outcome, breaker', events) =>
          (outcome,
           set_circuitBreakerManager (setBreaker serviceName breaker' mgr) g,
           events)
      end
  end.

(** *** Strings *)

(** Positions in a JavaScript string count UTF-16 code units and positions
    here count bytes; the functions below are only composed so that a
    position found by [indexOf] is the position a piece is cut at, which
    gives the same pieces in both. *)

(** [s.indexOf(pattern)]; [None] stands for -1. *)
Fixpoint indexOf (pattern s : string) : option nat :=
  if String.prefix pattern s then Some 0%nat
  else
    match s with
    | EmptyString => None
    | String _ rest => option_map S (indexOf pattern rest)
    end.

(** [s.includes(pattern)] *)
Definition includes (pattern s : string) : bool :=
  match indexOf pattern s with
  | Some _ => true
  | None => false
  end.

(** [s.substring(start)] *)
Fixpoint substring (start : nat) (s : string) : string :=
  match start, s with
  | O, _ => s
  | S n, String _ rest => substring n rest
  | S _, EmptyString => EmptyString
  end.

(** [s.substring(0, stop)] *)
Fixpoint substringTo (stop : nat) (s : string) : string :=
  match stop, s with
  | S n, String c rest => String c (substringTo n rest)
  | _, _ => EmptyString
  end.

(** [s.replace(pattern, replacement)] for a string [pattern] and a
    [replacement] without [$]: the first occurrence is replaced. *)
Definition replace (pattern replacement s : string) : string :=
  match indexOf pattern s with
  | Some i =>
      substringTo i s +:+ replacement
        +:+ substring (i + String.length pattern) s
  | None => s
  end.

(** [s.split(sep)] for a separator of one character. *)
Fixpoint split (sep : Ascii.ascii) (s : string) : list string :=
  match s with
  | EmptyString => [EmptyString]
  | String c rest =>
      if Ascii.eqb c sep then EmptyString :: split sep rest
      else
        match split sep rest with
        | piece :: pieces => String c piece :: pieces
        | [] => [String c EmptyString]
        end
  end.

(** *** The address a request is forwarded to *)

(** [fullUrl] in [makeServiceRequest]: the address of the service, the path
    of the request ([req.path]) without the first [/api/<serviceName>] in
    it, and the query string of the request, cut from [req.url]. *)
Definition fullUrl (serviceUrl serviceName path url : string) : string :=
  let path' := replace ("/api/" +:+ serviceName) "" path in
  let queryString :=
    if includes "?" url then
      match indexOf "?" url with
      | Some i => substring i url
      | None => url
      end
    else "" in
  (serviceUrl +:+ path') +:+ queryString.

(** *** Authentication *)

(** How [jwt.verify(token, secret)] ends: it returns the decoded payload or
    throws an error with a message. *)
Inductive JwtVerdict :=
  | Decoded (payload : Json)
  | Invalid (message : string).

(** The routes that need no token. *)
Definition publicRoutes : list string :=
  ["/health"; "/api/usuarios/login"; "/api/usuarios/registro"].

(** The separator [' ']. *)
Definition space : Ascii.ascii := Ascii.ascii_of_nat 32.

(** [authHeader && authHeader.split(' ')[1]]; [None] is [undefined]. *)
Definition tokenOf (authHeader : option string) : option string :=
  match authHeader with
  | None => None
  | Some header =>
      if String.eqb header "" then Some ""
      else nth_error (split space header) 1
  end.

(** What a run of the ['auth'] middleware does: how it leaves the chain,
    the value it assigns to [req.user], if any, and the tokens it has
    passed to [jwt.verify]. *)
Record AuthRun := {
  auth_step : MiddlewareStep;
  auth_user : option Json;
  auth_verified : list string
}.

(** The responses of the ['auth'] middleware: no token, and a token that
    [jwt.verify] refuses with the message [details]. *)
Definition tokenRequired : Reply :=
  {| statusCode := 401;
     body := [("error", JStr "Token de acceso requerido");
              ("message", JStr "Debe proporcionar un token de autenticación")] |}.

Definition tokenRejected (details : string) : Reply :=
  {| statusCode := 403;
     body := [("error", JStr "Token inválido");
              ("message", JStr "El token proporcionado no es válido o ha expirado");
              ("details", JStr details)] |}.

(** The ['auth'] middleware of [setupDefaultMiddleware]; the oracle [verify]
    stands for [jwt.verify] with the secret of the process. *)
Definition auth (verify : string -> JwtVerdict) (req : Request) : AuthRun :=
  if existsb (String.eqb (req_path req)) publicRoutes then
    {| auth_step := CallsNext; auth_user := None; auth_verified := [] |}
  else
    match tokenOf (req_authorization req) with
    | None =>
        {| auth_step := Responds tokenRequired; auth_user := None;
           auth_verified := [] |}
    | Some token =>
        if String.eqb token "" then
          {| auth_step := Responds tokenRequired; auth_user := None;
             auth_verified := [] |}
        else
          match verify token with
          | Decoded payload =>
              {| auth_step := CallsNext; auth_user := Some payload;
                 auth_verified := [token] |}
          | Invalid message =>
              {| auth_step := Responds (tokenRejected message);
                 auth_user := None; auth_verified := [token] |}
          end
    end.

(** The entries of [this.middleware] after [setupDefaultMiddleware], as the
    chain sees them. The ['logging'] entry only registers a listener on the
    response and calls [next()]; the ['auth'] entry touches the request, not
    the gateway. *)
Definition logging : Middleware := fun _ _ g => (CallsNext, g).

Definition authEntry (verify : string -> JwtVerdict) : Middleware :=
  fun _ req g => (auth_step (auth verify req), g).

(** [addMiddleware(name, middleware)]: the new value of [this.middleware]. *)
Definition addMiddleware (n : string) (middleware : Middleware)
    (entries : list (string * Middleware)) : list (string * Middleware) :=
  entries ++ [(n, middleware)].

(** [this.middleware] after [setupDefaultMiddleware()]. *)
Definition defaultMiddleware (verify : string -> JwtVerdict)
  : list (string * Middleware) :=
  addMiddleware "auth" (authEntry verify)
    (addMiddleware "rateLimit" rateLimit
       (addMiddleware "logging" logging [])).

(** *** Logs and statistics *)

(** An entry of [this.logs]; a member that is [undefined] is [None]. *)
Record LogEntry := {
  log_timestamp : Z;
  log_method : string;
  log_path : string;
  log_ip : option string;
  log_userAgent : option string;
  log_userId : JsonValue;
  log_duration : option Z;
  log_statusCode : option Z
}.

(** [log.duration || 0] *)
Definition durationOf (log : LogEntry) : Z :=
  match log_duration log with
  | Some d => d
  | None => 0
  end.

(** [Math.round(a / b)] for integers [a] and [b > 0]: the nearest integer,
    a half rounded up. (The quotient of the doubles is rounded before
    [Math.round] sees it, which cannot move it across a half while [a] is
    below 2^52.) *)
Definition roundDiv (a b : Z) : Z := (2 * a + b) / (2 * b).

(** [calculateAverageResponseTime()] *)
Definition calculateAverageResponseTime (logs : list LogEntry) : Z :=
  match logs with
  | [] => 0
  | _ =>
      let totalTime := fold_left (fun sum log => sum + durationOf log) logs 0 in
      roundDiv totalTime (Z.of_nat (length logs))
  end.

(** [cleanupLogs(maxAge)], at clock reading [now]: the new value of
    [this.logs]. *)
Definition cleanupLogs (now maxAge : Z) (logs : list LogEntry)
  : list LogEntry :=
  let cutoff := now - maxAge in
  filter (fun log => cutoff < log_timestamp log) logs.

(** The default of the parameter of [cleanupLogs]: 24 hours. *)
Definition defaultMaxAge : Z := 24 * 60 * 60 * 1000.

(** The numbers [getStats()] computes, at clock reading [now]; the names of
    the services and the uptime of the process are passed through. *)
Record Stats := {
  stats_totalRequests : Z;
  stats_requestsLastHour : Z;
  stats_averageResponseTime : Z;
  stats_rateLimitClients : Z
}.

(** [getStats()] *)
Definition getStats (now : Z) (logs : list LogEntry) (g : GatewayService)
  : Stats :=
  let lastHour :=
    filter (fun log => now - 60 * 60 * 1000 < log_timestamp log) logs in
  {| stats_totalRequests := Z.of_nat (length logs);
     stats_requestsLastHour := Z.of_nat (length lastHour);
     stats_averageResponseTime := calculateAverageResponseTime logs;
     stats_rateLimitClients := Z.of_nat (size (rateLimitStore g)) |}.

(** ** Further notions used in the statements *)

(** What can be done to a breaker from outside: a call of [execute], the
    settlement of a wrapped call that was started at [start] and whose
    timer has fired, and the maintenance methods. *)
Inductive Operation :=
  | OpExecute (call : CallBehaviour)
  | OpSettleLate (start : Z) (call : CallBehaviour)
  | OpReset
  | OpForceOpen
  | OpForceClosed.

(** The breaker after an operation done at clock reading [now]. *)
Definition perform (now : Z) (op : Operation) (this : CircuitBreaker)
  : CircuitBreaker :=
  match op with
  | OpExecute call => breakerOf (execute now call this)
  | OpSettleLate start call => breakerOf (lateSettlement start call this)
  | OpReset => breakerOf (reset now this)
  | OpForceOpen => breakerOf (forceOpen now this)
  | OpForceClosed => breakerOf (forceClosed now this)
  end.

(** The breaker after a sequence of operations. *)
Fixpoint performAll (ops : list (Z * Operation)) (this : CircuitBreaker)
  : CircuitBreaker :=
  match ops with
  | [] => this
  | (now, op) :: rest => performAll rest (perform now op this)
  end.

(** The fields of a breaker fit together: [nextAttemptTime] is set exactly
    while the breaker is OPEN; the breaker has been closed at most as often
    as it was opened, and less often while it is not CLOSED; the failure
    count is not negative, and below a positive threshold while the breaker
    is CLOSED. *)
Definition wellFormed (this : CircuitBreaker) : Prop :=
  (state this = OPEN <-> nextAttemptTime this <> None) /\
  circuitCloseCount (metrics this)
    + (if State_eqb (state this) CLOSED then 0 else 1)
    <= circuitOpenCount (metrics this) /\
  0 <= failures this /\
  (0 < failureThreshold this -> state this = CLOSED ->
   failures this < failureThreshold this).

(** The request counters of [this.metrics]: requests, successes, failures. *)
Definition tally (this : CircuitBreaker) : Z * Z * Z :=
  (totalRequests (metrics this), successfulRequests (metrics this),
   failedRequests (metrics this)).

(** The calls that have been counted as a success or as a failure. *)
Definition settledRequests (this : CircuitBreaker) : Z :=
  successfulRequests (metrics this) + failedRequests (metrics this).

(** The wrapped function throws before it returns a promise. *)
Definition throwsAtOnce (call : CallBehaviour) : bool :=
  match call with
  | ThrowsSync _ => true
  | _ => false
  end.

(** The three callbacks of the breaker are there and return, as the ones
    [setupCircuitBreakers] installs, which only write to the console. *)
Definition quietCallbacks (this : CircuitBreaker) : Prop :=
  quietHook this /\
  (exists f, onFailure this = Some f /\ forall error, f error = CbReturns) /\
  (exists f, onSuccess this = Some f /\ forall result, f result = CbReturns).

(** How the promise of [executeWithTimeout] settles when the observer of
    state changes does not throw: the wrapped call and the timer race. *)
Definition settlesAs (this : CircuitBreaker) (call : CallBehaviour)
  : Outcome AxiosResponse :=
  if timesOut this call then
    Throw (CircuitBreakerTimeoutError (timeoutMessage this))
  else
    match call with
    | Resolves result _ => Normal result
    | Rejects error _ | ThrowsSync error => Throw error
    | NeverSettles => Pending
    end.

(** An error as [axios] rejects with it: it does not carry the name of one
    of the errors of the breaker. *)
Definition fromAxios (error : JsError) : Prop :=
  (ename error = "CircuitBreakerOpenError" -> False) /\
  (ename error = "CircuitBreakerTimeoutError" -> False).

(** The service answers the first attempt with a client error (status 400
    to 499) in less than [limit] milliseconds. *)
Definition answersClientError (limit : Z) (axios : nat -> AxiosOutcome)
  : Prop :=
  exists error dt,
    axios 0%nat = AxiosRejects error dt /\ httpError 400 499 error /\
    fromAxios error /\ dt < limit.

(** The response of [processRequest] while the breaker of the service is
    OPEN, and its response to a timeout of the breaker. *)
Definition breakerOpenReply (replyTime : Z) (serviceName : string) : Reply :=
  {| statusCode := 503;
     body := [("error", JStr "Servicio temporalmente no disponible");
              ("service", JStr serviceName);
              ("message", JStr "El servicio está experimentando problemas. Intente más tarde.");
              ("circuitBreakerState", JStr "OPEN");
              ("timestamp", JTime replyTime)] |}.

Definition breakerTimeoutReply (replyTime : Z) (serviceName : string)
  : Reply :=
  {| statusCode := 504;
     body := [("error", JStr "Timeout del servicio");
              ("service", JStr serviceName);
              ("message", JStr "El servicio tardó demasiado en responder");
              ("circuitBreakerState", JStr "TIMEOUT");
              ("timestamp", JTime replyTime)] |}.

(** A call of [axios] takes time: it does not settle before it starts. *)
Definition takesTime (o : AxiosOutcome) : Prop :=
  match o with
  | AxiosResolves _ dt | AxiosRejects _ dt => 0 <= dt
  | AxiosNeverSettles => True
  end.

(** The attempt fails with an error that is retried. *)
Definition failsRetryably (o : AxiosOutcome) : Prop :=
  match o with
  | AxiosRejects error dt => isRetryableError error = true
  | _ => False
  end.

(** The delay slept after the failed attempt [i]. *)
Definition backoff (i : nat) : Z := 2 ^ Z.of_nat i * 1000.

(** What a run does from attempt [i] on when the attempts before attempt
    [k] fail and are retried: attempt, sleep, ..., attempt [k]. *)
Definition scheduleFrom (i k : nat) : list RetryEvent :=
  flat_map (fun j => [Attempt j; Sleep (backoff j)]) (seq i (k - i))
    ++ [Attempt k].

(** What a run with [n] attempts does. *)
Definition schedule (n : nat) : list RetryEvent := scheduleFrom 0 (n - 1).

(** How the promise of [makeRequestWithRetry] ends when the call of
    [axios] that ended as [o] was its last. *)
Definition resultOf (o : AxiosOutcome) : Outcome AxiosResponse :=
  match o with
  | AxiosResolves response _ => Normal response
  | AxiosRejects error _ => Throw error
  | AxiosNeverSettles => Pending
  end.

(** The sum of the delays slept by a run. *)
Definition totalDelay (r : RetryRun) : Z := fold_right Z.add 0 (delays r).

(** Requests for one service that are handled one after the other, each
    given with the clock readings at its entry and at its reply and with
    what [axios] does for it: the replies, and the gateway after the last. *)
Fixpoint processAll (runs : list (Z * Z * (nat -> AxiosOutcome)))
    (serviceName : string) (req : Request) (g : GatewayService)
  : list (option Reply) * GatewayService :=
  match runs with
  | [] => ([], g)
  | (now, replyTime, axios) :: rest =>
      let p := processRequest now replyTime axios serviceName req g in
      match processAll rest serviceName req (gateway p) with
      | (replies, g') => (reply p :: replies, g')
      end
  end.

(** The same request arriving at the clock readings [times] and run through
    the chain each time: how each run ended, and the gateway after the
    last. *)
Fixpoint executeMiddlewareAll (entries : list (string * Middleware))
    (times : list Z) (req : Request) (g : GatewayService)
  : list ChainEnd * GatewayService :=
  match times with
  | [] => ([], g)
  | now :: rest =>
      match executeMiddleware entries now req g with
      | (chainEnd, _, g1) =>
          match executeMiddlewareAll entries rest req g1 with
          | (ends, g2) => (chainEnd :: ends, g2)
          end
      end
  end.

(** Requests of any clients arriving one after the other, each with the
    clock reading at its arrival: what the rate limiter did with each, and
    the gateway after the last. *)
Fixpoint rateLimitEach (arrivals : list (Z * Request)) (g : GatewayService)
  : list MiddlewareStep * GatewayService :=
  match arrivals with
  | [] => ([], g)
  | (now, req) :: rest =>
      match rateLimit now req g with
      | (step, g1) =>
          match rateLimitEach rest g1 with
          | (steps, g2) => (step :: steps, g2)
          end
      end
  end.

(** The arrivals of the client [client], and what the rate limiter did
    with them among the others. *)
Definition arrivalsOf (client : string) (arrivals : list (Z * Request))
  : list (Z * Request) :=
  filter (fun a => clientIdOf (snd a) = client) arrivals.

Definition stepsOf (client : string) (arrivals : list (Z * Request))
    (steps : list MiddlewareStep) : list MiddlewareStep :=
  map snd (filter (fun p => clientIdOf (snd (fst p)) = client)
             (zip arrivals steps)).

(** Every client of the store has used between 0 and [maxRequests] of the
    requests of its window. *)
Definition withinCap (g : GatewayService) : Prop :=
  forall client entry,
    rateLimitStore g !! client = Some entry -> 0 <= count entry <= maxRequests.

(** The count [this.globalMetrics] holds for a state, and the number of
    entries of [getAllStates()] in that state. *)
Definition countOf (s : State) (counts : GlobalMetrics) : Z :=
  match s with
  | OPEN => openBreakers counts
  | HALF_OPEN => halfOpenBreakers counts
  | CLOSED => closedBreakers counts
  end.

Definition statesIn (s : State) (states : list BreakerState) : Z :=
  Z.of_nat (length (filter (fun bs => State_eqb (bs_state bs) s = true) states)).

(** The breaker the gateway creates for the service [serviceName]. *)
Definition gatewayBreaker (now : Z) (serviceName : string)
    (service : ServiceConfig) : CircuitBreaker :=
  newCircuitBreaker now (withName serviceName (gatewayBreakerOptions service)).

(** ** Further sample inputs *)

(** A breaker with the settings of the gateway and [hook] as its observer
    of state changes, after [forceOpen()] at clock reading 1000. *)
Definition openedBreaker (n : string) (hook : State -> State -> CallbackResult)
  : CircuitBreaker :=
  breakerOf (forceOpen 1000
    (newCircuitBreaker 0
       {| opt_name := Some n; opt_failureThreshold := Some 5;
          opt_timeout := Some 5000; opt_resetTimeout := Some 30000;
          opt_monitoringPeriod := None; opt_onStateChange := Some hook;
          opt_onFailure := Some (fun _ => CbReturns);
          opt_onSuccess := Some (fun _ => CbReturns) |})).

(** An observer of state changes that throws when a breaker is closed. *)
Definition throwsOnClose (oldState newState : State) : CallbackResult :=
  match newState with
  | CLOSED => CbThrows hookError
  | _ => CbReturns
  end.

(** A manager of three breakers that have been forced open, inserted in
    the order [usuarios], [pagos], [catalogo]; the observer of the second
    one throws when the breaker is closed. Its counts are the ones taken
    when the breakers were created. *)
Definition sampleManager : CircuitBreakerManager :=
  {| breakers :=
       <["catalogo" := openedBreaker "catalogo" (fun _ _ => CbReturns)]>
       (<["pagos" := openedBreaker "pagos" throwsOnClose]>
       (<["usuarios" := openedBreaker "usuarios" (fun _ _ => CbReturns)]> ∅));
     globalMetrics := {| totalBreakers := 3; openBreakers := 0;
                         halfOpenBreakers := 0; closedBreakers := 3 |} |}.

(** The names of the services of the gateway, in the order in which the
    constructor configures them and creates their breakers. *)
Definition serviceNames : list string := ["usuarios"; "pagos"; "catalogo"].

(** A downstream service that refuses every connection at once. *)
Definition down (attempt : nat) : AxiosOutcome := AxiosRejects econnrefused 2.

(** A downstream service that answers every request with 200. *)
Definition up (attempt : nat) : AxiosOutcome := AxiosResolves ok200 15.

(** A token that [jwt.verify] accepts, and the oracle that accepts only
    that one. *)
Definition goodToken : string := "eyJhbGciOiJIUzI1NiJ9.eyJpZCI6NDJ9.c2ln".

Definition verifyGood (token : string) : JwtVerdict :=
  if String.eqb token goodToken then Decoded [("id", JNum 42)]
  else Invalid "invalid signature".

(** An entry of the log written at clock reading [t] for a request that
    took [d] milliseconds, and a log of three entries. *)
Definition sampleLog (t d : Z) : LogEntry :=
  {| log_timestamp := t; log_method := "GET"; log_path := "/api/usuarios/42";
     log_ip := Some "10.0.0.7"; log_userAgent := None;
     log_userId := JStr "anonymous"; log_duration := Some d;
     log_statusCode := Some 200 |}.

Definition sampleLogs : list LogEntry :=
  [sampleLog 1000 12; sampleLog 50000000 7; sampleLog 89000000 30].


(** * Properties *)

(** ** Equations of the methods *)

Lemma State_eqb_spec a b : reflect (a = b) (State_eqb a b).
Proof. destruct a, b; constructor; congruence. Qed.

Lemma State_eqb_refl a : State_eqb a a = true.
Proof. now destruct a. Qed.

Lemma State_eqb_neq a b : a <> b -> State_eqb a b = false.
Proof. destruct (State_eqb_spec a b); congruence. Qed.

Lemma run_eta {A} (r : Outcome A * CircuitBreaker * list Event) :
  r = (outcomeOf r, breakerOf r, eventsOf r).
Proof. now destruct r as [[o b] l]. Qed.

Lemma outcomeOf_run {A} (o : Outcome A) b l : outcomeOf (o, b, l) = o.
Proof. reflexivity. Qed.

Lemma breakerOf_run {A} (o : Outcome A) b l : breakerOf (o, b, l) = b.
Proof. reflexivity. Qed.

Lemma eventsOf_run {A} (o : Outcome A) b l : eventsOf (o, b, l) = l.
Proof. reflexivity. Qed.

Lemma bind_assign {B} f (k : unit -> M B) b :
  bind (assign f) k b = k tt (f b).
Proof. unfold bind, assign. now destruct (k tt (f b)) as [[r b2] l2]. Qed.

Lemma bind_get {B} (k : CircuitBreaker -> M B) b :
  bind get k b = k b b.
Proof. unfold bind, get. now destruct (k b b) as [[r b2] l2]. Qed.

Lemma bind_ret {A B} (a : A) (k : A -> M B) b :
  bind (ret a) k b = k a b.
Proof. unfold bind, ret. now destruct (k a b) as [[r b2] l2]. Qed.

Lemma bind_throw {A B} e (k : A -> M B) b :
  bind (throw e) k b = (Throw e, b, []).
Proof. reflexivity. Qed.

Lemma bind_run {A B} (c : M A) (k : A -> M B) b :
  bind c k b =
  match outcomeOf (c b) with
  | Normal a =>
      (outcomeOf (k a (breakerOf (c b))),
       breakerOf (k a (breakerOf (c b))),
       eventsOf (c b) ++ eventsOf (k a (breakerOf (c b))))
  | Throw e => (Throw e, breakerOf (c b), eventsOf (c b))
  | Pending => (Pending, breakerOf (c b), eventsOf (c b))
  end.
Proof.
  unfold bind, outcomeOf, breakerOf, eventsOf.
  destruct (c b) as [[[a|e|] b1] l1]; cbn; try reflexivity.
  now destruct (k a b1) as [[r b2] l2].
Qed.

Lemma tryCatch_run {A} (c : M A) (h : JsError -> M A) b :
  tryCatch c h b =
  match outcomeOf (c b) with
  | Throw e =>
      (outcomeOf (h e (breakerOf (c b))),
       breakerOf (h e (breakerOf (c b))),
       eventsOf (c b) ++ eventsOf (h e (breakerOf (c b))))
  | _ => c b
  end.
Proof.
  unfold tryCatch, outcomeOf, breakerOf, eventsOf.
  destruct (c b) as [[[a|e|] b1] l1]; cbn; try reflexivity.
  now destruct (h e b1) as [[r b2] l2].
Qed.

Ltac break_breaker b :=
  destruct b as [nm thr tmo rst mon st fl su lf ls na me osc ofl osu].

Lemma setState_run now s b :
  setState now s b =
  if State_eqb (state b) s then (Normal tt, b, [])
  else (notifyOutcome b (state b) s, transition now s b,
        notifyEvents b (state b) s).
Proof.
  break_breaker b. destruct me.
  unfold setState, notifyOutcome, notifyEvents, transition, bind, get, assign,
    ret, invoke.
  destruct st, s; cbn; try reflexivity;
    (destruct osc as [hook|]; [destruct (hook _ _)|]); reflexivity.
Qed.

Lemma recordSuccess_run now b :
  recordSuccess now b =
  if State_eqb (state b) HALF_OPEN
  then setState now CLOSED (successCounted now b)
  else (Normal tt, successCounted now b, []).
Proof.
  unfold recordSuccess, successCounted.
  rewrite !bind_assign, bind_get.
  break_breaker b. destruct me. cbn [state set_successes set_failures
    set_lastSuccessTime set_metrics bump_successfulRequests metrics successes].
  now destruct (State_eqb st HALF_OPEN).
Qed.

Lemma recordFailure_run now b :
  recordFailure now b =
  if failureThreshold b <=? failures b + 1
  then setState now OPEN (failureCounted now b)
  else (Normal tt, failureCounted now b, []).
Proof.
  unfold recordFailure, failureCounted.
  rewrite !bind_assign, bind_get.
  break_breaker b. destruct me. cbn [failureThreshold failures set_failures
    set_lastFailureTime set_metrics bump_failedRequests metrics].
  now destruct (thr <=? fl + 1).
Qed.

Lemma execute_run now call b :
  execute now call b =
  if State_eqb (state b) OPEN then
    if shouldAttemptReset now b
    then bind (setState now HALF_OPEN) (fun _ => guardedCall now call)
           (countRequest b)
    else (Throw (CircuitBreakerOpenError (openMessage b)), countRequest b, [])
  else guardedCall now call (countRequest b).
Proof.
  unfold execute. fold (guardedCall now call).
  rewrite bind_assign. fold (countRequest b). rewrite bind_get.
  replace (state (countRequest b)) with (state b)
    by (break_breaker b; reflexivity).
  replace (shouldAttemptReset now (countRequest b))
    with (shouldAttemptReset now b) by (break_breaker b; reflexivity).
  replace (openMessage (countRequest b)) with (openMessage b)
    by (break_breaker b; reflexivity).
  destruct (State_eqb (state b) OPEN).
  - now destruct (shouldAttemptReset now b).
  - now rewrite bind_ret.
Qed.
(** *** The wrapped call under the timer *)

Arguments setState : simpl never.
Arguments recordSuccess : simpl never.
Arguments recordFailure : simpl never.
Arguments executeWithTimeout : simpl never.
Arguments callOnSuccess : simpl never.
Arguments callOnFailure : simpl never.
Arguments guardedCall : simpl never.
Arguments execute : simpl never.
Arguments reset : simpl never.

Lemma executeWithTimeout_timesOut now call b :
  timesOut b call = true ->
  executeWithTimeout now call b =
  (Throw (CircuitBreakerTimeoutError (timeoutMessage b)), b, [EvCall]).
Proof.
  intros H. unfold executeWithTimeout. rewrite bind_get.
  destruct call as [result dt|error dt| |error]; cbn in H; try discriminate;
    try (apply Z.leb_le in H; apply Z.ltb_ge in H; rewrite H);
    reflexivity.
Qed.

Lemma executeWithTimeout_throwsSync now error b :
  executeWithTimeout now (ThrowsSync error) b = (Throw error, b, [EvCall]).
Proof. reflexivity. Qed.

Lemma executeWithTimeout_rejects now error dt b :
  dt < timerDelay (timeout b) ->
  executeWithTimeout now (Rejects error dt) b =
  let r := recordFailure (now + dt) b in
  (match outcomeOf r with Normal _ => Throw error | _ => Pending end,
   breakerOf r, EvCall :: eventsOf r).
Proof.
  intros H. apply Z.ltb_lt in H.
  unfold executeWithTimeout. rewrite bind_get, H.
  unfold bind at 1. unfold emit, unsettledIfThrows, bind, throw.
  destruct (recordFailure (now + dt) b) as [[[[]|e|] b1] l1]; cbn;
    rewrite ?app_nil_r; reflexivity.
Qed.

Lemma executeWithTimeout_resolves now result dt b :
  dt < timerDelay (timeout b) ->
  executeWithTimeout now (Resolves result dt) b =
  let r := recordSuccess (now + dt) b in
  match outcomeOf r with
  | Normal _ => (Normal result, breakerOf r, EvCall :: eventsOf r)
  | Throw e =>
      let r' := recordFailure (now + dt) (breakerOf r) in
      (match outcomeOf r' with Normal _ => Throw e | _ => Pending end,
       breakerOf r', EvCall :: eventsOf r ++ eventsOf r')
  | Pending => (Pending, breakerOf r, EvCall :: eventsOf r)
  end.
Proof.
  intros H. apply Z.ltb_lt in H.
  unfold executeWithTimeout. rewrite bind_get, H.
  unfold bind at 1. unfold emit, tryCatch, unsettledIfThrows, bind, throw, ret.
  destruct (recordSuccess (now + dt) b) as [[[[]|e|] b1] l1]; cbn;
    rewrite ?app_nil_r; try reflexivity.
  destruct (recordFailure (now + dt) b1) as [[[[]|e'|] b2] l2]; cbn;
    rewrite ?app_nil_r; reflexivity.
Qed.

(** How the [catch] block of [execute] ends for the error it caught, and
    what it makes visible. *)
Lemma callOnFailure_run error b :
  callOnFailure error b =
  match onFailure b with
  | Some f =>
      (match f error with CbReturns => Normal tt | CbThrows e => Throw e end,
       b, [EvOnFailure error])
  | None => (Throw (TypeError "this.onFailure is not a function"), b, [])
  end.
Proof.
  unfold callOnFailure. rewrite bind_get.
  destruct (onFailure b) as [f|]; [|reflexivity].
  unfold invoke. now destruct (f error).
Qed.

Lemma callOnSuccess_run result b :
  callOnSuccess result b =
  match onSuccess b with
  | Some f =>
      (match f result with CbReturns => Normal tt | CbThrows e => Throw e end,
       b, [EvOnSuccess result])
  | None => (Throw (TypeError "this.onSuccess is not a function"), b, [])
  end.
Proof.
  unfold callOnSuccess. rewrite bind_get.
  destruct (onSuccess b) as [f|]; [|reflexivity].
  unfold invoke. now destruct (f result).
Qed.

(** The [catch] block always throws: the error it caught, or what
    [onFailure] throws. *)
Lemma catch_run error b :
  bind (callOnFailure error) (fun _ => @throw AxiosResponse error) b =
  (Throw (rethrown b error), b, catchEvents b error).
Proof.
  rewrite bind_run, callOnFailure_run. unfold rethrown, catchEvents.
  destruct (onFailure b) as [f|]; [destruct (f error)|]; reflexivity.
Qed.

Lemma guardedCall_run now call b :
  guardedCall now call b =
  let r := executeWithTimeout now call b in
  match outcomeOf r with
  | Normal result =>
      let s := callOnSuccess result (breakerOf r) in
      match outcomeOf s with
      | Normal _ => (Normal result, breakerOf r, eventsOf r ++ eventsOf s)
      | Throw e =>
          (Throw (rethrown (breakerOf r) e), breakerOf r,
           (eventsOf r ++ eventsOf s) ++ catchEvents (breakerOf r) e)
      | Pending => (Pending, breakerOf r, eventsOf r ++ eventsOf s)
      end
  | Throw e =>
      (Throw (rethrown (breakerOf r) e), breakerOf r,
       eventsOf r ++ catchEvents (breakerOf r) e)
  | Pending => r
  end.
Proof.
  unfold guardedCall. rewrite tryCatch_run, bind_run.
  destruct (executeWithTimeout now call b) as [[[result|e|] b1] l1];
    cbn [outcomeOf breakerOf eventsOf fst snd]; try reflexivity.
  - rewrite bind_run, callOnSuccess_run.
    destruct (onSuccess b1) as [f|];
      [destruct (f result)|];
      cbn [outcomeOf breakerOf eventsOf fst snd ret];
      rewrite ?app_nil_r; try reflexivity;
      rewrite catch_run; reflexivity.
  - rewrite catch_run. reflexivity.
Qed.

(** The callbacks [onSuccess] and [onFailure] cannot touch the breaker. *)
Lemma breakerOf_guardedCall now call b :
  breakerOf (guardedCall now call b) =
  breakerOf (executeWithTimeout now call b).
Proof.
  rewrite guardedCall_run. cbv zeta.
  destruct (outcomeOf (executeWithTimeout now call b)); try reflexivity.
  now destruct (outcomeOf (callOnSuccess a _)).
Qed.

(** *** What the methods leave in the breaker *)

Lemma breakerOf_setState now s b :
  breakerOf (setState now s b) =
  if State_eqb (state b) s then b else transition now s b.
Proof. rewrite setState_run. now destruct (State_eqb (state b) s). Qed.

Lemma breakerOf_recordFailure now b :
  breakerOf (recordFailure now b) =
  if failureThreshold b <=? failures b + 1
  then breakerOf (setState now OPEN (failureCounted now b))
  else failureCounted now b.
Proof.
  rewrite recordFailure_run.
  now destruct (failureThreshold b <=? failures b + 1).
Qed.

Lemma breakerOf_recordSuccess now b :
  breakerOf (recordSuccess now b) =
  if State_eqb (state b) HALF_OPEN
  then breakerOf (setState now CLOSED (successCounted now b))
  else successCounted now b.
Proof.
  rewrite recordSuccess_run. now destruct (State_eqb (state b) HALF_OPEN).
Qed.

Lemma breakerOf_executeWithTimeout_rejects now error dt b :
  dt < timerDelay (timeout b) ->
  breakerOf (executeWithTimeout now (Rejects error dt) b) =
  breakerOf (recordFailure (now + dt) b).
Proof. intros H. now rewrite executeWithTimeout_rejects. Qed.

Lemma breakerOf_executeWithTimeout_resolves now result dt b :
  dt < timerDelay (timeout b) ->
  breakerOf (executeWithTimeout now (Resolves result dt) b) =
  match outcomeOf (recordSuccess (now + dt) b) with
  | Throw _ =>
      breakerOf (recordFailure (now + dt)
                   (breakerOf (recordSuccess (now + dt) b)))
  | _ => breakerOf (recordSuccess (now + dt) b)
  end.
Proof.
  intros H. rewrite executeWithTimeout_resolves by exact H.
  destruct (recordSuccess (now + dt) b) as [[[[]|e|] b1] l1];
    cbn [outcomeOf breakerOf fst snd]; reflexivity.
Qed.

(** Counting a request touches [totalRequests] only. *)
Lemma state_countRequest b : state (countRequest b) = state b.
Proof. now break_breaker b. Qed.

Lemma failures_countRequest b : failures (countRequest b) = failures b.
Proof. now break_breaker b. Qed.

Lemma nextAttemptTime_countRequest b :
  nextAttemptTime (countRequest b) = nextAttemptTime b.
Proof. now break_breaker b. Qed.

Lemma failedRequests_countRequest b :
  failedRequests (metrics (countRequest b)) = failedRequests (metrics b).
Proof. break_breaker b. now destruct me. Qed.

Lemma sameSettings_refl b : sameSettings b b.
Proof. repeat split. Qed.

Lemma sameSettings_trans b1 b2 b3 :
  sameSettings b1 b2 -> sameSettings b2 b3 -> sameSettings b1 b3.
Proof.
  unfold sameSettings. intros (?&?&?&?&?&?&?&?) (?&?&?&?&?&?&?&?).
  repeat split; congruence.
Qed.

Lemma sameSettings_countRequest b : sameSettings b (countRequest b).
Proof. break_breaker b. repeat split. Qed.

Lemma sameSettings_transition now s b : sameSettings b (transition now s b).
Proof. break_breaker b. destruct me, s; repeat split. Qed.

Lemma sameSettings_failureCounted now b :
  sameSettings b (failureCounted now b).
Proof. break_breaker b. repeat split. Qed.

Lemma sameSettings_successCounted now b :
  sameSettings b (successCounted now b).
Proof. break_breaker b. repeat split. Qed.

(** The same, after any settings-preserving history. *)
Lemma sameSettings_then_countRequest b b' :
  sameSettings b b' -> sameSettings b (countRequest b').
Proof.
  intros H. eapply sameSettings_trans; [exact H|].
  apply sameSettings_countRequest.
Qed.

Lemma sameSettings_then_transition now s b b' :
  sameSettings b b' -> sameSettings b (transition now s b').
Proof.
  intros H. eapply sameSettings_trans; [exact H|].
  apply sameSettings_transition.
Qed.

Lemma sameSettings_then_failureCounted now b b' :
  sameSettings b b' -> sameSettings b (failureCounted now b').
Proof.
  intros H. eapply sameSettings_trans; [exact H|].
  apply sameSettings_failureCounted.
Qed.

Lemma sameSettings_then_successCounted now b b' :
  sameSettings b b' -> sameSettings b (successCounted now b').
Proof.
  intros H. eapply sameSettings_trans; [exact H|].
  apply sameSettings_successCounted.
Qed.

Create HintDb settings discriminated.
#[local] Hint Resolve sameSettings_refl sameSettings_then_countRequest
  sameSettings_then_transition sameSettings_then_failureCounted
  sameSettings_then_successCounted : settings.

Lemma sameSettings_setState now s b :
  sameSettings b (breakerOf (setState now s b)).
Proof.
  rewrite breakerOf_setState.
  destruct (State_eqb (state b) s); auto with settings.
Qed.

Lemma sameSettings_recordFailure now b :
  sameSettings b (breakerOf (recordFailure now b)).
Proof.
  rewrite breakerOf_recordFailure.
  destruct (failureThreshold b <=? failures b + 1).
  - eapply sameSettings_trans; [|apply sameSettings_setState].
    apply sameSettings_failureCounted.
  - apply sameSettings_failureCounted.
Qed.

Lemma sameSettings_recordSuccess now b :
  sameSettings b (breakerOf (recordSuccess now b)).
Proof.
  rewrite breakerOf_recordSuccess.
  destruct (State_eqb (state b) HALF_OPEN).
  - eapply sameSettings_trans; [|apply sameSettings_setState].
    apply sameSettings_successCounted.
  - apply sameSettings_successCounted.
Qed.

Lemma sameSettings_executeWithTimeout now call b :
  sameSettings b (breakerOf (executeWithTimeout now call b)).
Proof.
  destruct (timesOut b call) eqn:Hto.
  { rewrite executeWithTimeout_timesOut by assumption.
    apply sameSettings_refl. }
  destruct call as [result dt|error dt| |error]; cbn in Hto;
    try discriminate; try apply Z.leb_gt in Hto.
  - rewrite breakerOf_executeWithTimeout_resolves by assumption.
    pose proof (sameSettings_recordSuccess (now + dt) b) as H1.
    destruct (outcomeOf (recordSuccess (now + dt) b)); try exact H1.
    eapply sameSettings_trans; [exact H1|].
    apply sameSettings_recordFailure.
  - rewrite breakerOf_executeWithTimeout_rejects by assumption.
    apply sameSettings_recordFailure.
  - rewrite executeWithTimeout_throwsSync. apply sameSettings_refl.
Qed.

Lemma sameSettings_execute now call b :
  sameSettings b (breakerOf (execute now call b)).
Proof.
  assert (Hg : forall b', sameSettings b' (breakerOf (guardedCall now call b'))).
  { intros b'. rewrite breakerOf_guardedCall.
    apply sameSettings_executeWithTimeout. }
  pose proof (sameSettings_countRequest b) as Hc.
  rewrite execute_run.
  destruct (State_eqb (state b) OPEN);
    [destruct (shouldAttemptReset now b)|].
  - rewrite bind_run.
    pose proof (sameSettings_setState now HALF_OPEN (countRequest b)) as H1.
    destruct (outcomeOf (setState now HALF_OPEN (countRequest b)));
      cbn [breakerOf fst snd];
      try (eapply sameSettings_trans; [exact Hc|exact H1]).
    eapply sameSettings_trans; [exact Hc|].
    eapply sameSettings_trans; [exact H1|]. apply Hg.
  - exact Hc.
  - eapply sameSettings_trans; [exact Hc|apply Hg].
Qed.

(** *** Failures while CLOSED *)

(** One failed call on a CLOSED breaker: the failure is counted, and the
    breaker opens exactly when the count reaches the threshold. *)
Lemma execute_failure_closed now call b :
  state b = CLOSED ->
  rejectsInTime b call = true ->
  exists t,
    let b1 := breakerOf (execute now call b) in
    failures b1 = failures b + 1 /\
    lastFailureTime b1 = Some t /\
    (failures b + 1 < failureThreshold b ->
       state b1 = CLOSED) /\
    (failureThreshold b <= failures b + 1 ->
       state b1 = OPEN /\
       nextAttemptTime b1 = Some (t + resetTimeout b)).
Proof.
  intros Hst Hrej.
  destruct call as [|error dt| |]; try discriminate.
  cbn in Hrej. apply Z.ltb_lt in Hrej.
  exists (now + dt). cbv zeta.
  rewrite execute_run, Hst. cbn [State_eqb].
  rewrite breakerOf_guardedCall, breakerOf_executeWithTimeout_rejects
    by (break_breaker b; exact Hrej).
  rewrite breakerOf_recordFailure, breakerOf_setState.
  break_breaker b. destruct me. cbn in Hst. subst st. cbn.
  destruct (Z.leb_spec thr (fl + 1)); cbn; repeat split; try reflexivity; lia.
Qed.

Lemma executeAll_app calls1 calls2 b :
  executeAll (calls1 ++ calls2) b = executeAll calls2 (executeAll calls1 b).
Proof.
  revert b. induction calls1 as [|[now call] calls1 IH]; intros b; cbn.
  - reflexivity.
  - apply IH.
Qed.

Lemma sameSettings_executeAll calls b : sameSettings b (executeAll calls b).
Proof.
  revert b. induction calls as [|[now call] calls IH]; intros b; cbn.
  - apply sameSettings_refl.
  - eapply sameSettings_trans; [apply sameSettings_execute|apply IH].
Qed.

Lemma rejectsInTime_sameSettings b b' call :
  sameSettings b b' -> rejectsInTime b' call = rejectsInTime b call.
Proof.
  intros (_&_&Ht&_). destruct call; cbn; try reflexivity. now rewrite Ht.
Qed.

(** Fewer failed calls than the threshold asks for leave the breaker
    CLOSED, with every one of them counted. *)
Lemma executeAll_below_threshold calls b :
  state b = CLOSED ->
  Forall (fun c => rejectsInTime b (snd c) = true) calls ->
  failures b + Z.of_nat (length calls) < failureThreshold b ->
  state (executeAll calls b) = CLOSED /\
  failures (executeAll calls b) = failures b + Z.of_nat (length calls).
Proof.
  revert b. induction calls as [|[now call] calls IH]; intros b Hst Hall Hlt.
  - cbn. split; [assumption|lia].
  - cbn [executeAll]. rewrite length_cons, Nat2Z.inj_succ in Hlt.
    inversion Hall as [|c cs Hc Hcs]; subst. cbn in Hc.
    destruct (execute_failure_closed now call b Hst Hc) as (t & Hf & _ & Hclosed & _).
    pose proof (sameSettings_execute now call b) as Hsame.
    set (b1 := breakerOf (execute now call b)) in *.
    destruct (IH b1) as [IH1 IH2].
    + apply Hclosed. lia.
    + eapply Forall_impl; [exact Hcs|]. intros c Hcr. cbn beta in *.
      now rewrite (rejectsInTime_sameSettings b b1).
    + destruct Hsame as (_&Hthr&_). rewrite Hthr, Hf. lia.
    + split; [exact IH1|]. rewrite IH2, Hf, length_cons, Nat2Z.inj_succ. lia.
Qed.

Lemma totalRequests_countRequest b :
  totalRequests (metrics (countRequest b)) = totalRequests (metrics b) + 1.
Proof. break_breaker b. now destruct me. Qed.

(** An OPEN breaker before the time of the next attempt: [execute] counts
    the request and throws, and that is all it does. *)
Lemma execute_open_rejects now call b t :
  state b = OPEN ->
  nextAttemptTime b = Some t ->
  now < t ->
  execute now call b =
  (Throw (CircuitBreakerOpenError (openMessage b)), countRequest b, []).
Proof.
  intros Hst Hna Hlt. rewrite execute_run, Hst. cbn [State_eqb].
  unfold shouldAttemptReset. rewrite Hna.
  destruct (Z.leb_spec t now); [lia|reflexivity].
Qed.

(** The failures that do open the breaker are the calls whose promise is
    rejected before the timer of the breaker fires, the only ones that
    reach [recordFailure]. A CLOSED breaker with no failure counted stays
    CLOSED while fewer than [failureThreshold] consecutive calls have been
    rejected in time and is OPEN after exactly [failureThreshold] of them;
    a following [execute] entered before [nextAttemptTime] throws
    [CircuitBreakerOpenError], does not call the wrapped function (it makes
    nothing visible), and changes the breaker only by counting the request
    in [totalRequests]. *)
Lemma rejected_calls_open_at_threshold
    (b : CircuitBreaker) (calls : list (Z * CallBehaviour)) :
  state b = CLOSED ->
  failures b = 0 ->
  0 < failureThreshold b ->
  Z.of_nat (length calls) = failureThreshold b ->
  Forall (fun c => rejectsInTime b (snd c) = true) calls ->
  (forall k, (k < length calls)%nat ->
     state (executeAll (firstn k calls) b) = CLOSED) /\
  state (executeAll calls b) = OPEN /\
  exists t,
    nextAttemptTime (executeAll calls b) = Some t /\
    forall now call, now < t ->
      let r := execute now call (executeAll calls b) in
      outcomeOf r =
        Throw (CircuitBreakerOpenError (openMessage (executeAll calls b))) /\
      eventsOf r = [] /\
      breakerOf r = countRequest (executeAll calls b) /\
      totalRequests (metrics (breakerOf r)) =
        totalRequests (metrics (executeAll calls b)) + 1.
Proof.
  intros Hst Hf0 Hpos Hlen Hall.
  split.
  { intros k Hk.
    apply (executeAll_below_threshold (firstn k calls) b Hst).
    - now apply Forall_take.
    - rewrite length_take. lia. }
  destruct (exists_last (l := calls)) as (init & [now call] & ->).
  { intros ->. cbn in Hlen. lia. }
  rewrite length_app in Hlen. cbn in Hlen.
  apply Forall_app in Hall as [Hinit Hlast].
  inversion Hlast as [|c cs Hc _]; subst. cbn in Hc.
  destruct (executeAll_below_threshold init b Hst Hinit) as [Hst1 Hf1]; [lia|].
  pose proof (sameSettings_executeAll init b) as Hsame.
  rewrite executeAll_app. cbn [executeAll].
  set (b1 := executeAll init b) in *.
  rewrite <- (rejectsInTime_sameSettings b b1 call Hsame) in Hc.
  destruct (execute_failure_closed now call b1 Hst1 Hc) as (t & _ & _ & _ & Hopen).
  destruct Hsame as (_&Hthr&_).
  destruct Hopen as [Hst2 Hna]; [lia|].
  split; [exact Hst2|].
  eexists. split; [exact Hna|].
  intros now' call' Hlt. cbv zeta.
  rewrite (execute_open_rejects now' call' _ _ Hst2 Hna Hlt).
  cbn [outcomeOf breakerOf eventsOf fst snd].
  repeat split. apply totalRequests_countRequest.
Qed.

Lemma rejected_calls_open_at_threshold_witness :
  state (executeAll [(10, Rejects econnrefused 5); (20, Rejects econnrefused 7)]
           twoFailuresBreaker) = OPEN.
Proof.
  apply (rejected_calls_open_at_threshold twoFailuresBreaker
           [(10, Rejects econnrefused 5); (20, Rejects econnrefused 7)]).
  - reflexivity.
  - reflexivity.
  - reflexivity.
  - reflexivity.
  - repeat constructor.
Defined.

(** *** Calls that outlast the timer *)

(** A call that has not settled when the timer fires makes [execute] throw
    from its [catch] block; the breaker is left as it was after counting
    the request: [recordFailure] has not run. *)
Lemma execute_timesOut now call b :
  state b <> OPEN ->
  timesOut b call = true ->
  execute now call b =
  (Throw (rethrown b (CircuitBreakerTimeoutError (timeoutMessage b))),
   countRequest b,
   EvCall :: catchEvents b (CircuitBreakerTimeoutError (timeoutMessage b))).
Proof.
  intros Hst Hto. rewrite execute_run, (State_eqb_neq _ _ Hst).
  rewrite guardedCall_run, executeWithTimeout_timesOut
    by (break_breaker b; exact Hto).
  break_breaker b. reflexivity.
Qed.

Lemma timesOut_sameSettings b b' call :
  sameSettings b b' -> timesOut b' call = timesOut b call.
Proof.
  intros (_&_&Ht&_). destruct call; cbn; try reflexivity; now rewrite Ht.
Qed.

(** No number of consecutive timeouts opens a CLOSED breaker or moves its
    failure counters. *)
Lemma executeAll_timeouts_stay_closed calls b :
  state b = CLOSED ->
  Forall (fun c => timesOut b (snd c) = true) calls ->
  state (executeAll calls b) = CLOSED /\
  failures (executeAll calls b) = failures b /\
  failedRequests (metrics (executeAll calls b)) = failedRequests (metrics b).
Proof.
  revert b. induction calls as [|[now call] calls IH]; intros b Hst Hall.
  - now cbn.
  - cbn [executeAll]. inversion Hall as [|c cs Hc Hcs]; subst. cbn in Hc.
    rewrite execute_timesOut by (congruence || assumption).
    cbn [breakerOf fst snd].
    destruct (IH (countRequest b)) as (H1 & H2 & H3).
    + now rewrite state_countRequest.
    + eapply Forall_impl; [exact Hcs|]. intros c Hcr. cbn beta in *.
      rewrite (timesOut_sameSettings b (countRequest b)); [exact Hcr|].
      apply sameSettings_countRequest.
    + now rewrite H1, H2, H3, failures_countRequest,
        failedRequests_countRequest.
Qed.

(** A call that is fulfilled after the timer has fired: [execute] has
    failed with the timeout and counted nothing, and the handler that runs
    when the call settles records a success. *)
Example slow_success_is_recorded_as_success :
  let r := execute 1000 (Resolves ok200 6000) usuariosBreaker in
  let late := lateSettlement 1000 (Resolves ok200 6000) (breakerOf r) in
  outcomeOf r =
    Throw (CircuitBreakerTimeoutError
             "Circuit Breaker 'usuarios' timeout after 5000ms") /\
  failures (breakerOf r) = 0 /\
  failedRequests (metrics (breakerOf r)) = 0 /\
  successes (breakerOf late) = 1 /\
  successfulRequests (metrics (breakerOf late)) = 1 /\
  failedRequests (metrics (breakerOf late)) = 0.
Proof. vm_compute. repeat split. Qed.

(** C2, at the failing input: the gateway's breaker for [usuarios], CLOSED
    with no failure counted, wraps a call that never settles. [execute]
    fails with [CircuitBreakerTimeoutError], but neither [failures] nor
    [failedRequests] has moved, and nothing is left to run later that would
    count the timeout. *)
Theorem C2_timeout_is_not_counted :
  let r := execute 1000 NeverSettles usuariosBreaker in
  outcomeOf r =
    Throw (CircuitBreakerTimeoutError
             "Circuit Breaker 'usuarios' timeout after 5000ms") /\
  state usuariosBreaker = CLOSED /\
  failures usuariosBreaker = 0 /\
  failures (breakerOf r) = 0 /\
  failedRequests (metrics (breakerOf r)) = 0 /\
  state (breakerOf r) = CLOSED /\
  lateSettlement 1000 NeverSettles (breakerOf r) = (Normal tt, breakerOf r, []) /\
  state (executeAll (repeat (1000, NeverSettles) 5) usuariosBreaker) = CLOSED.
Proof. vm_compute. repeat split. Qed.

(** *** The trial call of a breaker that is due for a reset *)

Lemma quietHook_sameSettings b b' :
  sameSettings b b' -> quietHook b -> quietHook b'.
Proof.
  intros (_&_&_&_&_&Hh&_) Hq o n. unfold notifyOutcome.
  rewrite Hh. apply Hq.
Qed.

Lemma setState_quiet now s b :
  quietHook b ->
  setState now s b =
  (Normal tt, (if State_eqb (state b) s then b else transition now s b),
   if State_eqb (state b) s then [] else notifyEvents b (state b) s).
Proof.
  intros Hq. rewrite setState_run.
  destruct (State_eqb (state b) s); [reflexivity|]. now rewrite Hq.
Qed.

(** The gate of [execute] for an OPEN breaker whose time has come: the
    breaker is HALF_OPEN when the wrapped call is made. *)
Lemma execute_due now call b t :
  state b = OPEN ->
  nextAttemptTime b = Some t ->
  t <= now ->
  quietHook b ->
  execute now call b =
  let r := guardedCall now call (transition now HALF_OPEN (countRequest b)) in
  (outcomeOf r, breakerOf r, notifyEvents b OPEN HALF_OPEN ++ eventsOf r).
Proof.
  intros Hst Hna Hle Hq. rewrite execute_run, Hst. cbn [State_eqb].
  unfold shouldAttemptReset. rewrite Hna.
  destruct (Z.leb_spec t now); [|lia].
  rewrite bind_run, setState_quiet
    by (eapply quietHook_sameSettings; [apply sameSettings_countRequest|exact Hq]).
  break_breaker b. cbn in Hst. subst st. reflexivity.
Qed.

(** The wrapped function is called exactly once by the [try] statement,
    whatever happens, and by nothing else. *)
Lemma callsMade_app l1 l2 : callsMade (l1 ++ l2) = (callsMade l1 + callsMade l2)%nat.
Proof. unfold callsMade. now rewrite filter_app, length_app. Qed.

Lemma callsMade_notifyEvents b o n : callsMade (notifyEvents b o n) = 0%nat.
Proof. unfold notifyEvents. now destruct (onStateChange b). Qed.

Lemma callsMade_catchEvents b e : callsMade (catchEvents b e) = 0%nat.
Proof. unfold catchEvents. now destruct (onFailure b). Qed.

Lemma callsMade_setState now s b : callsMade (eventsOf (setState now s b)) = 0%nat.
Proof.
  rewrite setState_run. destruct (State_eqb (state b) s); [reflexivity|].
  apply callsMade_notifyEvents.
Qed.

Lemma callsMade_recordSuccess now b :
  callsMade (eventsOf (recordSuccess now b)) = 0%nat.
Proof.
  rewrite recordSuccess_run. destruct (State_eqb (state b) HALF_OPEN);
    [apply callsMade_setState|reflexivity].
Qed.

Lemma callsMade_recordFailure now b :
  callsMade (eventsOf (recordFailure now b)) = 0%nat.
Proof.
  rewrite recordFailure_run. destruct (_ <=? _);
    [apply callsMade_setState|reflexivity].
Qed.

Lemma callsMade_callOnSuccess result b :
  callsMade (eventsOf (callOnSuccess result b)) = 0%nat.
Proof. rewrite callOnSuccess_run. now destruct (onSuccess b). Qed.

Lemma callsMade_executeWithTimeout now call b :
  callsMade (eventsOf (executeWithTimeout now call b)) = 1%nat.
Proof.
  destruct (timesOut b call) eqn:Hto.
  { now rewrite executeWithTimeout_timesOut. }
  destruct call as [result dt|error dt| |error]; cbn in Hto;
    try discriminate; try apply Z.leb_gt in Hto.
  - rewrite executeWithTimeout_resolves by assumption. cbv zeta.
    pose proof (callsMade_recordSuccess (now + dt) b) as H1.
    destruct (outcomeOf (recordSuccess (now + dt) b));
      cbn [eventsOf snd];
      change (EvCall :: ?l) with ([EvCall] ++ l);
      rewrite ?callsMade_app, ?H1, ?callsMade_recordFailure; reflexivity.
  - rewrite executeWithTimeout_rejects by assumption. cbv zeta.
    cbn [eventsOf snd]. change (EvCall :: ?l) with ([EvCall] ++ l).
    now rewrite callsMade_app, callsMade_recordFailure.
  - reflexivity.
Qed.

Lemma callsMade_guardedCall now call b :
  callsMade (eventsOf (guardedCall now call b)) = 1%nat.
Proof.
  rewrite guardedCall_run. cbv zeta.
  pose proof (callsMade_executeWithTimeout now call b) as H1.
  destruct (outcomeOf (executeWithTimeout now call b)) as [result|e|].
  - pose proof (callsMade_callOnSuccess result
                  (breakerOf (executeWithTimeout now call b))) as H2.
    destruct (outcomeOf (callOnSuccess result _)); cbn [eventsOf snd];
      rewrite ?callsMade_app, ?callsMade_catchEvents, H1, H2; reflexivity.
  - cbn [eventsOf snd]. now rewrite callsMade_app, callsMade_catchEvents, H1.
  - exact H1.
Qed.

(** The trial succeeds: the breaker closes with its failure count at 0,
    and the wrapped function has been called once. *)
Lemma trial_success_closes now result dt b t :
  state b = OPEN ->
  nextAttemptTime b = Some t ->
  t <= now ->
  quietHook b ->
  dt < timerDelay (timeout b) ->
  let r := execute now (Resolves result dt) b in
  state (breakerOf r) = CLOSED /\
  failures (breakerOf r) = 0 /\
  nextAttemptTime (breakerOf r) = None /\
  callsMade (eventsOf r) = 1%nat.
Proof.
  intros Hst Hna Hle Hq Hdt. cbv zeta.
  rewrite (execute_due now _ b t) by assumption.
  cbn [breakerOf eventsOf fst snd].
  rewrite callsMade_app, callsMade_notifyEvents, callsMade_guardedCall.
  fold (breakerOf (guardedCall now (Resolves result dt)
                     (transition now HALF_OPEN (countRequest b)))).
  assert (Hq' : quietHook (successCounted (now + dt)
                   (transition now HALF_OPEN (countRequest b))))
    by (eapply quietHook_sameSettings; [|exact Hq]; auto with settings).
  rewrite breakerOf_guardedCall, breakerOf_executeWithTimeout_resolves
    by (break_breaker b; destruct me; exact Hdt).
  rewrite recordSuccess_run.
  replace (state (transition now HALF_OPEN (countRequest b))) with HALF_OPEN
    by (break_breaker b; now destruct me).
  cbn [State_eqb]. rewrite (setState_quiet _ _ _ Hq').
  cbn [outcomeOf breakerOf fst snd].
  break_breaker b. destruct me. cbn. repeat split.
Qed.

(** The trial fails with the failure count at the threshold or one below:
    the breaker opens again, [resetTimeout] after the failure. *)
Lemma trial_failure_reopens now error dt b t :
  state b = OPEN ->
  nextAttemptTime b = Some t ->
  t <= now ->
  quietHook b ->
  dt < timerDelay (timeout b) ->
  failureThreshold b <= failures b + 1 ->
  let r := execute now (Rejects error dt) b in
  state (breakerOf r) = OPEN /\
  nextAttemptTime (breakerOf r) = Some (now + dt + resetTimeout b) /\
  callsMade (eventsOf r) = 1%nat.
Proof.
  intros Hst Hna Hle Hq Hdt Hthr. cbv zeta.
  rewrite (execute_due now _ b t) by assumption.
  cbn [breakerOf eventsOf fst snd].
  rewrite callsMade_app, callsMade_notifyEvents, callsMade_guardedCall.
  fold (breakerOf (guardedCall now (Rejects error dt)
                     (transition now HALF_OPEN (countRequest b)))).
  rewrite breakerOf_guardedCall, breakerOf_executeWithTimeout_rejects
    by (break_breaker b; destruct me; exact Hdt).
  rewrite breakerOf_recordFailure, breakerOf_setState.
  break_breaker b. destruct me. cbn in *.
  destruct (Z.leb_spec thr (fl + 1)); [|lia].
  cbn. repeat split.
Qed.

(** The trial fails with the failure count further below the threshold, as
    after [forceOpen()]: the breaker stays HALF_OPEN. *)
Lemma trial_failure_below_threshold now error dt b t :
  state b = OPEN ->
  nextAttemptTime b = Some t ->
  t <= now ->
  quietHook b ->
  dt < timerDelay (timeout b) ->
  failures b + 1 < failureThreshold b ->
  let r := execute now (Rejects error dt) b in
  state (breakerOf r) = HALF_OPEN /\
  nextAttemptTime (breakerOf r) = None.
Proof.
  intros Hst Hna Hle Hq Hdt Hthr. cbv zeta.
  rewrite (execute_due now _ b t) by assumption.
  cbn [breakerOf eventsOf fst snd].
  fold (breakerOf (guardedCall now (Rejects error dt)
                     (transition now HALF_OPEN (countRequest b)))).
  rewrite breakerOf_guardedCall, breakerOf_executeWithTimeout_rejects
    by (break_breaker b; destruct me; exact Hdt).
  rewrite breakerOf_recordFailure.
  break_breaker b. destruct me. cbn in *.
  destruct (Z.leb_spec thr (fl + 1)); [lia|].
  cbn. repeat split.
Qed.

(** A breaker opened by the threshold has its failure count at the
    threshold or above, so its trial call decides as documented. *)
Lemma tripped_failures_at_threshold now call b :
  state b = CLOSED ->
  rejectsInTime b call = true ->
  state (breakerOf (execute now call b)) = OPEN ->
  failureThreshold (breakerOf (execute now call b))
    <= failures (breakerOf (execute now call b)).
Proof.
  intros Hst Hrej Hopen.
  destruct (execute_failure_closed now call b Hst Hrej) as (t & Hf & _ & Hc & _).
  destruct (sameSettings_execute now call b) as (_&Hthr&_).
  cbv zeta in *. rewrite Hthr, Hf.
  destruct (Z.lt_ge_cases (failures b + 1) (failureThreshold b)) as [Hlt|Hge];
    [|lia].
  rewrite (Hc Hlt) in Hopen. discriminate.
Qed.

(** The breaker of the gateway opened by five refused calls: it is due at
    30502, and a failed trial at 31000 opens it again until 61002. *)
Example tripped_breaker_reopens_after_failed_trial :
  let r := execute 31000 (Rejects econnrefused 2) trippedBreaker in
  state trippedBreaker = OPEN /\
  failures trippedBreaker = 5 /\
  nextAttemptTime trippedBreaker = Some 30502 /\
  state (breakerOf r) = OPEN /\
  nextAttemptTime (breakerOf r) = Some 61002.
Proof. vm_compute. repeat split. Qed.

(** C3, at the failing input: the gateway's breaker for [usuarios] (threshold
    5) is opened by [forceOpen()] at clock reading 1000 and is due for a
    reset at 31000. The [execute] entered then moves it to HALF_OPEN and
    makes the one trial call; the call is refused, and the breaker is left
    HALF_OPEN with [nextAttemptTime] cleared, where the property has it OPEN
    again with [nextAttemptTime] at 31002 + 30000. *)
Theorem C3_failed_trial_leaves_half_open :
  let r := execute 31000 (Rejects econnrefused 2) forcedOpenBreaker in
  state forcedOpenBreaker = OPEN /\
  nextAttemptTime forcedOpenBreaker = Some 31000 /\
  callsMade (eventsOf r) = 1%nat /\
  outcomeOf r = Throw econnrefused /\
  failures (breakerOf r) = 1 /\
  state (breakerOf r) = HALF_OPEN /\
  nextAttemptTime (breakerOf r) = None.
Proof. vm_compute. repeat split. Qed.

(** *** Failed calls that open nothing *)

(** C1, at the failing input: the gateway's breaker for [usuarios], CLOSED
    with no failure counted and a [failureThreshold] of 5, and five
    consecutive calls of [execute] whose wrapped call never settles, each
    entered after the one before has failed. Every one of the five fails,
    with [CircuitBreakerTimeoutError], and yet the breaker is CLOSED after
    them, with no failure counted and no [nextAttemptTime]: only
    [totalRequests] has moved. An [execute] that follows is not refused,
    whenever it is entered and whatever it wraps: the wrapped function is
    called, and a call that is answered returns its answer. *)
Theorem C1_timed_out_calls_do_not_open :
  let calls := [(1000, NeverSettles); (7000, NeverSettles);
                (13000, NeverSettles); (19000, NeverSettles);
                (25000, NeverSettles)] in
  let b5 := executeAll calls usuariosBreaker in
  (state usuariosBreaker = CLOSED /\
   failures usuariosBreaker = 0 /\
   failureThreshold usuariosBreaker = Z.of_nat (length calls)) /\
  (forall k, (k < length calls)%nat ->
     nth_error calls k = Some (1000 + 6000 * Z.of_nat k, NeverSettles) /\
     outcomeOf (execute (1000 + 6000 * Z.of_nat k) NeverSettles
                  (executeAll (firstn k calls) usuariosBreaker)) =
     Throw (CircuitBreakerTimeoutError
              "Circuit Breaker 'usuarios' timeout after 5000ms")) /\
  state b5 = CLOSED /\
  failures b5 = 0 /\
  failedRequests (metrics b5) = 0 /\
  nextAttemptTime b5 = None /\
  totalRequests (metrics b5) = 5 /\
  (forall now call, callsMade (eventsOf (execute now call b5)) = 1%nat) /\
  execute 31000 (Resolves ok200 3) b5 =
    (Normal ok200,
     breakerOf (recordSuccess 31003 (countRequest b5)),
     [EvCall; EvOnSuccess ok200]).
Proof.
  cbv zeta. split; [|split; [|repeat split]]; try (vm_compute; reflexivity).
  - vm_compute. repeat split.
  - intros k Hk.
    do 5 (destruct k as [|k]; [vm_compute; split; reflexivity|]).
    cbn in Hk. lia.
  - intros now call. rewrite execute_run.
    change (state _) with CLOSED. cbn [State_eqb].
    apply callsMade_guardedCall.
Qed.

(** *** Reset *)

Lemma reset_run now b : reset now b = setState now CLOSED (cleared b).
Proof. unfold reset, cleared. now rewrite !bind_assign. Qed.

(** C8. Whatever the state and the counters of the breaker, [reset()] leaves
    it CLOSED with [failures] at 0 and [nextAttemptTime] (and the other
    counters and timestamps that [reset] clears) empty; a second [reset()]
    right after returns normally, makes nothing visible and leaves the
    breaker exactly as the first one left it: state, counters, timestamps
    and metrics, [lastStateChange] included. *)
Theorem C8_reset_closes_and_is_idempotent (b : CircuitBreaker) (t1 t2 : Z) :
  let b1 := breakerOf (reset t1 b) in
  state b1 = CLOSED /\
  failures b1 = 0 /\
  nextAttemptTime b1 = None /\
  successes b1 = 0 /\
  lastFailureTime b1 = None /\
  lastSuccessTime b1 = None /\
  reset t2 b1 = (Normal tt, b1, []) /\
  getState (breakerOf (reset t2 b1)) = getState b1.
Proof.
  cbv zeta. rewrite (reset_run t1), (reset_run t2), breakerOf_setState.
  set (b1 := if State_eqb (state (cleared b)) CLOSED
             then cleared b else transition t1 CLOSED (cleared b)).
  assert (H : state b1 = CLOSED /\ failures b1 = 0 /\
              nextAttemptTime b1 = None /\ successes b1 = 0 /\
              lastFailureTime b1 = None /\ lastSuccessTime b1 = None).
  { subst b1. break_breaker b. destruct me. destruct st; cbn; repeat split. }
  destruct H as (H1 & H2 & H3 & H4 & H5 & H6).
  assert (H : setState t2 CLOSED (cleared b1) = (Normal tt, b1, [])).
  { rewrite setState_run. clearbody b1.
    break_breaker b1. cbn in *. subst. reflexivity. }
  rewrite H. repeat split; assumption.
Qed.

(** *** Calls that are let through *)

Lemma recordSuccess_quiet now b :
  quietHook b ->
  recordSuccess now b =
  (Normal tt,
   (if State_eqb (state b) HALF_OPEN
    then transition now CLOSED (successCounted now b)
    else successCounted now b),
   if State_eqb (state b) HALF_OPEN
   then notifyEvents b HALF_OPEN CLOSED else []).
Proof.
  intros Hq. rewrite recordSuccess_run.
  destruct (State_eqb_spec (state b) HALF_OPEN) as [Hst|Hst]; [|reflexivity].
  rewrite setState_quiet
    by (eapply quietHook_sameSettings;
        [apply sameSettings_successCounted|exact Hq]).
  break_breaker b. cbn in Hst. subst st. reflexivity.
Qed.

(** The gate of [execute] when it lets the call through and the observer of
    state changes does not throw: the wrapped call is made on a breaker that
    has counted the request and, if it was OPEN, has become HALF_OPEN. *)
Lemma execute_let_through now call b :
  quietHook b ->
  letsThrough now b = true ->
  execute now call b =
  let b0 := if State_eqb (state b) OPEN
            then transition now HALF_OPEN (countRequest b)
            else countRequest b in
  (outcomeOf (guardedCall now call b0),
   breakerOf (guardedCall now call b0),
   (if State_eqb (state b) OPEN then notifyEvents b OPEN HALF_OPEN else [])
     ++ eventsOf (guardedCall now call b0)).
Proof.
  intros Hq Hlet. unfold letsThrough in Hlet. rewrite execute_run. cbv zeta.
  destruct (State_eqb_spec (state b) OPEN) as [Hst|Hst].
  - cbn in Hlet. rewrite Hlet.
    rewrite bind_run, setState_quiet
      by (eapply quietHook_sameSettings;
          [apply sameSettings_countRequest|exact Hq]).
    rewrite state_countRequest, Hst.
    break_breaker b. reflexivity.
  - cbn [app]. apply run_eta.
Qed.

(** A call fulfilled in time on a breaker without [onSuccess] and
    [onFailure]: the success is recorded and the [try] statement throws the
    TypeError of its [catch] block. *)
Lemma guardedCall_without_callbacks now result dt b :
  onSuccess b = None ->
  onFailure b = None ->
  quietHook b ->
  dt < timerDelay (timeout b) ->
  guardedCall now (Resolves result dt) b =
  (Throw (TypeError "this.onFailure is not a function"),
   (if State_eqb (state b) HALF_OPEN
    then transition (now + dt) CLOSED (successCounted (now + dt) b)
    else successCounted (now + dt) b),
   (EvCall :: (if State_eqb (state b) HALF_OPEN
               then notifyEvents b HALF_OPEN CLOSED else [])) ++ []).
Proof.
  intros Hs Hf Hq Hdt.
  rewrite guardedCall_run, executeWithTimeout_resolves by exact Hdt.
  rewrite (recordSuccess_quiet _ _ Hq).
  cbn [outcomeOf breakerOf eventsOf fst snd].
  set (b1 := if State_eqb (state b) HALF_OPEN
             then transition (now + dt) CLOSED (successCounted (now + dt) b)
             else successCounted (now + dt) b).
  assert (Hsame : sameSettings b b1)
    by (subst b1; destruct (State_eqb (state b) HALF_OPEN);
        auto with settings).
  destruct Hsame as (_&_&_&_&_&_&Hf1&Hs1).
  rewrite callOnSuccess_run, Hs1, Hs.
  cbn [outcomeOf breakerOf eventsOf fst snd].
  unfold rethrown, catchEvents. rewrite Hf1, Hf.
  now rewrite !app_nil_r.
Qed.

Lemma recordFailure_quiet now b :
  quietHook b -> outcomeOf (recordFailure now b) = Normal tt.
Proof.
  intros Hq. rewrite recordFailure_run.
  destruct (failureThreshold b <=? failures b + 1); [|reflexivity].
  rewrite setState_quiet; [reflexivity|].
  eapply quietHook_sameSettings; [|exact Hq]. auto with settings.
Qed.

(** With an observer that does not throw, the promise of
    [executeWithTimeout] always settles. *)
Lemma executeWithTimeout_settles now call b :
  quietHook b -> outcomeOf (executeWithTimeout now call b) <> Pending.
Proof.
  intros Hq.
  destruct (timesOut b call) eqn:Hto.
  { now rewrite executeWithTimeout_timesOut. }
  destruct call as [result dt|error dt| |error]; cbn in Hto;
    try discriminate Hto; try apply Z.leb_gt in Hto.
  - rewrite executeWithTimeout_resolves by assumption.
    now rewrite (recordSuccess_quiet _ _ Hq).
  - rewrite executeWithTimeout_rejects by assumption. cbv zeta.
    now rewrite outcomeOf_run, (recordFailure_quiet _ _ Hq).
  - now rewrite executeWithTimeout_throwsSync.
Qed.

(** A breaker without [onSuccess] and [onFailure] cannot return from the
    [try] statement of [execute]: however the wrapped call ends, the
    statement throws the TypeError of its [catch] block. *)
Lemma guardedCall_without_callbacks_throws now call b :
  onSuccess b = None ->
  onFailure b = None ->
  quietHook b ->
  outcomeOf (guardedCall now call b)
  = Throw (TypeError "this.onFailure is not a function").
Proof.
  intros Hs Hf Hq. rewrite guardedCall_run. cbv zeta.
  pose proof (executeWithTimeout_settles now call b Hq) as Hsettles.
  destruct (sameSettings_executeWithTimeout now call b)
    as (_&_&_&_&_&_&Hf1&Hs1).
  destruct (outcomeOf (executeWithTimeout now call b)) as [result|e|];
    [| |congruence].
  - rewrite callOnSuccess_run, Hs1, Hs, !outcomeOf_run.
    unfold rethrown. now rewrite Hf1, Hf.
  - rewrite outcomeOf_run. unfold rethrown. now rewrite Hf1, Hf.
Qed.

Lemma execute_without_callbacks_throws now call b :
  onSuccess b = None ->
  onFailure b = None ->
  quietHook b ->
  letsThrough now b = true ->
  outcomeOf (execute now call b)
  = Throw (TypeError "this.onFailure is not a function") /\
  callsMade (eventsOf (execute now call b)) = 1%nat.
Proof.
  intros Hs Hf Hq Hlet.
  rewrite (execute_let_through now _ b Hq Hlet). cbv zeta.
  set (b0 := if State_eqb (state b) OPEN
             then transition now HALF_OPEN (countRequest b)
             else countRequest b).
  assert (Hsame : sameSettings b b0)
    by (subst b0; destruct (State_eqb (state b) OPEN); auto with settings).
  pose proof (quietHook_sameSettings b b0 Hsame Hq) as Hq0.
  destruct Hsame as (_&_&_&_&_&_&Hf1&Hs1).
  rewrite <- Hf1 in Hf. rewrite <- Hs1 in Hs.
  rewrite outcomeOf_run, eventsOf_run.
  split.
  - now apply guardedCall_without_callbacks_throws.
  - rewrite callsMade_app, callsMade_guardedCall.
    destruct (State_eqb (state b) OPEN);
      [now rewrite callsMade_notifyEvents|reflexivity].
Qed.

(** C9. A breaker without [onSuccess] and [onFailure] callbacks, as the
    constructor builds it from default options, lets a call through whose
    promise is fulfilled in time. [execute] then throws a TypeError instead
    of returning the result: the call [this.onSuccess(result)] of [null]
    throws inside the [try], and so does [this.onFailure(error)] in the
    [catch]. The wrapped function was called once and its success is
    already recorded: [successes] and [successfulRequests] are one higher,
    [failures] is 0, and no failure is counted. *)
Theorem C9_default_breaker_throws_on_success
    (b : CircuitBreaker) (now dt : Z) (result : AxiosResponse) :
  onSuccess b = None ->
  onFailure b = None ->
  quietHook b ->
  letsThrough now b = true ->
  dt < timerDelay (timeout b) ->
  let r := execute now (Resolves result dt) b in
  outcomeOf r = Throw (TypeError "this.onFailure is not a function") /\
  outcomeOf r <> Normal result /\
  callsMade (eventsOf r) = 1%nat /\
  successes (breakerOf r) = successes b + 1 /\
  successfulRequests (metrics (breakerOf r))
    = successfulRequests (metrics b) + 1 /\
  totalRequests (metrics (breakerOf r)) = totalRequests (metrics b) + 1 /\
  failedRequests (metrics (breakerOf r)) = failedRequests (metrics b) /\
  failures (breakerOf r) = 0 /\
  lastSuccessTime (breakerOf r) = Some (now + dt).
Proof.
  intros Hs Hf Hq Hlet Hdt. cbv zeta.
  rewrite (execute_let_through now _ b Hq Hlet). cbv zeta.
  set (b0 := if State_eqb (state b) OPEN
             then transition now HALF_OPEN (countRequest b)
             else countRequest b).
  assert (Hsame : sameSettings b b0)
    by (subst b0; destruct (State_eqb (state b) OPEN); auto with settings).
  pose proof (callsMade_guardedCall now (Resolves result dt) b0) as Hcalls.
  pose proof (quietHook_sameSettings b b0 Hsame Hq) as Hq0.
  destruct Hsame as (_&_&Ht&_&_&_&Hf1&Hs1).
  rewrite <- Ht in Hdt. rewrite <- Hf1 in Hf. rewrite <- Hs1 in Hs.
  rewrite (guardedCall_without_callbacks now result dt b0 Hs Hf Hq0 Hdt) in *.
  unfold outcomeOf, breakerOf, eventsOf in *. cbn [fst snd] in *.
  split; [reflexivity|]. split; [discriminate|].
  split.
  { rewrite callsMade_app, Hcalls.
    destruct (State_eqb (state b) OPEN);
      [now rewrite callsMade_notifyEvents|reflexivity]. }
  subst b0. clear.
  break_breaker b. destruct me.
  destruct st; cbn; repeat split.
Qed.

Lemma C9_default_breaker_throws_on_success_witness :
  outcomeOf (execute 10 (Resolves ok200 3) (newCircuitBreaker 0 noOptions))
    = Throw (TypeError "this.onFailure is not a function").
Proof.
  apply (C9_default_breaker_throws_on_success
           (newCircuitBreaker 0 noOptions) 10 3 ok200).
  - reflexivity.
  - reflexivity.
  - intros o n. reflexivity.
  - reflexivity.
  - reflexivity.
Defined.

(** *** The observer of state changes *)

Lemma replay_app s l1 l2 :
  replay s (l1 ++ l2) =
  match replay s l1 with
  | Some s1 => replay s1 l2
  | None => None
  end.
Proof.
  revert s. induction l1 as [|ev l1 IH]; intros s; cbn; [reflexivity|].
  destruct ev; try apply IH.
  destruct (State_eqb oldState s && negb (State_eqb oldState newState));
    [apply IH|reflexivity].
Qed.

Lemma replay_catchEvents s b e : replay s (catchEvents b e) = Some s.
Proof. unfold catchEvents. now destruct (onFailure b). Qed.

Lemma replay_callOnSuccess s result b :
  replay s (eventsOf (callOnSuccess result b)) = Some s.
Proof. rewrite callOnSuccess_run. now destruct (onSuccess b). Qed.

Lemma reportsChanges_refl {A} (o : Outcome A) b : reportsChanges b (o, b, []).
Proof. now split. Qed.

(** Two runs one after the other. *)
Lemma reportsChanges_seq {A B} b
    (r1 : Outcome A * CircuitBreaker * list Event)
    (r2 : Outcome B * CircuitBreaker * list Event) (o : Outcome B) :
  reportsChanges b r1 ->
  reportsChanges (breakerOf r1) r2 ->
  reportsChanges b (o, breakerOf r2, eventsOf r1 ++ eventsOf r2).
Proof.
  intros [H1 H1'] [H2 H2']. split; cbn [eventsOf breakerOf fst snd].
  - now rewrite replay_app, H1.
  - congruence.
Qed.

Lemma reportsChanges_setState now s b :
  observed b -> reportsChanges b (setState now s b).
Proof.
  intros Hobs. rewrite setState_run.
  destruct (State_eqb_spec (state b) s) as [Hst|Hst].
  - apply reportsChanges_refl.
  - split; cbn [eventsOf breakerOf fst snd].
    + unfold notifyEvents, observed in *.
      destruct (onStateChange b); [|congruence]. cbn.
      rewrite State_eqb_refl, (State_eqb_neq _ _ Hst). cbn.
      break_breaker b. destruct me. now destruct s.
    + apply sameSettings_transition.
Qed.

Lemma reportsChanges_recordSuccess now b :
  observed b -> reportsChanges b (recordSuccess now b).
Proof.
  intros Hobs. rewrite recordSuccess_run.
  assert (H : reportsChanges b (Normal tt, successCounted now b, [])).
  { split; cbn [eventsOf breakerOf fst snd replay]; now break_breaker b. }
  destruct (State_eqb (state b) HALF_OPEN); [|exact H].
  rewrite (run_eta (setState _ _ _)).
  change (eventsOf (setState now CLOSED (successCounted now b)))
    with ([] ++ eventsOf (setState now CLOSED (successCounted now b))).
  eapply (reportsChanges_seq b (Normal tt, successCounted now b, [])).
  - exact H.
  - apply reportsChanges_setState. unfold observed in *. now break_breaker b.
Qed.

Lemma reportsChanges_recordFailure now b :
  observed b -> reportsChanges b (recordFailure now b).
Proof.
  intros Hobs. rewrite recordFailure_run.
  assert (H : reportsChanges b (Normal tt, failureCounted now b, [])).
  { split; cbn [eventsOf breakerOf fst snd replay]; now break_breaker b. }
  destruct (failureThreshold b <=? failures b + 1); [|exact H].
  rewrite (run_eta (setState _ _ _)).
  change (eventsOf (setState now OPEN (failureCounted now b)))
    with ([] ++ eventsOf (setState now OPEN (failureCounted now b))).
  eapply (reportsChanges_seq b (Normal tt, failureCounted now b, [])).
  - exact H.
  - apply reportsChanges_setState. unfold observed in *. now break_breaker b.
Qed.

Lemma observed_reportsChanges {A} b
    (r : Outcome A * CircuitBreaker * list Event) :
  observed b -> reportsChanges b r -> observed (breakerOf r).
Proof. intros Hobs [_ H]. unfold observed. now rewrite H. Qed.

(** The wrapped call itself is no state change. *)
Lemma reportsChanges_call {A B} b
    (r : Outcome A * CircuitBreaker * list Event) (o : Outcome B) :
  reportsChanges b r -> reportsChanges b (o, breakerOf r, EvCall :: eventsOf r).
Proof. intros [H1 H2]. now split. Qed.

Lemma reportsChanges_executeWithTimeout now call b :
  observed b -> reportsChanges b (executeWithTimeout now call b).
Proof.
  intros Hobs.
  destruct (timesOut b call) eqn:Hto.
  { rewrite executeWithTimeout_timesOut by assumption. now split. }
  destruct call as [result dt|error dt| |error]; cbn in Hto;
    try discriminate; try apply Z.leb_gt in Hto.
  - rewrite executeWithTimeout_resolves by assumption.
    pose proof (reportsChanges_recordSuccess (now + dt) b Hobs) as H1.
    pose proof (reportsChanges_recordFailure (now + dt)
                  (breakerOf (recordSuccess (now + dt) b))
                  (observed_reportsChanges _ _ Hobs H1)) as H2.
    cbv zeta.
    destruct (outcomeOf (recordSuccess (now + dt) b)); cbv beta iota.
    + now apply reportsChanges_call.
    + destruct H1 as [H1a H1b], H2 as [H2a H2b].
      split; cbn [eventsOf breakerOf fst snd replay].
      * now rewrite replay_app, H1a.
      * congruence.
    + now apply reportsChanges_call.
  - rewrite executeWithTimeout_rejects by assumption. cbv zeta.
    apply reportsChanges_call, reportsChanges_recordFailure, Hobs.
  - rewrite executeWithTimeout_throwsSync. now split.
Qed.

Lemma reportsChanges_guardedCall now call b :
  observed b -> reportsChanges b (guardedCall now call b).
Proof.
  intros Hobs. rewrite guardedCall_run.
  destruct (reportsChanges_executeWithTimeout now call b Hobs) as [H1 H2].
  set (r := executeWithTimeout now call b) in *. cbv zeta.
  destruct (outcomeOf r) as [result|e|] eqn:Ho; cbv beta iota.
  - destruct (outcomeOf (callOnSuccess result (breakerOf r)));
      split; cbn [eventsOf breakerOf fst snd]; try exact H2;
      rewrite ?replay_app, H1, ?replay_callOnSuccess, ?replay_catchEvents;
      reflexivity.
  - split; cbn [eventsOf breakerOf fst snd]; try exact H2.
    now rewrite replay_app, H1, replay_catchEvents.
  - now split.
Qed.

Lemma reportsChanges_execute now call b :
  observed b -> reportsChanges b (execute now call b).
Proof.
  intros Hobs. rewrite execute_run.
  assert (Hc : reportsChanges b (Normal tt, countRequest b, [])).
  { split; cbn [eventsOf breakerOf fst snd replay]; now break_breaker b. }
  assert (Hobs' : observed (countRequest b))
    by (unfold observed in *; now break_breaker b).
  assert (Hg : forall b', observed b' ->
            reportsChanges b (Normal tt, b', []) ->
            reportsChanges b (guardedCall now call b')).
  { intros b' Hb' Hr.
    pose proof (reportsChanges_seq b _ _
                  (outcomeOf (guardedCall now call b')) Hr
                  (reportsChanges_guardedCall now call b' Hb')) as H.
    cbn [eventsOf breakerOf fst snd app] in H.
    now rewrite <- run_eta in H. }
  destruct (State_eqb (state b) OPEN);
    [destruct (shouldAttemptReset now b)|].
  - rewrite bind_run.
    pose proof (reportsChanges_setState now HALF_OPEN (countRequest b) Hobs')
      as Hs.
    pose proof (reportsChanges_seq b _ _ (Normal tt) Hc Hs) as Hs'.
    cbn [eventsOf breakerOf fst snd app] in Hs'.
    destruct (outcomeOf (setState now HALF_OPEN (countRequest b))).
    + apply (reportsChanges_seq b _ _ _ Hs').
      apply reportsChanges_guardedCall.
      eapply observed_reportsChanges; eassumption.
    + destruct Hs' as [H1 H2]. now split.
    + destruct Hs' as [H1 H2]. now split.
  - destruct Hc as [H1 H2]. now split.
  - now apply Hg.
Qed.

Lemma reportsChanges_reset now b :
  observed b -> reportsChanges b (reset now b).
Proof.
  intros Hobs. rewrite reset_run.
  assert (H : reportsChanges b (Normal tt, cleared b, [])).
  { split; cbn [eventsOf breakerOf fst snd replay]; now break_breaker b. }
  pose proof (reportsChanges_seq b _ _
                (outcomeOf (setState now CLOSED (cleared b))) H
                (reportsChanges_setState now CLOSED (cleared b)
                   (observed_reportsChanges _ _ Hobs H))) as H'.
  cbn [eventsOf breakerOf fst snd app] in H'.
  now rewrite <- run_eta in H'.
Qed.

(** C4, as stated, fails: two breakers that differ only in whether their
    observer throws, both OPEN and due for a reset, are given the same call,
    which succeeds. With the silent observer [execute] returns the result
    and the breaker closes. With the throwing observer [execute] throws the
    observer's error, the wrapped function is never called, and the breaker
    is left HALF_OPEN. *)
Lemma C4_throwing_hook_changes_outcome_and_state :
  let quiet := trippedWith (fun _ _ => CbReturns) in
  let throwing := trippedWith (fun _ _ => CbThrows hookError) in
  getState throwing = getState quiet /\
  state quiet = OPEN /\
  nextAttemptTime quiet = Some 30502 /\
  outcomeOf (execute 31000 (Resolves ok200 3) quiet) = Normal ok200 /\
  state (breakerOf (execute 31000 (Resolves ok200 3) quiet)) = CLOSED /\
  outcomeOf (execute 31000 (Resolves ok200 3) throwing) = Throw hookError /\
  state (breakerOf (execute 31000 (Resolves ok200 3) throwing)) = HALF_OPEN /\
  callsMade (eventsOf (execute 31000 (Resolves ok200 3) throwing)) = 0%nat.
Proof. vm_compute. repeat split. Qed.

(** C4, amended. Every change of state goes through [setState], which
    writes the new state and its bookkeeping first and then calls the
    observer, if there is one, once with [(oldState, newState)]; without a
    change of state the observer is not called. The call is not guarded:
    what the observer throws is thrown by [setState], with the fields
    already written. So [reset] on a breaker that is not CLOSED ends as the
    observer ends, with the breaker CLOSED all the same, and [execute] on
    an OPEN breaker that is due for a reset rejects with what the observer
    throws on the change to HALF_OPEN, without calling the wrapped
    function. Whether or not the observer throws, the changes reported
    during an [execute] or a [reset], replayed from the state before, are
    consistent and end in the state after. *)
Theorem C4_observer_is_told_every_transition
    (b : CircuitBreaker) (hook : State -> State -> CallbackResult) (now : Z) :
  onStateChange b = Some hook ->
  (forall s, state b <> s ->
     setState now s b =
     (match hook (state b) s with
      | CbReturns => Normal tt
      | CbThrows e => Throw e
      end, transition now s b, [EvStateChange (state b) s])) /\
  (forall s, state b = s -> setState now s b = (Normal tt, b, [])) /\
  (forall call,
     replay (state b) (eventsOf (execute now call b))
     = Some (state (breakerOf (execute now call b)))) /\
  replay (state b) (eventsOf (reset now b))
  = Some (state (breakerOf (reset now b))) /\
  (state b <> CLOSED ->
     outcomeOf (reset now b) =
       match hook (state b) CLOSED with
       | CbReturns => Normal tt
       | CbThrows e => Throw e
       end /\
     state (breakerOf (reset now b)) = CLOSED) /\
  (forall call t e,
     state b = OPEN -> nextAttemptTime b = Some t -> t <= now ->
     hook OPEN HALF_OPEN = CbThrows e ->
     execute now call b =
     (Throw e, transition now HALF_OPEN (countRequest b),
      [EvStateChange OPEN HALF_OPEN])).
Proof.
  intros Hhook.
  assert (Hobs : observed b) by (unfold observed; congruence).
  split; [|split; [|split; [|split; [|split]]]].
  - intros s Hs. rewrite setState_run, (State_eqb_neq _ _ Hs).
    unfold notifyOutcome, notifyEvents. now rewrite Hhook.
  - intros s Hs. rewrite setState_run, Hs. now rewrite State_eqb_refl.
  - intros call. apply reportsChanges_execute, Hobs.
  - apply reportsChanges_reset, Hobs.
  - intros Hs. rewrite reset_run, setState_run.
    replace (state (cleared b)) with (state b) by now break_breaker b.
    rewrite (State_eqb_neq _ _ Hs), outcomeOf_run, breakerOf_run.
    unfold notifyOutcome.
    replace (onStateChange (cleared b)) with (onStateChange b)
      by now break_breaker b.
    rewrite Hhook. split; [reflexivity|]. break_breaker b. now destruct me.
  - intros call t e Hst Hna Hle He.
    rewrite execute_run, Hst. cbn [State_eqb].
    unfold shouldAttemptReset. rewrite Hna.
    destruct (Z.leb_spec t now); [|lia].
    rewrite bind_run, setState_run, state_countRequest, Hst.
    cbn [State_eqb]. rewrite outcomeOf_run, breakerOf_run, eventsOf_run.
    unfold notifyOutcome, notifyEvents.
    replace (onStateChange (countRequest b)) with (onStateChange b)
      by now break_breaker b.
    now rewrite Hhook, He.
Qed.

Lemma C4_observer_is_told_every_transition_witness :
  replay OPEN
    (eventsOf (execute 31000 (Resolves ok200 3)
                 (trippedWith (fun _ _ => CbThrows hookError))))
  = Some (state (breakerOf (execute 31000 (Resolves ok200 3)
                              (trippedWith (fun _ _ => CbThrows hookError))))).
Proof.
  apply (C4_observer_is_told_every_transition
           (trippedWith (fun _ _ => CbThrows hookError))
           (fun _ _ => CbThrows hookError) 31000).
  reflexivity.
Defined.

(** ** Retry *)

(** C5. A call that fails with an HTTP 500 response on its first two
    attempts and succeeds on the third: [makeRequestWithRetry] with
    [retries = 3] returns the success value after exactly 3 attempts, having
    slept 2^0 * 1000 ms between attempts 1 and 2 and 2^1 * 1000 ms between
    attempts 2 and 3. *)
Theorem C5_retry_twice_then_success
    (axios : nat -> AxiosOutcome) (e0 e1 : JsError) (dt0 dt1 dt2 : Z)
    (response : AxiosResponse) :
  axios 0%nat = AxiosRejects e0 dt0 ->
  httpError 500 500 e0 ->
  axios 1%nat = AxiosRejects e1 dt1 ->
  httpError 500 500 e1 ->
  axios 2%nat = AxiosResolves response dt2 ->
  makeRequestWithRetry axios 3 =
  {| rr_result := Normal response;
     rr_events := [Attempt 0; Sleep 1000; Attempt 1; Sleep 2000; Attempt 2];
     rr_elapsed := dt0 + 1000 + (dt1 + 2000 + dt2) |} /\
  attempts (makeRequestWithRetry axios 3) = 3%nat /\
  delays (makeRequestWithRetry axios 3) = [2 ^ 0 * 1000; 2 ^ 1 * 1000].
Proof.
  intros H0 (r0 & Hr0 & Hs0) H1 (r1 & Hr1 & Hs1) H2.
  assert (Hretry : forall e r, eresponse e = Some r -> 500 <= status r <= 500 ->
                     isRetryableError e = true).
  { intros e r He Hs. unfold isRetryableError. rewrite He.
    apply Z.leb_le. lia. }
  assert (Hrun : makeRequestWithRetry axios 3 =
    {| rr_result := Normal response;
       rr_events := [Attempt 0; Sleep 1000; Attempt 1; Sleep 2000; Attempt 2];
       rr_elapsed := dt0 + 1000 + (dt1 + 2000 + dt2) |}).
  { unfold makeRequestWithRetry. cbn [retryLoop].
    rewrite H0, (Hretry e0 r0 Hr0 Hs0). cbn [Nat.ltb Nat.leb andb retryLoop].
    rewrite H1, (Hretry e1 r1 Hr1 Hs1). cbn [Nat.ltb Nat.leb andb retryLoop].
    rewrite H2. reflexivity. }
  rewrite Hrun. repeat split.
Qed.

Lemma C5_retry_twice_then_success_witness :
  makeRequestWithRetry failsTwice 3 =
  {| rr_result := Normal ok200;
     rr_events := [Attempt 0; Sleep 1000; Attempt 1; Sleep 2000; Attempt 2];
     rr_elapsed := 12 + 1000 + (12 + 2000 + 15) |}.
Proof.
  apply (C5_retry_twice_then_success failsTwice http500 http500 12 12 15 ok200).
  - reflexivity.
  - exists {| status := 500; data := [("error", JStr "Error interno")] |}.
    split; [reflexivity|]. cbn. lia.
  - reflexivity.
  - exists {| status := 500; data := [("error", JStr "Error interno")] |}.
    split; [reflexivity|]. cbn. lia.
  - reflexivity.
Defined.

(** Which errors are retried. *)
Lemma isRetryableError_spec error :
  isRetryableError error = true <->
  (exists response, eresponse error = Some response /\ 500 <= status response)
  \/ (eresponse error = None /\
      (ecode error = Some "ECONNREFUSED" \/ ecode error = Some "ETIMEDOUT"
       \/ ecode error = Some "ENOTFOUND")).
Proof.
  unfold isRetryableError.
  destruct (eresponse error) as [response|].
  - rewrite Z.leb_le. split.
    + intros H. left. now exists response.
    + intros [(r & Hr & H)|[Hn _]]; [|discriminate]. now inversion Hr.
  - destruct (ecode error) as [code|]; cbn [existsb].
    + rewrite !orb_true_iff, !String.eqb_eq. split.
      * intros [H|[H|[H|H]]]; try discriminate; subst; right; split; auto.
      * intros [(r & Hr & _)|[_ [H|[H|H]]]]; try discriminate;
          inversion H; auto.
    + split; [discriminate|].
      intros [(r & Hr & _)|[_ [H|[H|H]]]]; discriminate.
Qed.

(** C6. A call that fails with an HTTP 4xx response is attempted once:
    [makeRequestWithRetry] rethrows its error without any delay, whatever
    the number of retries allowed. An error is retried only if it carries a
    response with status 500 or above, or carries no response and has one
    of the codes ECONNREFUSED, ETIMEDOUT, ENOTFOUND. *)
Theorem C6_client_errors_are_not_retried
    (axios : nat -> AxiosOutcome) (retries : nat) (error : JsError) (dt : Z) :
  axios 0%nat = AxiosRejects error dt ->
  httpError 400 499 error ->
  makeRequestWithRetry axios retries =
  {| rr_result := Throw error; rr_events := [Attempt 0];
     rr_elapsed := dt |} /\
  attempts (makeRequestWithRetry axios retries) = 1%nat /\
  delays (makeRequestWithRetry axios retries) = [] /\
  isRetryableError error = false /\
  forall e,
    isRetryableError e = true <->
    (exists response, eresponse e = Some response /\ 500 <= status response)
    \/ (eresponse e = None /\
        (ecode e = Some "ECONNREFUSED" \/ ecode e = Some "ETIMEDOUT"
         \/ ecode e = Some "ENOTFOUND")).
Proof.
  intros H0 (r & Hr & Hs).
  assert (Hno : isRetryableError error = false).
  { unfold isRetryableError. rewrite Hr. apply Z.leb_gt. lia. }
  assert (Hrun : makeRequestWithRetry axios retries =
    {| rr_result := Throw error; rr_events := [Attempt 0];
       rr_elapsed := dt |}).
  { unfold makeRequestWithRetry.
    destruct retries as [|fuel]; cbn [retryLoop]; rewrite H0; [reflexivity|].
    now rewrite Hno, andb_false_r. }
  rewrite Hrun. repeat split; try exact Hno; apply isRetryableError_spec.
Qed.

Lemma C6_client_errors_are_not_retried_witness :
  makeRequestWithRetry notFound 3 =
  {| rr_result := Throw http404; rr_events := [Attempt 0];
     rr_elapsed := 9 |}.
Proof.
  apply (C6_client_errors_are_not_retried notFound 3 http404 9).
  - reflexivity.
  - exists {| status := 404;
              data := [("error", JStr "Usuario no encontrado")] |}.
    split; [reflexivity|]. cbn. lia.
Defined.

(** ** Rate limiting *)

Lemma windowMs_value : windowMs = 900000.
Proof. reflexivity. Qed.

Lemma set_rateLimitStore_same g : set_rateLimitStore (rateLimitStore g) g = g.
Proof. now destruct g. Qed.

Section OneClient.

(** The requests of one client. *)
Variable req : Request.
Let client : string := clientIdOf req.

(** The request that starts a window passes and is the first one counted
    in it. *)
Lemma rateLimit_startsWindow now g :
  startsWindow now req g ->
  rateLimit now req g =
  (CallsNext,
   set_rateLimitStore
     (<[client := {| count := 1; resetTime := now + windowMs |}]>
        (rateLimitStore g)) g).
Proof.
  unfold startsWindow, rateLimit. fold client. rewrite windowMs_value.
  destruct (rateLimitStore g !! client) as [[c r]|]; cbn.
  - intros H. apply Z.ltb_lt in H. rewrite H. reflexivity.
  - intros _. destruct (Z.ltb_spec (now + 900000) now); [lia|reflexivity].
Qed.

(** A request inside the window of a client that is below the cap passes
    and is counted. *)
Lemma rateLimit_below_cap now g c r :
  rateLimitStore g !! client = Some {| count := c; resetTime := r |} ->
  now <= r ->
  c < maxRequests ->
  rateLimit now req g =
  (CallsNext,
   set_rateLimitStore
     (<[client := {| count := c + 1; resetTime := r |}]>
        (rateLimitStore g)) g).
Proof.
  intros Hk Hle Hc. unfold rateLimit. fold client. rewrite Hk. cbn.
  destruct (Z.ltb_spec r now); [lia|]. cbn.
  destruct (Z.leb_spec maxRequests c); [lia|reflexivity].
Qed.

(** A request inside the window of a client that has reached the cap is
    answered 429, and the gateway is left as it was. *)
Lemma rateLimit_at_cap now g c r :
  rateLimitStore g !! client = Some {| count := c; resetTime := r |} ->
  now <= r ->
  maxRequests <= c ->
  rateLimit now req g = (Responds (tooManyRequests now r), g).
Proof.
  intros Hk Hle Hc. unfold rateLimit. fold client. rewrite Hk. cbn.
  destruct (Z.ltb_spec r now); [lia|]. cbn.
  destruct (Z.leb_spec maxRequests c); [|lia].
  now rewrite (insert_id _ _ _ Hk), set_rateLimitStore_same.
Qed.

(** Requests inside the window that stay below the cap all pass and are
    all counted. *)
Lemma rateLimitAll_below_cap times g c r :
  rateLimitStore g !! client = Some {| count := c; resetTime := r |} ->
  Forall (fun t => t <= r) times ->
  c + Z.of_nat (length times) <= maxRequests ->
  fst (rateLimitAll times req g) = repeat CallsNext (length times) /\
  rateLimitStore (snd (rateLimitAll times req g)) !! client
  = Some {| count := c + Z.of_nat (length times); resetTime := r |}.
Proof.
  revert g c. induction times as [|t times IH]; intros g c Hk Hall Hc.
  - cbn. rewrite Z.add_0_r. now split.
  - rewrite length_cons, Nat2Z.inj_succ in *.
    inversion Hall as [|? ? Ht Hts]; subst.
    cbn [rateLimitAll].
    rewrite (rateLimit_below_cap t g c r Hk Ht) by lia.
    specialize (IH (set_rateLimitStore
                      (<[client := {| count := c + 1; resetTime := r |}]>
                         (rateLimitStore g)) g) (c + 1)).
    destruct IH as [IH1 IH2].
    + cbn. apply lookup_insert_eq.
    + exact Hts.
    + lia.
    + destruct (rateLimitAll times req _) as [steps g2].
      cbn [fst snd] in *. split.
      * cbn. now rewrite IH1.
      * rewrite IH2. f_equal. f_equal. lia.
Qed.

End OneClient.

Lemma ceilSeconds_nonneg ms : 0 <= ms -> 0 <= ceilSeconds ms.
Proof.
  intros H. unfold ceilSeconds.
  assert (- ms / 1000 <= 0) by (apply Z.div_le_upper_bound; lia). lia.
Qed.

Lemma ceilSeconds_pos ms : 0 < ms -> 0 < ceilSeconds ms.
Proof.
  intros H. unfold ceilSeconds.
  assert (- ms / 1000 < 0) by (apply Z.div_lt_upper_bound; lia). lia.
Qed.

(** C7, as stated, fails at the last instant of the window: a client makes
    100 requests at clock reading 0, which all pass and open a window that
    ends at 900000; its 101st request arrives at 900000, when the window has
    not elapsed ([now > resetTime] is false), and is answered 429 with
    [retryAfter] 0. *)
Lemma C7_retry_after_is_zero_at_window_end :
  let r := rateLimitAll (repeat 0 100) sampleRequest (newGatewayService 0) in
  fst r = repeat CallsNext 100 /\
  rateLimitStore (snd r) !! "10.0.0.7" = Some {| count := 100; resetTime := 900000 |} /\
  (900000 >? 900000) = false /\
  fst (rateLimit 900000 sampleRequest (snd r)) =
  Responds {| statusCode := 429;
              body := [("error", JStr "Rate limit exceeded");
                       ("message", JStr "Too many requests, please try again later");
                       ("retryAfter", JNum 0)] |}.
Proof. vm_compute. repeat split. Qed.

(** C7, amended. The request of a client that starts a window and the next
    99 requests of that client arriving up to the end of the window all
    pass. Any further request arriving up to the end of the window is
    answered 429 by the rate limiter, without change to the gateway, and
    ends the chain there: no later middleware runs and the handler is not
    reached. Its [retryAfter] is not negative, and positive when the
    request arrives strictly before the end of the window. A request
    arriving after the end of the window passes, as the first one counted
    in a new window. *)
Theorem C7_rate_limit_window
    (g : GatewayService) (req : Request) (t0 : Z) (times : list Z) :
  startsWindow t0 req g ->
  length times = 99%nat ->
  Forall (fun t => t <= t0 + windowMs) times ->
  let g1 := snd (rateLimitAll (t0 :: times) req g) in
  fst (rateLimitAll (t0 :: times) req g) = repeat CallsNext 100 /\
  rateLimitStore g1 !! clientIdOf req
  = Some {| count := 100; resetTime := t0 + windowMs |} /\
  (forall t post, t <= t0 + windowMs ->
     rateLimit t req g1 = (Responds (tooManyRequests t (t0 + windowMs)), g1) /\
     executeMiddleware (("rateLimit", rateLimit) :: post) t req g1
     = (ShortCircuited (tooManyRequests t (t0 + windowMs)), ["rateLimit"], g1) /\
     getMember "retryAfter" (body (tooManyRequests t (t0 + windowMs)))
     = Some (JNum (ceilSeconds (t0 + windowMs - t))) /\
     0 <= ceilSeconds (t0 + windowMs - t) /\
     (t < t0 + windowMs -> 0 < ceilSeconds (t0 + windowMs - t))) /\
  (forall t, t0 + windowMs < t ->
     startsWindow t req g1 /\
     fst (rateLimit t req g1) = CallsNext /\
     rateLimitStore (snd (rateLimit t req g1)) !! clientIdOf req
     = Some {| count := 1; resetTime := t + windowMs |}).
Proof.
  intros Hstart Hlen Hall. cbv zeta. cbn [rateLimitAll].
  rewrite (rateLimit_startsWindow req t0 g Hstart).
  set (g0 := set_rateLimitStore _ g).
  assert (Hk0 : rateLimitStore g0 !! clientIdOf req
                = Some {| count := 1; resetTime := t0 + windowMs |}).
  { subst g0. cbn. apply lookup_insert_eq. }
  destruct (rateLimitAll_below_cap req times g0 1 (t0 + windowMs) Hk0 Hall)
    as [H1 H2].
  { rewrite Hlen. unfold maxRequests. lia. }
  rewrite Hlen in H1, H2. change (1 + Z.of_nat 99) with 100 in H2.
  destruct (rateLimitAll times req g0) as [steps g1]. cbn [fst snd] in *.
  split; [now rewrite H1|]. split; [exact H2|]. split.
  - intros t post Ht.
    assert (Hr : rateLimit t req g1
                 = (Responds (tooManyRequests t (t0 + windowMs)), g1)).
    { apply (rateLimit_at_cap req t g1 100); [exact H2|exact Ht|].
      unfold maxRequests. lia. }
    split; [exact Hr|]. split; [|split; [reflexivity|split]].
    + cbn [executeMiddleware]. now rewrite Hr.
    + apply ceilSeconds_nonneg. lia.
    + intros Hlt. apply ceilSeconds_pos. lia.
  - intros t Ht.
    assert (Hs : startsWindow t req g1).
    { unfold startsWindow. rewrite H2. cbn. exact Ht. }
    split; [exact Hs|].
    rewrite (rateLimit_startsWindow req t g1 Hs). cbn.
    split; [reflexivity|apply lookup_insert_eq].
Qed.

Lemma C7_rate_limit_window_witness :
  fst (rateLimitAll (0 :: repeat 5 99) sampleRequest (newGatewayService 0))
  = repeat CallsNext 100.
Proof.
  assert (H1 : startsWindow 0 sampleRequest (newGatewayService 0))
    by (vm_compute; exact I).
  assert (H3 : Forall (fun t => t <= 0 + windowMs) (repeat 5 99)).
  { apply Forall_forall. intros t Ht. apply list_elem_of_In, repeat_spec in Ht. subst t.
    vm_compute. discriminate. }
  exact (proj1 (C7_rate_limit_window (newGatewayService 0) sampleRequest 0
                  (repeat 5 99) H1 eq_refl H3)).
Defined.

(** ** Forwarding to an unknown service *)

Lemma lookupService_NoSuchProperty g serviceName :
  lookupService g serviceName = NoSuchProperty <->
  services g !! serviceName = None /\
  ~ In serviceName objectPrototypeMembers.
Proof.
  unfold lookupService.
  destruct (services g !! serviceName) as [service|].
  - split; [discriminate|]. intros [H _]. discriminate.
  - destruct (existsb (String.eqb serviceName) objectPrototypeMembers) eqn:He.
    + split; [discriminate|]. intros [_ Hn]. exfalso. apply Hn.
      apply existsb_exists in He as (x & Hx & Heq).
      apply String.eqb_eq in Heq. now subst.
    + split; [|reflexivity]. intros _. split; [reflexivity|].
      intros Hin.
      assert (existsb (String.eqb serviceName) objectPrototypeMembers = true).
      { apply existsb_exists. exists serviceName. split; [exact Hin|].
        apply String.eqb_refl. }
      congruence.
Qed.

(** A name that is neither a configured service nor a member every object
    inherits: [processRequest] answers 404 and leaves the gateway, with
    every breaker and its metrics, as it was; no breaker is created or
    consulted. *)
Lemma processRequest_unknown_service now replyTime axios serviceName req g :
  services g !! serviceName = None ->
  ~ In serviceName objectPrototypeMembers ->
  processRequest now replyTime axios serviceName req g =
  {| reply :=
       Some {| statusCode := 404;
               body := [("error", JStr "Servicio no encontrado");
                        ("message",
                          JStr ("El servicio '" +:+ serviceName
                                  +:+ "' no está disponible"))] |};
     gateway := g;
     visible := [] |}.
Proof.
  intros Hs Hn. unfold processRequest.
  now rewrite (proj2 (lookupService_NoSuchProperty g serviceName) (conj Hs Hn)).
Qed.

Lemma getBreaker_new now n options mgr :
  breakers mgr !! n = None ->
  getBreaker now n options mgr =
  (newCircuitBreaker now (withName n options),
   updateGlobalMetrics
     {| breakers := <[n := newCircuitBreaker now (withName n options)]>
                      (breakers mgr);
        globalMetrics := globalMetrics mgr |}).
Proof. intros H. unfold getBreaker. now rewrite H. Qed.

(** C10, at the failing input: [constructor] is not a configured service,
    and no breaker of that name exists, but [this.services['constructor']]
    is the function every object inherits, which is truthy. Whatever the
    request and whatever [axios] does with it, [processRequest] passes its
    guard, has the manager create a fourth breaker, named [constructor],
    with default options, and runs the request through it: the wrapped
    function is called once, and the response is 500, not 404. *)
Theorem C10_inherited_name_is_forwarded
    (axios : nat -> AxiosOutcome) (req : Request) :
  let g := newGatewayService 0 in
  let p := processRequest 10 12 axios "constructor" req g in
  services g !! "constructor" = None /\
  breakers (circuitBreakerManager g) !! "constructor" = None /\
  totalBreakers (globalMetrics (circuitBreakerManager g)) = 3 /\
  option_map statusCode (reply p) = Some 500 /\
  callsMade (visible p) = 1%nat /\
  option_map name
    (breakers (circuitBreakerManager (gateway p)) !! "constructor")
  = Some "constructor" /\
  totalBreakers (globalMetrics (circuitBreakerManager (gateway p))) = 4.
Proof.
  cbv zeta.
  split; [vm_compute; reflexivity|].
  split; [vm_compute; reflexivity|].
  split; [vm_compute; reflexivity|].
  unfold processRequest.
  replace (lookupService (newGatewayService 0) "constructor")
    with InheritedMember by (vm_compute; reflexivity).
  rewrite getBreaker_new by (vm_compute; reflexivity).
  set (fresh := newCircuitBreaker 10 (withName "constructor" noOptions)).
  destruct (execute_without_callbacks_throws 10
              (callOf (makeServiceRequest axios InheritedMember)) fresh)
    as [Hout Hcalls]; try reflexivity.
  { intros o n. reflexivity. }
  destruct (sameSettings_execute 10
              (callOf (makeServiceRequest axios InheritedMember)) fresh)
    as (Hname & _).
  destruct (execute 10 (callOf (makeServiceRequest axios InheritedMember)) fresh)
    as [[outcome fresh'] events].
  cbn [outcomeOf breakerOf eventsOf fst snd] in Hout, Hcalls, Hname.
  subst outcome. cbn [reply visible gateway].
  split; [reflexivity|]. split; [exact Hcalls|].
  cbn [circuitBreakerManager set_circuitBreakerManager breakers globalMetrics
       updateGlobalMetrics].
  split.
  - rewrite lookup_insert_eq. cbn [option_map]. now rewrite Hname.
  - vm_compute. reflexivity.
Qed.

(** * Further properties *)

(** ** Invariants of the breaker *)

Lemma breakerOf_unsettledIfThrows {A} (c : M A) b :
  breakerOf (unsettledIfThrows c b) = breakerOf (c b).
Proof.
  unfold unsettledIfThrows. now destruct (c b) as [[[a|e|] b1] l1].
Qed.

Lemma breakerOf_tryCatch {A} (c : M A) (h : JsError -> M A) b :
  breakerOf (tryCatch c h b) =
  match outcomeOf (c b) with
  | Throw e => breakerOf (h e (breakerOf (c b)))
  | _ => breakerOf (c b)
  end.
Proof.
  rewrite tryCatch_run. now destruct (outcomeOf (c b)).
Qed.

Ltac wf_crush :=
  unfold wellFormed in *; cbn in *;
  repeat match goal with
         | |- context [Z.leb ?a ?b] => destruct (Z.leb_spec a b); cbn in *
         end;
  intuition (try congruence; try lia).

Lemma wellFormed_new now options : wellFormed (newCircuitBreaker now options).
Proof. wf_crush. Qed.

Lemma wellFormed_countRequest b : wellFormed b -> wellFormed (countRequest b).
Proof. break_breaker b. destruct me. wf_crush. Qed.

(** [setState] keeps the fields together; HALF_OPEN is only entered from
    OPEN. *)
Lemma wellFormed_setState now s b :
  wellFormed b ->
  (s = HALF_OPEN -> state b = OPEN) ->
  wellFormed (breakerOf (setState now s b)).
Proof.
  rewrite breakerOf_setState.
  break_breaker b. destruct me. destruct st, s; wf_crush.
Qed.

Lemma wellFormed_recordFailure now b :
  wellFormed b -> wellFormed (breakerOf (recordFailure now b)).
Proof.
  rewrite breakerOf_recordFailure, breakerOf_setState.
  break_breaker b. destruct me. destruct st; wf_crush.
Qed.

Lemma wellFormed_recordSuccess now b :
  wellFormed b -> wellFormed (breakerOf (recordSuccess now b)).
Proof.
  rewrite breakerOf_recordSuccess, breakerOf_setState.
  break_breaker b. destruct me. destruct st; wf_crush.
Qed.

Lemma wellFormed_executeWithTimeout now call b :
  wellFormed b -> wellFormed (breakerOf (executeWithTimeout now call b)).
Proof.
  intros Hwf.
  destruct (timesOut b call) eqn:Hto.
  { now rewrite executeWithTimeout_timesOut. }
  destruct call as [result dt|error dt| |error]; cbn in Hto;
    try discriminate Hto; try apply Z.leb_gt in Hto.
  - rewrite breakerOf_executeWithTimeout_resolves by assumption.
    pose proof (wellFormed_recordSuccess (now + dt) b Hwf) as H1.
    destruct (outcomeOf (recordSuccess (now + dt) b)); try exact H1.
    now apply wellFormed_recordFailure.
  - rewrite breakerOf_executeWithTimeout_rejects by assumption.
    now apply wellFormed_recordFailure.
  - now rewrite executeWithTimeout_throwsSync.
Qed.

Lemma wellFormed_execute now call b :
  wellFormed b -> wellFormed (breakerOf (execute now call b)).
Proof.
  intros Hwf. pose proof (wellFormed_countRequest b Hwf) as Hc.
  assert (Hg : forall b', wellFormed b' ->
                 wellFormed (breakerOf (guardedCall now call b'))).
  { intros b' H. rewrite breakerOf_guardedCall.
    now apply wellFormed_executeWithTimeout. }
  rewrite execute_run.
  destruct (State_eqb_spec (state b) OPEN) as [Hst|Hst];
    [destruct (shouldAttemptReset now b)|].
  - rewrite bind_run.
    assert (H1 : wellFormed (breakerOf (setState now HALF_OPEN (countRequest b)))).
    { apply wellFormed_setState; [exact Hc|].
      intros _. now rewrite state_countRequest. }
    destruct (outcomeOf (setState now HALF_OPEN (countRequest b)));
      cbn [breakerOf fst snd]; try exact H1.
    now apply Hg.
  - exact Hc.
  - now apply Hg.
Qed.

Lemma wellFormed_lateSettlement start call b :
  wellFormed b -> wellFormed (breakerOf (lateSettlement start call b)).
Proof.
  intros Hwf. destruct call as [result dt|error dt| |error];
    cbn [lateSettlement]; try exact Hwf.
  - rewrite breakerOf_unsettledIfThrows, breakerOf_tryCatch.
    pose proof (wellFormed_recordSuccess (start + dt) b Hwf) as H1.
    destruct (outcomeOf (recordSuccess (start + dt) b)); try exact H1.
    now apply wellFormed_recordFailure.
  - rewrite breakerOf_unsettledIfThrows. now apply wellFormed_recordFailure.
Qed.

Lemma wellFormed_reset now b :
  wellFormed b -> wellFormed (breakerOf (reset now b)).
Proof.
  rewrite reset_run, breakerOf_setState.
  break_breaker b. destruct me. destruct st; wf_crush.
Qed.

Lemma wellFormed_perform now op b :
  wellFormed b -> wellFormed (perform now op b).
Proof.
  intros Hwf. destruct op as [call|start call| | |]; cbn [perform].
  - now apply wellFormed_execute.
  - now apply wellFormed_lateSettlement.
  - now apply wellFormed_reset.
  - apply wellFormed_setState; [exact Hwf|discriminate].
  - apply wellFormed_setState; [exact Hwf|discriminate].
Qed.

(** X1. Whatever is done to a breaker from the moment it is constructed
    (calls of [execute] however they end, late settlements of calls that
    timed out, [reset], [forceOpen], [forceClosed]), and whatever its
    callbacks do, its fields fit together: [nextAttemptTime] is set exactly
    while it is OPEN, it has been closed at most as often as it was opened
    (less often while it is not CLOSED), [failures] is not negative, and a
    CLOSED breaker with a positive threshold has fewer failures counted than
    the threshold. *)
Theorem X1_breaker_fields_fit_together
    (now : Z) (options : Options) (ops : list (Z * Operation)) :
  wellFormed (performAll ops (newCircuitBreaker now options)).
Proof.
  generalize (wellFormed_new now options).
  generalize (newCircuitBreaker now options) as b.
  induction ops as [|[t op] ops IH]; intros b Hwf; cbn [performAll].
  - exact Hwf.
  - apply IH. now apply wellFormed_perform.
Qed.

(** ** The request counters *)

Lemma tally_countRequest b :
  tally (countRequest b) =
  (totalRequests (metrics b) + 1, successfulRequests (metrics b),
   failedRequests (metrics b)).
Proof. break_breaker b. now destruct me. Qed.

Lemma tally_setState now s b : tally (breakerOf (setState now s b)) = tally b.
Proof.
  rewrite breakerOf_setState. break_breaker b. destruct me.
  destruct st, s; reflexivity.
Qed.

Lemma tally_recordSuccess now b :
  tally (breakerOf (recordSuccess now b)) =
  (totalRequests (metrics b), successfulRequests (metrics b) + 1,
   failedRequests (metrics b)).
Proof.
  rewrite breakerOf_recordSuccess, breakerOf_setState.
  break_breaker b. destruct me. destruct st; reflexivity.
Qed.

Lemma tally_recordFailure now b :
  tally (breakerOf (recordFailure now b)) =
  (totalRequests (metrics b), successfulRequests (metrics b),
   failedRequests (metrics b) + 1).
Proof.
  rewrite breakerOf_recordFailure, breakerOf_setState.
  break_breaker b. destruct me. cbn.
  destruct (thr <=? fl + 1); [destruct st|]; reflexivity.
Qed.

Lemma recordSuccess_returns now b :
  quietHook b -> outcomeOf (recordSuccess now b) = Normal tt.
Proof. intros Hq. now rewrite (recordSuccess_quiet _ _ Hq). Qed.

(** With an observer that does not throw, the wrapped call is counted as
    one success, as one failure, or not at all. *)
Lemma tally_executeWithTimeout now call b :
  quietHook b ->
  let b' := breakerOf (executeWithTimeout now call b) in
  totalRequests (metrics b') = totalRequests (metrics b) /\
  successfulRequests (metrics b) <= successfulRequests (metrics b') /\
  failedRequests (metrics b) <= failedRequests (metrics b') /\
  settledRequests b' <= settledRequests b + 1.
Proof.
  intros Hq. cbv zeta. unfold settledRequests.
  destruct (timesOut b call) eqn:Hto.
  { rewrite executeWithTimeout_timesOut by assumption.
    cbn [breakerOf fst snd]. lia. }
  destruct call as [result dt|error dt| |error]; cbn in Hto;
    try discriminate Hto; try apply Z.leb_gt in Hto.
  - rewrite breakerOf_executeWithTimeout_resolves by assumption.
    rewrite (recordSuccess_returns _ _ Hq).
    pose proof (tally_recordSuccess (now + dt) b) as H.
    unfold tally in H. inversion H as [[H1 H2 H3]]. lia.
  - rewrite breakerOf_executeWithTimeout_rejects by assumption.
    pose proof (tally_recordFailure (now + dt) b) as H.
    unfold tally in H. inversion H as [[H1 H2 H3]]. lia.
  - rewrite executeWithTimeout_throwsSync. cbn [breakerOf fst snd]. lia.
Qed.

Lemma tally_execute now call b :
  quietHook b ->
  let b' := breakerOf (execute now call b) in
  totalRequests (metrics b') = totalRequests (metrics b) + 1 /\
  successfulRequests (metrics b) <= successfulRequests (metrics b') /\
  failedRequests (metrics b) <= failedRequests (metrics b') /\
  settledRequests b' <= settledRequests b + 1.
Proof.
  intros Hq. cbv zeta.
  destruct (letsThrough now b) eqn:Hlet.
  - rewrite (execute_let_through now call b Hq Hlet). cbv zeta.
    rewrite breakerOf_run, breakerOf_guardedCall.
    set (b0 := if State_eqb (state b) OPEN
               then transition now HALF_OPEN (countRequest b)
               else countRequest b).
    assert (Hsame : sameSettings b b0)
      by (subst b0; destruct (State_eqb (state b) OPEN); auto with settings).
    pose proof (quietHook_sameSettings b b0 Hsame Hq) as Hq0.
    assert (H0 : tally b0 = tally (countRequest b)).
    { subst b0. destruct (State_eqb (state b) OPEN); [|reflexivity].
      clear. break_breaker b. now destruct me. }
    rewrite tally_countRequest in H0. unfold tally in H0.
    inversion H0 as [[H1 H2 H3]].
    pose proof (tally_executeWithTimeout now call b0 Hq0) as H.
    cbv zeta in H. unfold settledRequests in *. lia.
  - unfold letsThrough in Hlet. rewrite execute_run.
    destruct (State_eqb (state b) OPEN); [|discriminate].
    cbn in Hlet. rewrite Hlet. cbn [breakerOf fst snd].
    pose proof (tally_countRequest b) as H. unfold tally in H.
    inversion H as [[H1 H2 H3]]. unfold settledRequests. lia.
Qed.

(** X2. With an observer of state changes that does not throw, every call
    of [execute] is counted once in [totalRequests], whether it was let
    through or not and however it ended, and in at most one of
    [successfulRequests] and [failedRequests], neither of which ever goes
    down: the number of settled requests grows by at most the number of
    calls. *)
Theorem X2_requests_are_counted_once
    (calls : list (Z * CallBehaviour)) (b : CircuitBreaker) :
  quietHook b ->
  let b' := executeAll calls b in
  totalRequests (metrics b')
    = totalRequests (metrics b) + Z.of_nat (length calls) /\
  successfulRequests (metrics b) <= successfulRequests (metrics b') /\
  failedRequests (metrics b) <= failedRequests (metrics b') /\
  settledRequests b' <= settledRequests b + Z.of_nat (length calls).
Proof.
  revert b. induction calls as [|[now call] calls IH]; intros b Hq; cbv zeta.
  - cbn. lia.
  - cbn [executeAll]. rewrite length_cons, Nat2Z.inj_succ.
    pose proof (tally_execute now call b Hq) as H. cbv zeta in H.
    assert (Hq1 : quietHook (breakerOf (execute now call b)))
      by (eapply quietHook_sameSettings;
          [apply sameSettings_execute|exact Hq]).
    specialize (IH _ Hq1). cbv zeta in IH. lia.
Qed.

Lemma X2_requests_are_counted_once_witness :
  totalRequests
    (metrics (executeAll [(100, Resolves ok200 3); (200, NeverSettles);
                          (300, Rejects econnrefused 2)] usuariosBreaker))
  = totalRequests (metrics usuariosBreaker) + 3 /\
  settledRequests
    (executeAll [(100, Resolves ok200 3); (200, NeverSettles);
                 (300, Rejects econnrefused 2)] usuariosBreaker)
  <= settledRequests usuariosBreaker + 3.
Proof.
  assert (Hq : quietHook usuariosBreaker) by (intros o n; reflexivity).
  pose proof (X2_requests_are_counted_once
                [(100, Resolves ok200 3); (200, NeverSettles);
                 (300, Rejects econnrefused 2)] usuariosBreaker Hq) as H.
  cbv zeta in H. split; [exact (proj1 H)|exact (proj2 (proj2 (proj2 H)))].
Defined.

(** An observer that throws when the breaker closes makes one successful
    trial call count twice: as a success, and as a failure by the [catch]
    handler of the wrapped promise. *)
Example throwing_observer_counts_twice :
  let b := breakerOf (forceOpen 1000
             (newCircuitBreaker 0
                {| opt_name := Some "usuarios"; opt_failureThreshold := Some 5;
                   opt_timeout := Some 5000; opt_resetTimeout := Some 30000;
                   opt_monitoringPeriod := None;
                   opt_onStateChange := Some throwsOnClose;
                   opt_onFailure := Some (fun _ => CbReturns);
                   opt_onSuccess := Some (fun _ => CbReturns) |})) in
  let b' := breakerOf (execute 31000 (Resolves ok200 3) b) in
  tally b = (0, 0, 0) /\
  tally b' = (1, 1, 1).
Proof. vm_compute. repeat split. Qed.

(** ** Consecutive failures *)




(** ** Resetting and forcing a state *)

Lemma sameSettings_cleared b : sameSettings b (cleared b).
Proof. break_breaker b. repeat split. Qed.


(** With an observer that does not throw, [reset()] returns. *)
Lemma reset_quiet now b :
  quietHook b -> outcomeOf (reset now b) = Normal tt.
Proof.
  intros Hq. rewrite reset_run, setState_quiet; [reflexivity|].
  eapply quietHook_sameSettings; [apply sameSettings_cleared|exact Hq].
Qed.

(** What [reset()] leaves, however it ends. *)
Lemma reset_leaves now b :
  let b' := breakerOf (reset now b) in
  state b' = CLOSED /\ failures b' = 0 /\ successes b' = 0 /\
  nextAttemptTime b' = None.
Proof.
  cbv zeta. rewrite reset_run, breakerOf_setState.
  break_breaker b. destruct me. destruct st; cbn; repeat split.
Qed.

(** X4. [forceOpen()] on a breaker that is not OPEN opens it for
    [resetTimeout] milliseconds without touching the failure count: until
    then every [execute] is rejected with [CircuitBreakerOpenError] without
    a call of the wrapped function. A [forceOpen()] on the breaker that is
    already OPEN does nothing at all; in particular it does not postpone
    the next attempt. *)
Theorem X4_forceOpen_blocks_for_resetTimeout (b : CircuitBreaker) (t : Z) :
  state b <> OPEN ->
  let b1 := breakerOf (forceOpen t b) in
  state b1 = OPEN /\
  nextAttemptTime b1 = Some (t + resetTimeout b) /\
  failures b1 = failures b /\
  circuitOpenCount (metrics b1) = circuitOpenCount (metrics b) + 1 /\
  (forall now call, now < t + resetTimeout b ->
     execute now call b1 =
     (Throw (CircuitBreakerOpenError (openMessage b1)), countRequest b1, [])) /\
  (forall t', forceOpen t' b1 = (Normal tt, b1, [])).
Proof.
  intros Hst. cbv zeta. unfold forceOpen.
  rewrite breakerOf_setState, (State_eqb_neq _ _ Hst).
  assert (H1 : state (transition t OPEN b) = OPEN)
    by (break_breaker b; now destruct me).
  assert (H2 : nextAttemptTime (transition t OPEN b)
               = Some (t + resetTimeout b))
    by (break_breaker b; now destruct me).
  split; [exact H1|]. split; [exact H2|].
  split; [break_breaker b; now destruct me|].
  split; [break_breaker b; now destruct me|].
  split.
  - intros now call Hlt. now apply (execute_open_rejects now call _ _ H1 H2).
  - intros t'. rewrite setState_run, H1. reflexivity.
Qed.

Lemma X4_forceOpen_blocks_for_resetTimeout_witness :
  state (breakerOf (forceOpen 1000 usuariosBreaker)) = OPEN /\
  nextAttemptTime (breakerOf (forceOpen 1000 usuariosBreaker))
  = Some (1000 + resetTimeout usuariosBreaker).
Proof.
  assert (H : state usuariosBreaker <> OPEN) by discriminate.
  pose proof (X4_forceOpen_blocks_for_resetTimeout usuariosBreaker 1000 H)
    as X.
  cbv zeta in X. split; [exact (proj1 X)|exact (proj1 (proj2 X))].
Defined.



(** ** The timer and the bookkeeping *)



(** ** Wrapped functions that throw at once *)

Lemma execute_throwsSync now error b :
  state b <> OPEN ->
  execute now (ThrowsSync error) b =
  (Throw (rethrown b error), countRequest b, EvCall :: catchEvents b error).
Proof.
  intros Hst. rewrite execute_run, (State_eqb_neq _ _ Hst).
  rewrite guardedCall_run, executeWithTimeout_throwsSync.
  break_breaker b. reflexivity.
Qed.

(** X7. A wrapped function that throws before it returns a promise makes
    [execute] fail with what it threw (or with what the [onFailure]
    callback throws), but the failure is not recorded: the exception
    rejects the promise of [executeWithTimeout] without passing through
    its handlers. However many calls in a row fail that way, a CLOSED
    breaker stays CLOSED with its failure counters where they were; only
    [totalRequests] counts them. *)
Theorem X7_a_function_that_throws_is_not_counted
    (calls : list (Z * CallBehaviour)) (b : CircuitBreaker) :
  state b = CLOSED ->
  Forall (fun c => throwsAtOnce (snd c) = true) calls ->
  state (executeAll calls b) = CLOSED /\
  failures (executeAll calls b) = failures b /\
  failedRequests (metrics (executeAll calls b)) = failedRequests (metrics b) /\
  totalRequests (metrics (executeAll calls b))
  = totalRequests (metrics b) + Z.of_nat (length calls) /\
  forall now error,
    outcomeOf (execute now (ThrowsSync error) (executeAll calls b))
    = Throw (rethrown b error).
Proof.
  intros Hst Hall.
  assert (H : state (executeAll calls b) = CLOSED /\
              failures (executeAll calls b) = failures b /\
              failedRequests (metrics (executeAll calls b))
              = failedRequests (metrics b) /\
              totalRequests (metrics (executeAll calls b))
              = totalRequests (metrics b) + Z.of_nat (length calls)).
  { revert b Hst. induction Hall as [|[now call] calls Hc _ IH]; intros b Hst.
    - cbn [executeAll length]. split; [exact Hst|]. repeat split. lia.
    - cbn [executeAll]. cbn in Hc.
      destruct call as [| | |error]; try discriminate Hc.
      rewrite execute_throwsSync by congruence. cbn [breakerOf fst snd].
      destruct (IH (countRequest b)) as (H1 & H2 & H3 & H4).
      { now rewrite state_countRequest. }
      rewrite H1, H2, H3, H4, failures_countRequest,
        failedRequests_countRequest, totalRequests_countRequest,
        length_cons, Nat2Z.inj_succ.
      split; [reflexivity|]. split; [reflexivity|]. split; [reflexivity|].
      lia. }
  destruct H as (H1 & H2 & H3 & H4).
  split; [exact H1|]. split; [exact H2|]. split; [exact H3|].
  split; [exact H4|].
  intros now error. rewrite execute_throwsSync by congruence.
  rewrite outcomeOf_run. unfold rethrown.
  destruct (sameSettings_executeAll calls b) as (_&_&_&_&_&_&Hf&_).
  now rewrite Hf.
Qed.

Lemma X7_a_function_that_throws_is_not_counted_witness :
  state (executeAll (repeat (100, ThrowsSync hookError) 5) usuariosBreaker)
  = CLOSED.
Proof.
  assert (Hall : Forall (fun c : Z * CallBehaviour => throwsAtOnce (snd c) = true)
                   (repeat (100, ThrowsSync hookError) 5))
    by (repeat constructor).
  exact (proj1 (X7_a_function_that_throws_is_not_counted
                  (repeat (100, ThrowsSync hookError) 5) usuariosBreaker
                  eq_refl Hall)).
Defined.

(** ** The manager of circuit breakers *)

Lemma countInState_list s (m : gmap string CircuitBreaker) :
  countInState s m =
  Z.of_nat (length (filter (fun kb => State_eqb (state (snd kb)) s = true)
                      (map_to_list m))).
Proof.
  unfold countInState. rewrite map_fold_foldr.
  induction (map_to_list m) as [|[k b] l IH]; [reflexivity|].
  cbn [foldr uncurry]. rewrite IH, filter_cons. cbn [snd].
  destruct (State_eqb (state b) s) eqn:E.
  - rewrite decide_True by reflexivity. rewrite length_cons. lia.
  - rewrite decide_False by discriminate. reflexivity.
Qed.

Lemma countInState_sum (m : gmap string CircuitBreaker) :
  countInState OPEN m + countInState HALF_OPEN m + countInState CLOSED m
  = Z.of_nat (size m).
Proof.
  rewrite !countInState_list, <- length_map_to_list.
  induction (map_to_list m) as [|[k b] l IH]; [reflexivity|].
  rewrite !filter_cons, length_cons. cbn [snd].
  destruct (state b); cbn [State_eqb];
    repeat first [rewrite decide_True by reflexivity
                 |rewrite decide_False by discriminate];
    rewrite ?length_cons; lia.
Qed.

Lemma countInState_nonneg s (m : gmap string CircuitBreaker) :
  0 <= countInState s m.
Proof. rewrite countInState_list. lia. Qed.

(** X8. The counts [getGlobalMetrics()] returns are taken from the map of
    breakers as it is at the call: [totalBreakers] is its size, and the
    breakers counted as OPEN, HALF_OPEN and CLOSED add up to it. The map
    itself is left as it was. *)
Theorem X8_global_metrics_add_up (mgr : CircuitBreakerManager) :
  let counts := fst (getGlobalMetrics mgr) in
  totalBreakers counts = Z.of_nat (size (breakers mgr)) /\
  openBreakers counts + halfOpenBreakers counts + closedBreakers counts
  = totalBreakers counts /\
  0 <= openBreakers counts /\
  0 <= halfOpenBreakers counts /\
  0 <= closedBreakers counts /\
  breakers (snd (getGlobalMetrics mgr)) = breakers mgr /\
  globalMetrics (snd (getGlobalMetrics mgr)) = counts.
Proof.
  cbv zeta. unfold getGlobalMetrics, updateGlobalMetrics. cbn.
  repeat split; try apply countInState_nonneg. apply countInState_sum.
Qed.

(** X9. [getBreaker] is get-or-create: the breaker it returns is the one
    the map holds under the name afterwards, no other entry of the map is
    touched, and a later call for the same name returns the same breaker
    and leaves the manager as it is, whatever options it is given. A
    breaker is only constructed, from the options of the call, when the map
    has none of that name. *)
Theorem X9_getBreaker_is_get_or_create
    (now1 now2 : Z) (n : string) (options1 options2 : Options)
    (mgr : CircuitBreakerManager) :
  let r := getBreaker now1 n options1 mgr in
  breakers (snd r) !! n = Some (fst r) /\
  (forall k, k <> n -> breakers (snd r) !! k = breakers mgr !! k) /\
  getBreaker now2 n options2 (snd r) = r /\
  (forall breaker, breakers mgr !! n = Some breaker -> r = (breaker, mgr)) /\
  (breakers mgr !! n = None ->
   fst r = newCircuitBreaker now1 (withName n options1) /\
   totalBreakers (globalMetrics (snd r))
   = Z.of_nat (size (breakers mgr)) + 1).
Proof.
  cbv zeta. unfold getBreaker.
  destruct (breakers mgr !! n) as [breaker|] eqn:Hn; cbn [fst snd].
  - rewrite Hn. repeat split; try reflexivity.
    + intros breaker' H. now inversion H.
    + discriminate.
    + discriminate.
  - cbn [breakers updateGlobalMetrics globalMetrics totalBreakers].
    rewrite lookup_insert_eq. repeat split.
    + intros k Hk. now apply lookup_insert_ne.
    + discriminate.
    + rewrite map_size_insert_None by exact Hn. lia.
Qed.

(** *** Iterating over the breakers *)

Lemma keysOf_Permutation keys (m : gmap string CircuitBreaker) :
  keysOf keys m -> keys ≡ₚ (map_to_list m).*1.
Proof.
  intros [Hnd Hk]. apply NoDup_Permutation.
  - exact Hnd.
  - apply NoDup_fst_map_to_list.
  - intros k. rewrite Hk, list_elem_of_fmap. split.
    + intros [b Hb]. exists (k, b). split; [reflexivity|].
      now apply elem_of_map_to_list.
    + intros ([k' b] & -> & Hb). apply elem_of_map_to_list in Hb.
      now exists b.
Qed.

Lemma omap_lookup_map_to_list {B} (f : CircuitBreaker -> B)
    (m : gmap string CircuitBreaker) :
  omap (fun k => option_map f (m !! k)) (map_to_list m).*1
  = (fun kb => f (snd kb)) <$> map_to_list m.
Proof.
  assert (H : Forall (fun kb => m !! fst kb = Some (snd kb)) (map_to_list m)).
  { apply Forall_forall. intros [k b] Hkb. now apply elem_of_map_to_list. }
  induction H as [|[k b] l Hkb _ IH]; [reflexivity|].
  cbn in *. now rewrite Hkb, IH.
Qed.

Lemma statesIn_getState s (l : list (string * CircuitBreaker)) :
  statesIn s ((fun kb => getState (snd kb)) <$> l)
  = Z.of_nat (length (filter (fun kb => State_eqb (state (snd kb)) s = true) l)).
Proof.
  unfold statesIn. induction l as [|[k b] l IH]; [reflexivity|].
  rewrite fmap_cons, !filter_cons. cbn [snd getState bs_state].
  destruct (State_eqb (state b) s) eqn:E.
  - rewrite !decide_True by reflexivity. rewrite !length_cons. lia.
  - rewrite !decide_False by discriminate. exact IH.
Qed.

Lemma statesIn_Permutation s l1 l2 :
  l1 ≡ₚ l2 -> statesIn s l1 = statesIn s l2.
Proof. intros H. unfold statesIn. now rewrite H. Qed.

(** X10. What [getCircuitBreakerStates()] returns agrees with itself: the
    list of states has one entry per breaker of the manager, and for each
    of the three states the global count is the number of entries of the
    list in that state. *)
Theorem X10_reported_counts_match_reported_states
    (keys : list string) (g : GatewayService) :
  keysOf keys (breakers (circuitBreakerManager g)) ->
  let report := fst (getCircuitBreakerStates keys g) in
  Z.of_nat (length (breakerStates report)) = totalBreakers (global report) /\
  (forall s, countOf s (global report) = statesIn s (breakerStates report)) /\
  (forall k b, breakers (circuitBreakerManager g) !! k = Some b ->
     getState b ∈ breakerStates report).
Proof.
  intros Hkeys. cbv zeta.
  unfold getCircuitBreakerStates, getGlobalMetrics. cbn [fst global breakerStates].
  unfold getAllStates. cbn [updateGlobalMetrics breakers globalMetrics].
  set (m := breakers (circuitBreakerManager g)) in *.
  pose proof (keysOf_Permutation keys m Hkeys) as Hperm.
  assert (Hstates : omap (fun k => option_map getState (m !! k)) keys
                    ≡ₚ (fun kb => getState (snd kb)) <$> map_to_list m).
  { rewrite Hperm. now rewrite omap_lookup_map_to_list. }
  split; [|split].
  - rewrite Hstates, length_fmap, length_map_to_list. reflexivity.
  - intros s. rewrite (statesIn_Permutation _ _ _ Hstates), statesIn_getState.
    destruct s; cbn [countOf openBreakers halfOpenBreakers closedBreakers];
      apply countInState_list.
  - intros k b Hb. rewrite Hstates. apply list_elem_of_fmap.
    exists (k, b). split; [reflexivity|]. now apply elem_of_map_to_list.
Qed.

Lemma resetAll_app now keys1 keys2 mgr :
  resetAll now (keys1 ++ keys2) mgr =
  match resetAll now keys1 mgr with
  | (Normal _, mgr1, events1) =>
      match resetAll now keys2 mgr1 with
      | (outcome, mgr2, events2) => (outcome, mgr2, events1 ++ events2)
      end
  | r => r
  end.
Proof.
  revert mgr. induction keys1 as [|k keys1 IH]; intros mgr; cbn [resetAll app].
  - now destruct (resetAll now keys2 mgr) as [[o m] l].
  - destruct (breakers mgr !! k) as [b|]; [|apply IH].
    destruct (reset now b) as [[[[]|e|] b'] events]; try reflexivity.
    rewrite IH.
    destruct (resetAll now keys1 (setBreaker k b' mgr)) as [[[[]|e|] m1] l1];
      try reflexivity.
    destruct (resetAll now keys2 m1) as [[o m2] l2].
    now rewrite app_assoc.
Qed.

(** [resetAll] over keys that are all there, with observers that do not
    throw: every breaker named is reset, the others are left alone. *)
Lemma resetAll_quiet now keys mgr :
  NoDup keys ->
  (forall k, k ∈ keys -> exists b, breakers mgr !! k = Some b /\ quietHook b) ->
  let r := resetAll now keys mgr in
  fst (fst r) = Normal tt /\
  globalMetrics (snd (fst r)) = globalMetrics mgr /\
  (forall k, k ∈ keys ->
     breakers (snd (fst r)) !! k
     = (fun b => breakerOf (reset now b)) <$> breakers mgr !! k) /\
  (forall k, k ∉ keys -> breakers (snd (fst r)) !! k = breakers mgr !! k).
Proof.
  intros Hnd. revert mgr.
  induction Hnd as [|k keys Hk Hnd IH]; intros mgr Hall; cbv zeta.
  - cbn. repeat split. intros k Hk. now apply elem_of_nil in Hk.
  - cbn [resetAll].
    destruct (Hall k) as (b & Hb & Hq); [apply list_elem_of_here|].
    rewrite Hb.
    pose proof (reset_quiet now b Hq) as Hout.
    destruct (reset now b) as [[o b'] events] eqn:Hreset.
    cbn [outcomeOf fst] in Hout. subst o.
    assert (Hb' : b' = breakerOf (reset now b)) by now rewrite Hreset.
    specialize (IH (setBreaker k b' mgr)). cbv zeta in IH.
    destruct IH as (IH1 & IH2 & IH3 & IH4).
    { intros k' Hk'. destruct (Hall k') as (b0 & Hb0 & Hq0);
        [now apply list_elem_of_further|].
      exists b0. split; [|exact Hq0]. cbn.
      rewrite lookup_insert_ne; [exact Hb0|]. intros ->. contradiction. }
    destruct (resetAll now keys (setBreaker k b' mgr)) as [[o m'] l'].
    cbn [fst snd] in *. repeat split.
    + exact IH1.
    + exact IH2.
    + intros k' Hk'. apply elem_of_cons in Hk' as [->|Hk'].
      * rewrite (IH4 k Hk). cbn. rewrite lookup_insert_eq, Hb. cbn.
        now rewrite Hb'.
      * rewrite (IH3 k' Hk'). cbn.
        rewrite lookup_insert_ne; [reflexivity|]. intros ->. contradiction.
    + intros k' Hk'. apply not_elem_of_cons in Hk' as [Hne Hk'].
      rewrite (IH4 k' Hk'). cbn. now apply lookup_insert_ne.
Qed.

Lemma countInState_all_closed s (m : gmap string CircuitBreaker) :
  (forall k b, m !! k = Some b -> state b = CLOSED) ->
  countInState s m = if State_eqb CLOSED s then Z.of_nat (size m) else 0.
Proof.
  intros Hall. rewrite countInState_list, <- length_map_to_list.
  assert (H : Forall (fun kb => state (snd kb) = CLOSED) (map_to_list m)).
  { apply Forall_forall. intros [k b] Hkb. apply elem_of_map_to_list in Hkb.
    cbn. eauto. }
  induction H as [|[k b] l Hkb _ IH]; [now destruct (State_eqb CLOSED s)|].
  cbn in Hkb. rewrite filter_cons. cbn [snd]. rewrite Hkb.
  destruct (State_eqb CLOSED s) eqn:E.
  - rewrite decide_True by reflexivity. rewrite !length_cons. lia.
  - rewrite decide_False by discriminate. exact IH.
Qed.

(** X11. When no observer of state changes throws, [resetAll()] returns
    and has reset every breaker of the manager: each one is CLOSED with its
    failure and success counts at 0 and no next attempt scheduled. The
    counts held in [this.globalMetrics] are not refreshed by it; the ones
    [getGlobalMetrics()] returns afterwards show every breaker CLOSED. *)
Theorem X11_resetAll_closes_every_breaker
    (now : Z) (keys : list string) (mgr : CircuitBreakerManager) :
  keysOf keys (breakers mgr) ->
  (forall k b, breakers mgr !! k = Some b -> quietHook b) ->
  let r := resetAll now keys mgr in
  let mgr' := snd (fst r) in
  fst (fst r) = Normal tt /\
  (forall k, breakers mgr' !! k
             = (fun b => breakerOf (reset now b)) <$> breakers mgr !! k) /\
  (forall k b, breakers mgr' !! k = Some b ->
     state b = CLOSED /\ failures b = 0 /\ successes b = 0 /\
     nextAttemptTime b = None) /\
  globalMetrics mgr' = globalMetrics mgr /\
  fst (getGlobalMetrics mgr')
  = {| totalBreakers := Z.of_nat (size (breakers mgr));
       openBreakers := 0; halfOpenBreakers := 0;
       closedBreakers := Z.of_nat (size (breakers mgr)) |}.
Proof.
  intros [Hnd Hkeys] Hq. cbv zeta.
  destruct (resetAll_quiet now keys mgr Hnd) as (H1 & H2 & H3 & H4).
  { intros k Hk. apply Hkeys in Hk as [b Hb]. exists b. eauto. }
  cbv zeta in *. set (mgr' := snd (fst (resetAll now keys mgr))) in *.
  assert (Hall : forall k, breakers mgr' !! k
             = (fun b => breakerOf (reset now b)) <$> breakers mgr !! k).
  { intros k. destruct (decide (k ∈ keys)) as [Hk|Hk]; [now apply H3|].
    rewrite (H4 k Hk).
    destruct (breakers mgr !! k) as [b|] eqn:Hb; [|reflexivity].
    exfalso. apply Hk, Hkeys. now exists b. }
  assert (Hclosed : forall k b, breakers mgr' !! k = Some b ->
            state b = CLOSED /\ failures b = 0 /\ successes b = 0 /\
            nextAttemptTime b = None).
  { intros k b Hb. rewrite Hall in Hb.
    destruct (breakers mgr !! k) as [b0|]; [|discriminate].
    cbn in Hb. inversion Hb. apply reset_leaves. }
  assert (Hsize : size (breakers mgr') = size (breakers mgr)).
  { replace (breakers mgr')
      with ((fun b => breakerOf (reset now b)) <$> breakers mgr).
    - apply map_size_fmap.
    - apply map_eq. intros k. now rewrite lookup_fmap, Hall. }
  split; [exact H1|]. split; [exact Hall|]. split; [exact Hclosed|].
  split; [exact H2|].
  unfold getGlobalMetrics, updateGlobalMetrics. cbn [fst globalMetrics].
  rewrite !countInState_all_closed by (intros k b Hb; now apply (Hclosed k b)).
  cbn [State_eqb]. now rewrite Hsize.
Qed.

(** X12. [resetAll()] stops at the first breaker whose observer throws:
    the breakers before it in the order of the map have been reset, the
    breaker itself is CLOSED and cleared as well (its fields were written
    before its observer was called), every breaker after it is left as it
    was, and the exception of the observer is what [resetAll()] throws. *)
Theorem X12_resetAll_stops_at_throwing_observer
    (now : Z) (before after : list string) (k : string)
    (mgr : CircuitBreakerManager) (b : CircuitBreaker) (e : JsError) :
  keysOf (before ++ k :: after) (breakers mgr) ->
  (forall k' b', k' ∈ before -> breakers mgr !! k' = Some b' -> quietHook b') ->
  breakers mgr !! k = Some b ->
  outcomeOf (reset now b) = Throw e ->
  let r := resetAll now (before ++ k :: after) mgr in
  let mgr' := snd (fst r) in
  fst (fst r) = Throw e /\
  (forall k', k' ∈ before ->
     breakers mgr' !! k'
     = (fun b' => breakerOf (reset now b')) <$> breakers mgr !! k') /\
  breakers mgr' !! k = Some (breakerOf (reset now b)) /\
  state (breakerOf (reset now b)) = CLOSED /\
  (forall k', k' ∈ after -> breakers mgr' !! k' = breakers mgr !! k').
Proof.
  intros [Hnd Hkeys] Hq Hb He. cbv zeta.
  apply NoDup_app in Hnd as (Hnd1 & Hdisj & Hnd2).
  apply NoDup_cons in Hnd2 as [Hk Hnd2].
  assert (Hkb : k ∉ before).
  { intros Hin. apply (Hdisj k Hin), list_elem_of_here. }
  destruct (resetAll_quiet now before mgr Hnd1) as (H1 & H2 & H3 & H4).
  { intros k' Hk'. destruct (proj1 (Hkeys k')) as [b' Hb'].
    - apply elem_of_app. now left.
    - exists b'. eauto. }
  rewrite resetAll_app. cbv zeta in *.
  destruct (resetAll now before mgr) as [[o m1] l1]. cbn [fst snd] in *.
  subst o. cbn [resetAll]. rewrite (H4 k Hkb), Hb.
  destruct (reset now b) as [[o b'] events] eqn:Hreset.
  cbn [outcomeOf fst] in He. subst o. cbn [fst snd setBreaker breakers].
  assert (Hb' : b' = breakerOf (reset now b)) by now rewrite Hreset.
  repeat split.
  - intros k' Hk'. rewrite lookup_insert_ne by (intros ->; contradiction).
    now apply H3.
  - rewrite lookup_insert_eq. now rewrite Hb'.
  - rewrite <- Hreset. apply (reset_leaves now b).
  - intros k' Hk'.
    assert (k' <> k) by (intros ->; contradiction).
    rewrite lookup_insert_ne by congruence.
    apply H4. intros Hin. apply (Hdisj k' Hin). now apply list_elem_of_further.
Qed.

(** *** The breakers of the gateway *)

(** [setupCircuitBreakers] leaves one breaker per configured service in the
    manager, built from the options of the gateway, and the counts of the
    manager say so. *)
Lemma newGatewayService_breakers now :
  breakers (circuitBreakerManager (newGatewayService now)) =
  map_imap (fun n service => Some (gatewayBreaker now n service))
    defaultServices.
Proof. vm_compute. reflexivity. Qed.

Lemma newGatewayService_breaker now n service :
  services (newGatewayService now) !! n = Some service ->
  breakers (circuitBreakerManager (newGatewayService now)) !! n
  = Some (gatewayBreaker now n service).
Proof.
  intros H. rewrite newGatewayService_breakers, map_lookup_imap.
  cbn [services newGatewayService] in H. now rewrite H.
Qed.

Lemma defaultServices_keys n :
  n ∈ serviceNames <-> is_Some (defaultServices !! n).
Proof.
  unfold serviceNames, defaultServices. split.
  - intros H. repeat (apply elem_of_cons in H as [->|H]; [now eexists|]).
    now apply elem_of_nil in H.
  - intros [service H].
    repeat (apply lookup_insert_Some in H as [[<- _]|[_ H]];
            [repeat constructor|]).
    now rewrite lookup_empty in H.
Qed.

Lemma keysOf_serviceNames now :
  keysOf serviceNames (breakers (circuitBreakerManager (newGatewayService now))).
Proof.
  split.
  - apply NoDup_ListNoDup. unfold serviceNames.
    repeat constructor; cbn; intuition discriminate.
  - intros k. rewrite defaultServices_keys, newGatewayService_breakers,
      map_lookup_imap.
    destruct (defaultServices !! k); cbn; split; intros [x H];
      try discriminate; eauto.
Qed.

Lemma gatewayBreaker_quietCallbacks now n service :
  quietCallbacks (gatewayBreaker now n service).
Proof.
  split; [|split].
  - intros o s. reflexivity.
  - eexists. split; [reflexivity|]. reflexivity.
  - eexists. split; [reflexivity|]. reflexivity.
Qed.

Lemma newGatewayService_quiet now k b :
  breakers (circuitBreakerManager (newGatewayService now)) !! k = Some b ->
  quietHook b.
Proof.
  rewrite newGatewayService_breakers, map_lookup_imap.
  destruct (defaultServices !! k) as [service|]; cbn; [|discriminate].
  intros H. inversion H. apply gatewayBreaker_quietCallbacks.
Qed.

Lemma keysOf_sampleManager : keysOf serviceNames (breakers sampleManager).
Proof.
  split.
  - apply NoDup_ListNoDup. unfold serviceNames.
    repeat constructor; cbn; intuition discriminate.
  - intros k. unfold serviceNames, sampleManager. cbn [breakers]. split.
    + intros H. repeat (apply elem_of_cons in H as [->|H]; [now eexists|]).
      now apply elem_of_nil in H.
    + intros [b H].
      repeat (apply lookup_insert_Some in H as [[<- _]|[_ H]];
              [repeat constructor|]).
      now rewrite lookup_empty in H.
Qed.

Lemma X11_resetAll_closes_every_breaker_witness :
  fst (fst (resetAll 5000 serviceNames
              (circuitBreakerManager (newGatewayService 0)))) = Normal tt.
Proof.
  exact (proj1 (X11_resetAll_closes_every_breaker 5000 serviceNames
                  (circuitBreakerManager (newGatewayService 0))
                  (keysOf_serviceNames 0) (newGatewayService_quiet 0))).
Defined.

Lemma X12_resetAll_stops_at_throwing_observer_witness :
  fst (fst (resetAll 5000 (["usuarios"] ++ "pagos" :: ["catalogo"])
              sampleManager)) = Throw hookError.
Proof.
  assert (Hq : forall k' b', k' ∈ ["usuarios"] ->
            breakers sampleManager !! k' = Some b' -> quietHook b').
  { intros k' b' Hk Hb. apply list_elem_of_singleton in Hk. subst k'.
    vm_compute in Hb. inversion Hb. intros o s. reflexivity. }
  exact (proj1 (X12_resetAll_stops_at_throwing_observer 5000
                  ["usuarios"] ["catalogo"] "pagos" sampleManager
                  (openedBreaker "pagos" throwsOnClose) hookError
                  keysOf_sampleManager Hq eq_refl eq_refl)).
Defined.

Lemma X10_reported_counts_match_reported_states_witness :
  Z.of_nat (length (breakerStates
                      (fst (getCircuitBreakerStates serviceNames
                              (newGatewayService 0)))))
  = totalBreakers (global (fst (getCircuitBreakerStates serviceNames
                                  (newGatewayService 0)))).
Proof.
  exact (proj1 (X10_reported_counts_match_reported_states serviceNames
                  (newGatewayService 0) (keysOf_serviceNames 0))).
Defined.

(** ** Retry, in general *)

Lemma failsRetryably_inv o :
  failsRetryably o ->
  exists error dt, o = AxiosRejects error dt /\ isRetryableError error = true.
Proof. destruct o; cbn; try contradiction. eauto. Qed.

Lemma scheduleFrom_last k : scheduleFrom k k = [Attempt k].
Proof. unfold scheduleFrom. now rewrite Nat.sub_diag. Qed.

Lemma scheduleFrom_step i k :
  (i < k)%nat ->
  scheduleFrom i k = Attempt i :: Sleep (backoff i) :: scheduleFrom (S i) k.
Proof.
  intros H. unfold scheduleFrom.
  replace (k - i)%nat with (S (k - S i)) by lia. reflexivity.
Qed.

(** The loop stops at the first attempt that does not fail with an error
    that is retried, and at attempt [retries] at the latest. *)
Lemma retryLoop_stops axios retries fuel i k :
  (i + fuel = retries)%nat ->
  (i <= k <= retries)%nat ->
  (forall j, (i <= j < k)%nat -> failsRetryably (axios j)) ->
  k = retries \/ ~ failsRetryably (axios k) ->
  rr_result (retryLoop axios retries fuel i) = resultOf (axios k) /\
  rr_events (retryLoop axios retries fuel i) = scheduleFrom i k.
Proof.
  revert i. induction fuel as [|fuel IH]; intros i Hfuel Hik Hbefore Hlast.
  - assert (i = k) by lia. subst i. rewrite scheduleFrom_last.
    cbn [retryLoop]. destruct (axios k); now split.
  - destruct (Nat.eq_dec i k) as [->|Hne].
    + rewrite scheduleFrom_last. cbn [retryLoop].
      destruct (axios k) as [response dt|error dt|] eqn:Hk; try now split.
      destruct ((k <? retries)%nat && isRetryableError error) eqn:E;
        [|now split].
      apply andb_true_iff in E as [E1 E2]. apply Nat.ltb_lt in E1.
      destruct Hlast as [->|Hno]; [lia|]. now cbn in Hno.
    + destruct (failsRetryably_inv (axios i)) as (error & dt & Hi & Hre).
      { apply Hbefore. lia. }
      rewrite scheduleFrom_step by lia. cbn [retryLoop]. rewrite Hi, Hre.
      assert (E : (i <? retries)%nat = true) by (apply Nat.ltb_lt; lia).
      rewrite E. cbn [andb afterRetry rr_result rr_events].
      destruct (IH (S i)) as [IH1 IH2]; try lia; try assumption.
      { intros j Hj. apply Hbefore. lia. }
      rewrite IH1, IH2. now split.
Qed.

(** Whatever [axios] does, the loop ends with some attempt up to attempt
    [retries]. *)
Lemma retryLoop_shape axios retries fuel i :
  (i + fuel = retries)%nat ->
  exists k, (i <= k <= retries)%nat /\
    rr_events (retryLoop axios retries fuel i) = scheduleFrom i k.
Proof.
  revert i. induction fuel as [|fuel IH]; intros i Hfuel.
  - exists i. split; [lia|]. rewrite scheduleFrom_last. cbn [retryLoop].
    now destruct (axios i).
  - cbn [retryLoop].
    destruct (axios i) as [response dt|error dt|];
      try (exists i; split; [lia|]; now rewrite scheduleFrom_last).
    destruct ((i <? retries)%nat && isRetryableError error) eqn:E;
      [|exists i; split; [lia|]; now rewrite scheduleFrom_last].
    destruct (IH (S i)) as (k & Hk & Hev); [lia|].
    exists k. split; [lia|].
    rewrite scheduleFrom_step by lia. cbn [afterRetry rr_events].
    now rewrite Hev.
Qed.

Lemma attempts_scheduleFrom i k :
  (i <= k)%nat ->
  length (filter (fun ev => isAttempt ev = true) (scheduleFrom i k))
  = S (k - i).
Proof.
  intros H. remember (k - i)%nat as n eqn:Hn.
  revert i H Hn. induction n as [|n IH]; intros i H Hn.
  - assert (i = k) by lia. subst i. now rewrite scheduleFrom_last.
  - rewrite scheduleFrom_step by lia.
    rewrite filter_cons, decide_True by reflexivity.
    rewrite filter_cons, decide_False by discriminate.
    rewrite length_cons. f_equal. apply IH; lia.
Qed.

Lemma delays_scheduleFrom i k :
  (i <= k)%nat ->
  omap (fun ev => match ev with Sleep delay => Some delay | _ => None end)
       (scheduleFrom i k)
  = map backoff (seq i (k - i)).
Proof.
  intros H. remember (k - i)%nat as n eqn:Hn.
  revert i H Hn. induction n as [|n IH]; intros i H Hn.
  - assert (i = k) by lia. subst i. now rewrite scheduleFrom_last.
  - rewrite scheduleFrom_step by lia. cbn. f_equal. apply IH; lia.
Qed.

Lemma sum_backoff i n :
  fold_right Z.add 0 (map backoff (seq i n))
  = (2 ^ Z.of_nat (i + n) - 2 ^ Z.of_nat i) * 1000.
Proof.
  revert i. induction n as [|n IH]; intros i.
  - rewrite Nat.add_0_r. cbn. lia.
  - cbn [seq map fold_right]. rewrite IH. unfold backoff.
    replace (Z.of_nat (S i + n)) with (Z.of_nat (i + S n)) by lia.
    replace (Z.of_nat (S i)) with (Z.of_nat i + 1) by lia.
    rewrite Z.pow_add_r by lia. lia.
Qed.

(** X13. Whatever the calls of [axios] do, [makeRequestWithRetry] makes at
    least one and at most [retries + 1] attempts, sleeps after every
    attempt but the last, and sleeps 1000 * 2^i milliseconds after attempt
    [i]: what it does is attempt, sleep, attempt, ..., attempt. *)
Theorem X13_retry_attempts_and_delays
    (axios : nat -> AxiosOutcome) (retries : nat) :
  let r := makeRequestWithRetry axios retries in
  (1 <= attempts r <= retries + 1)%nat /\
  rr_events r = schedule (attempts r) /\
  delays r = map backoff (seq 0 (attempts r - 1)) /\
  length (delays r) = (attempts r - 1)%nat /\
  totalDelay r = (2 ^ Z.of_nat (attempts r - 1) - 1) * 1000.
Proof.
  cbv zeta. unfold makeRequestWithRetry.
  destruct (retryLoop_shape axios retries retries 0) as (k & Hk & Hev);
    [lia|].
  assert (Ha : attempts (retryLoop axios retries retries 0) = S k).
  { unfold attempts. rewrite Hev, attempts_scheduleFrom by lia. lia. }
  assert (Hd : delays (retryLoop axios retries retries 0)
               = map backoff (seq 0 k)).
  { unfold delays. rewrite Hev, delays_scheduleFrom by lia.
    now rewrite Nat.sub_0_r. }
  unfold totalDelay. rewrite Ha, Hd. cbn [Nat.sub]. rewrite Nat.sub_0_r.
  split; [lia|].
  split; [unfold schedule; cbn [Nat.sub]; now rewrite Nat.sub_0_r|].
  split; [reflexivity|].
  split; [now rewrite length_map, length_seq|].
  rewrite sum_backoff. cbn [Nat.add Z.of_nat]. lia.
Qed.

(** X14. [makeRequestWithRetry] stops at the first attempt that does not
    fail with an error that is retried, and at attempt [retries] (the
    [retries + 1]-th) at the latest, and ends as that attempt ends: with
    its response, or with its error, not with the error of an earlier
    attempt. Up to then it has slept 1000 * (2^k - 1) milliseconds in
    all. *)
Theorem X14_retry_ends_with_the_last_attempt
    (axios : nat -> AxiosOutcome) (retries k : nat) :
  (k <= retries)%nat ->
  (forall j, (j < k)%nat -> failsRetryably (axios j)) ->
  k = retries \/ ~ failsRetryably (axios k) ->
  let r := makeRequestWithRetry axios retries in
  rr_result r = resultOf (axios k) /\
  attempts r = S k /\
  delays r = map backoff (seq 0 k) /\
  totalDelay r = (2 ^ Z.of_nat k - 1) * 1000.
Proof.
  intros Hk Hbefore Hlast. cbv zeta. unfold makeRequestWithRetry.
  destruct (retryLoop_stops axios retries retries 0 k) as [Hres Hev];
    try lia; try assumption.
  { intros j Hj. apply Hbefore. lia. }
  assert (Hd : delays (retryLoop axios retries retries 0)
               = map backoff (seq 0 k)).
  { unfold delays. rewrite Hev, delays_scheduleFrom by lia.
    now rewrite Nat.sub_0_r. }
  split; [exact Hres|]. split; [|split; [exact Hd|]].
  - unfold attempts. rewrite Hev, attempts_scheduleFrom by lia. lia.
  - unfold totalDelay. rewrite Hd, sum_backoff. cbn [Nat.add Z.of_nat]. lia.
Qed.

Lemma X14_retry_ends_with_the_last_attempt_witness :
  rr_result (makeRequestWithRetry down 3) = Throw econnrefused /\
  attempts (makeRequestWithRetry down 3) = 4%nat /\
  totalDelay (makeRequestWithRetry down 3) = 7000.
Proof.
  assert (H1 : (3 <= 3)%nat) by lia.
  assert (H2 : forall j, (j < 3)%nat -> failsRetryably (down j))
    by (intros j _; reflexivity).
  pose proof (X14_retry_ends_with_the_last_attempt down 3 3 H1 H2
                (or_introl eq_refl)) as X.
  cbv zeta in X. destruct X as (X1 & X2 & _ & X4).
  split; [exact X1|]. split; [exact X2|exact X4].
Defined.

(** ** The address a request is forwarded to *)

Lemma append_cons c (s1 s2 : string) :
  String c s1 +:+ s2 = String c (s1 +:+ s2).
Proof. reflexivity. Qed.

Lemma prefix_app p s : String.prefix p (p +:+ s) = true.
Proof.
  induction p as [|c p IH]; [now destruct s|].
  change (String c p +:+ s) with (String c (p +:+ s)). cbn [String.prefix].
  destruct (Ascii.ascii_dec c c) as [_|Hne]; [exact IH|congruence].
Qed.

Lemma indexOf_app p s : indexOf p (p +:+ s) = Some 0%nat.
Proof.
  destruct (p +:+ s) eqn:E; cbn [indexOf]; rewrite <- E, prefix_app;
    reflexivity.
Qed.

Lemma substring_app p s : substring (String.length p) (p +:+ s) = s.
Proof.
  induction p as [|c p IH]; [now destruct s|].
  change (String c p +:+ s) with (String c (p +:+ s)). exact IH.
Qed.

Lemma append_assoc (s1 s2 s3 : string) : (s1 +:+ s2) +:+ s3 = s1 +:+ (s2 +:+ s3).
Proof.
  induction s1 as [|c s1 IH]; [reflexivity|]. now rewrite !append_cons, IH.
Qed.

Lemma append_empty_r (s : string) : s +:+ "" = s.
Proof.
  induction s as [|c s IH]; [reflexivity|]. now rewrite append_cons, IH.
Qed.

(** Removing a pattern from a string that starts with it leaves the rest. *)
Lemma replace_prefix p rest : replace p "" (p +:+ rest) = rest.
Proof.
  unfold replace. rewrite indexOf_app. cbn [Nat.add].
  rewrite substring_app. now destruct (p +:+ rest).
Qed.

Lemma prefix_char a c s :
  String.prefix (String a "") (String c s) = Ascii.eqb a c.
Proof.
  change (String.prefix (String a "") (String c s))
    with (match Ascii.ascii_dec a c with
          | left _ => String.prefix "" s
          | right _ => false
          end).
  destruct (Ascii.ascii_dec a c) as [->|Hne].
  - rewrite Ascii.eqb_refl. now destruct s.
  - symmetry. now apply Ascii.eqb_neq.
Qed.

Lemma indexOf_cons_None p c s :
  indexOf p (String c s) = None ->
  String.prefix p (String c s) = false /\ indexOf p s = None.
Proof.
  cbn [indexOf]. destruct (String.prefix p (String c s)); [discriminate|].
  destruct (indexOf p s); [discriminate|]. now split.
Qed.

(** The query string cut from an address whose path has no question
    mark: everything from the question mark on. *)
Lemma queryString_app path query :
  indexOf "?" path = None ->
  indexOf "?" (path +:+ "?" +:+ query) = Some (String.length path) /\
  substring (String.length path) (path +:+ "?" +:+ query) = "?" +:+ query.
Proof.
  intros H. split; [|apply substring_app].
  induction path as [|c path IH]; [apply (indexOf_app "?" query)|].
  apply indexOf_cons_None in H as [H1 H2].
  change (String c path +:+ "?" +:+ query)
    with (String c (path +:+ "?" +:+ query)).
  cbn [indexOf String.length].
  rewrite prefix_char in *. now rewrite H1, (IH H2).
Qed.

(** X15. The address a request is forwarded to: for a path that starts
    with [/api/<serviceName>] and holds no question mark, it is the address
    of the service followed by the rest of the path and by the query string
    of the request, question mark included, exactly as the client sent
    them; without a query string, by the rest of the path alone. *)
Theorem X15_forwarded_address_keeps_path_and_query
    (serviceUrl serviceName rest query : string) :
  let path := "/api/" +:+ serviceName +:+ rest in
  includes "?" path = false ->
  fullUrl serviceUrl serviceName path (path +:+ "?" +:+ query)
  = serviceUrl +:+ rest +:+ "?" +:+ query /\
  fullUrl serviceUrl serviceName path path = serviceUrl +:+ rest.
Proof.
  cbv zeta. intros Hq. unfold fullUrl.
  rewrite <- (append_assoc "/api/" serviceName rest).
  rewrite replace_prefix.
  rewrite (append_assoc "/api/" serviceName rest).
  unfold includes in *.
  destruct (indexOf "?" ("/api/" +:+ serviceName +:+ rest)) eqn:E;
    [discriminate|].
  destruct (queryString_app _ query E) as [H1 H2].
  rewrite H1, H2. split.
  - apply append_assoc.
  - apply append_empty_r.
Qed.

Lemma X15_forwarded_address_keeps_path_and_query_witness :
  fullUrl "http://localhost:3001" "usuarios" "/api/usuarios/42/pagos"
    "/api/usuarios/42/pagos?estado=pendiente&pagina=2"
  = "http://localhost:3001/42/pagos?estado=pendiente&pagina=2".
Proof.
  exact (proj1 (X15_forwarded_address_keeps_path_and_query
                  "http://localhost:3001" "usuarios" "/42/pagos"
                  "estado=pendiente&pagina=2" eq_refl)).
Defined.

(** ** The stamp of the gateway *)

Lemma getMember_setMember_eq k v o : getMember k (setMember k v o) = Some v.
Proof.
  induction o as [|[k' v'] o IH]; cbn.
  - now rewrite String.eqb_refl.
  - destruct (String.eqb k' k) eqn:E; cbn; rewrite ?E; [|exact IH].
    now rewrite String.eqb_refl.
Qed.

Lemma getMember_setMember_ne k k' v o :
  k' <> k -> getMember k' (setMember k v o) = getMember k' o.
Proof.
  intros Hne. induction o as [|[k0 v0] o IH]; cbn.
  - apply String.eqb_neq in Hne. rewrite String.eqb_sym. now rewrite Hne.
  - destruct (String.eqb k0 k) eqn:E; cbn.
    + apply String.eqb_eq in E. subst k0.
      assert (String.eqb k k' = false) as ->
        by (apply String.eqb_neq; congruence).
      reflexivity.
    + destruct (String.eqb k0 k'); [reflexivity|exact IH].
Qed.

Lemma setMember_setMember k v1 v2 o :
  setMember k v2 (setMember k v1 o) = setMember k v2 o.
Proof.
  induction o as [|[k' v'] o IH]; cbn.
  - now rewrite String.eqb_refl.
  - destruct (String.eqb k' k) eqn:E; cbn; rewrite ?E.
    + now rewrite String.eqb_refl.
    + now rewrite IH.
Qed.

(** X16. [transformResponse] stamps the data of a response: the member
    [_gateway] of the result names the service, the time and the version,
    replacing a member of that name the service may have sent itself;
    every other member is passed on unchanged; and stamping a stamped
    response again only replaces the stamp. *)
Theorem X16_transformResponse_stamps_and_keeps_the_rest
    (now now' : Z) (d : Json) (serviceName serviceName' : string) :
  getMember "_gateway" (transformResponse now d serviceName)
  = Some (JObj [("service", JStr serviceName); ("timestamp", JTime now);
                ("version", JStr "1.0.0")]) /\
  (forall k, k <> "_gateway" ->
     getMember k (transformResponse now d serviceName) = getMember k d) /\
  transformResponse now' (transformResponse now d serviceName) serviceName'
  = transformResponse now' d serviceName'.
Proof.
  unfold transformResponse. split; [apply getMember_setMember_eq|]. split.
  - intros k Hk. now apply getMember_setMember_ne.
  - apply setMember_setMember.
Qed.

(** ** Authentication *)

Lemma prefix_space c s :
  String.prefix " " (String c s) = Ascii.eqb c space.
Proof.
  change " " with (String space ""). rewrite prefix_char. apply Ascii.eqb_sym.
Qed.

(** Splitting at the first space. *)
Lemma split_app scheme rest :
  includes " " scheme = false ->
  split space (scheme +:+ " " +:+ rest) = scheme :: split space rest.
Proof.
  unfold includes. intros H.
  induction scheme as [|c scheme IH]; [reflexivity|].
  destruct (indexOf " " (String c scheme)) eqn:E; [discriminate|].
  apply indexOf_cons_None in E as [E1 E2]. rewrite prefix_space in E1.
  change (String c scheme +:+ " " +:+ rest)
    with (String c (scheme +:+ " " +:+ rest)).
  cbn [split]. rewrite E1, IH; [reflexivity|]. now rewrite E2.
Qed.

Lemma split_whole s : includes " " s = false -> split space s = [s].
Proof.
  unfold includes. intros H.
  induction s as [|c s IH]; [reflexivity|].
  destruct (indexOf " " (String c s)) eqn:E; [discriminate|].
  apply indexOf_cons_None in E as [E1 E2]. rewrite prefix_space in E1.
  cbn [split]. rewrite E1, IH; [reflexivity|]. now rewrite E2.
Qed.

Lemma append_nonempty (s1 s2 : string) : s2 <> "" -> s1 +:+ s2 <> "".
Proof. destruct s1; [auto|rewrite append_cons; discriminate]. Qed.

(** The token of a header: what stands between its first space and its
    second, if any. *)
Lemma tokenOf_header scheme token tail :
  includes " " scheme = false ->
  includes " " token = false ->
  tail = "" \/ (exists more, tail = " " +:+ more) ->
  tokenOf (Some (scheme +:+ " " +:+ token +:+ tail)) = Some token.
Proof.
  intros Hs Ht Htail. unfold tokenOf.
  assert (String.eqb (scheme +:+ " " +:+ token +:+ tail) "" = false) as ->.
  { apply String.eqb_neq, append_nonempty. discriminate. }
  rewrite split_app by exact Hs. cbn [nth_error].
  destruct Htail as [->|[more ->]].
  - now rewrite append_empty_r, split_whole.
  - now rewrite split_app.
Qed.

(** X17. Outside the public routes, the ['auth'] middleware takes the token
    to be what stands between the first space of the Authorization header
    and the next one, whatever stands before it: the scheme is not looked
    at, and need not be [Bearer]. That token is passed to [jwt.verify]
    once; if it is accepted the chain goes on with the decoded payload as
    [req.user], and if not the answer is 403 with the message of the
    error. *)
Theorem X17_auth_verifies_the_second_word
    (verify : string -> JwtVerdict) (req : Request)
    (scheme token tail : string) :
  existsb (String.eqb (req_path req)) publicRoutes = false ->
  req_authorization req = Some (scheme +:+ " " +:+ token +:+ tail) ->
  includes " " scheme = false ->
  includes " " token = false ->
  token <> "" ->
  tail = "" \/ (exists more, tail = " " +:+ more) ->
  auth verify req =
  match verify token with
  | Decoded payload =>
      {| auth_step := CallsNext; auth_user := Some payload;
         auth_verified := [token] |}
  | Invalid message =>
      {| auth_step := Responds (tokenRejected message); auth_user := None;
         auth_verified := [token] |}
  end.
Proof.
  intros Hpath Hauth Hs Ht Hne Htail. unfold auth.
  rewrite Hpath, Hauth, (tokenOf_header _ _ _ Hs Ht Htail).
  apply String.eqb_neq in Hne. now rewrite Hne.
Qed.

Lemma X17_auth_verifies_the_second_word_witness :
  auth_step (auth verifyGood
               {| req_method := "GET"; req_path := "/api/pagos/7";
                  req_ip := Some "10.0.0.7";
                  req_authorization := Some ("Basic" +:+ " " +:+ goodToken +:+ "") |})
  = CallsNext.
Proof.
  rewrite (X17_auth_verifies_the_second_word verifyGood _ "Basic" goodToken "").
  - reflexivity.
  - reflexivity.
  - reflexivity.
  - reflexivity.
  - reflexivity.
  - discriminate.
  - now left.
Defined.

(** X18. The ['auth'] middleware passes every request for a public route
    without looking at its Authorization header: nothing is verified and
    [req.user] is not set, even if the request carries a token. Outside the
    public routes, a request without the header, or with a header that
    holds no space (a bare token, say), is answered 401 without a call of
    [jwt.verify]. *)
Theorem X18_auth_public_routes_and_missing_tokens
    (verify : string -> JwtVerdict) (req : Request) :
  (In (req_path req) publicRoutes ->
   auth verify req
   = {| auth_step := CallsNext; auth_user := None; auth_verified := [] |}) /\
  (~ In (req_path req) publicRoutes ->
   (req_authorization req = None \/
    exists header, req_authorization req = Some header /\
                   includes " " header = false) ->
   auth verify req
   = {| auth_step := Responds tokenRequired; auth_user := None;
        auth_verified := [] |}).
Proof.
  unfold auth. split.
  - intros Hin.
    assert (existsb (String.eqb (req_path req)) publicRoutes = true) as ->.
    { apply existsb_exists. exists (req_path req).
      split; [exact Hin|apply String.eqb_refl]. }
    reflexivity.
  - intros Hnot Hheader.
    assert (existsb (String.eqb (req_path req)) publicRoutes = false) as ->.
    { destruct (existsb _ publicRoutes) eqn:E; [|reflexivity].
      exfalso. apply Hnot. apply existsb_exists in E as (x & Hx & Heq).
      apply String.eqb_eq in Heq. now subst. }
    destruct Hheader as [->|(header & -> & Hsp)]; [reflexivity|].
    unfold tokenOf. destruct (String.eqb header "") eqn:E; [reflexivity|].
    now rewrite (split_whole _ Hsp).
Qed.

Lemma X18_auth_public_routes_and_missing_tokens_witness :
  auth verifyGood
    {| req_method := "GET"; req_path := "/api/pagos/7";
       req_ip := Some "10.0.0.7"; req_authorization := Some goodToken |}
  = {| auth_step := Responds tokenRequired; auth_user := None;
       auth_verified := [] |}.
Proof.
  apply (proj2 (X18_auth_public_routes_and_missing_tokens verifyGood _)).
  - cbn. intuition discriminate.
  - right. exists goodToken. split; reflexivity.
Defined.

(** ** The middleware chain *)

Lemma executeMiddleware_app entries1 entries2 now req g :
  executeMiddleware (entries1 ++ entries2) now req g =
  match executeMiddleware entries1 now req g with
  | (ReachedHandler, ran1, g1) =>
      match executeMiddleware entries2 now req g1 with
      | (chainEnd, ran2, g2) => (chainEnd, ran1 ++ ran2, g2)
      end
  | r => r
  end.
Proof.
  revert g. induction entries1 as [|[n middleware] entries1 IH]; intros g.
  - cbn. now destruct (executeMiddleware entries2 now req g) as [[e ran] g2].
  - cbn [app executeMiddleware].
    destruct (middleware now req g) as [[|reply] g1]; [|reflexivity].
    rewrite IH.
    destruct (executeMiddleware entries1 now req g1) as [[[|reply] ran1] g2];
      [|reflexivity].
    now destruct (executeMiddleware entries2 now req g2) as [[e ran2] g3].
Qed.

(** X19. The chain runs the entries of [this.middleware] in the order in
    which they were added, each on the gateway as the one before left it,
    and stops at the first that writes a response: the entries that ran
    are a beginning of the list, all of it if the handler is reached, and
    not empty if a response was written. An entry added by [addMiddleware]
    changes nothing in what the others do; it runs after them, if and only
    if all of them called [next()]. *)
Theorem X19_chain_runs_in_order_until_a_response
    (entries : list (string * Middleware)) (n : string)
    (middleware : Middleware) (now : Z) (req : Request) (g : GatewayService) :
  let r := executeMiddleware entries now req g in
  (exists rest, map fst entries = snd (fst r) ++ rest) /\
  match fst (fst r) with
  | ReachedHandler => snd (fst r) = map fst entries
  | ShortCircuited _ => snd (fst r) <> []
  end /\
  executeMiddleware (addMiddleware n middleware entries) now req g =
  match r with
  | (ReachedHandler, ran, g1) =>
      match middleware now req g1 with
      | (CallsNext, g2) => (ReachedHandler, ran ++ [n], g2)
      | (Responds reply, g2) => (ShortCircuited reply, ran ++ [n], g2)
      end
  | _ => r
  end.
Proof.
  cbv zeta. split; [|split].
  - revert g. induction entries as [|[n0 m0] entries IH]; intros g.
    + now exists [].
    + cbn [executeMiddleware map fst].
      destruct (m0 now req g) as [[|reply] g1].
      * destruct (IH g1) as [rest Hrest].
        destruct (executeMiddleware entries now req g1) as [[e ran] g2].
        cbn [fst snd] in *. exists rest. now rewrite Hrest.
      * cbn. now exists (map fst entries).
  - revert g. induction entries as [|[n0 m0] entries IH]; intros g.
    + reflexivity.
    + cbn [executeMiddleware map fst].
      destruct (m0 now req g) as [[|reply] g1]; [|discriminate].
      specialize (IH g1).
      destruct (executeMiddleware entries now req g1) as [[[|reply] ran] g2];
        cbn [fst snd] in *; [now rewrite IH|discriminate].
  - unfold addMiddleware. rewrite executeMiddleware_app.
    destruct (executeMiddleware entries now req g) as [[[|reply] ran] g1];
      [|reflexivity].
    cbn [executeMiddleware].
    now destruct (middleware now req g1) as [[|reply] g2].
Qed.

(** The default chain: the rate limiter comes before authentication. *)
Lemma defaultMiddleware_run verify now req g :
  executeMiddleware (defaultMiddleware verify) now req g =
  match rateLimit now req g with
  | (CallsNext, g1) =>
      (match auth_step (auth verify req) with
       | CallsNext => ReachedHandler
       | Responds reply => ShortCircuited reply
       end, ["logging"; "rateLimit"; "auth"], g1)
  | (Responds reply, g1) => (ShortCircuited reply, ["logging"; "rateLimit"], g1)
  end.
Proof.
  unfold defaultMiddleware, addMiddleware.
  cbn [app executeMiddleware logging authEntry].
  destruct (rateLimit now req g) as [[|reply] g1]; [|reflexivity].
  now destruct (auth_step (auth verify req)).
Qed.

(** Requests that pass the rate limiter and are refused by authentication:
    the gateway is left as the rate limiter alone leaves it. *)
Lemma executeMiddlewareAll_unauthenticated verify times req g reply :
  auth_step (auth verify req) = Responds reply ->
  fst (rateLimitAll times req g) = repeat CallsNext (length times) ->
  executeMiddlewareAll (defaultMiddleware verify) times req g
  = (repeat (ShortCircuited reply) (length times),
     snd (rateLimitAll times req g)).
Proof.
  intros Hauth. revert g. induction times as [|t times IH]; intros g Hpass.
  - reflexivity.
  - cbn [executeMiddlewareAll rateLimitAll length repeat] in *.
    rewrite defaultMiddleware_run, Hauth.
    destruct (rateLimit t req g) as [step g1].
    destruct (rateLimitAll times req g1) as [steps g2] eqn:Hrest.
    cbn [fst snd] in *. inversion Hpass as [[Hstep Hsteps]].
    rewrite IH by (now rewrite Hrest). now rewrite Hrest.
Qed.

(** X20. In the default chain the rate limiter runs before authentication,
    so requests that authentication refuses use up the quota of their
    client: after 100 requests of a client in one window that were all
    answered 401 or 403, any request of that client up to the end of the
    window is answered 429 by the rate limiter, whatever token it carries,
    and authentication is not run for it. *)
Theorem X20_refused_requests_use_up_the_quota
    (verify : string -> JwtVerdict) (g : GatewayService) (req : Request)
    (reply : Reply) (t0 : Z) (times : list Z) :
  startsWindow t0 req g ->
  length times = 99%nat ->
  Forall (fun t => t <= t0 + windowMs) times ->
  auth_step (auth verify req) = Responds reply ->
  let r := executeMiddlewareAll (defaultMiddleware verify) (t0 :: times) req g in
  fst r = repeat (ShortCircuited reply) 100 /\
  forall t req', t <= t0 + windowMs ->
    clientIdOf req' = clientIdOf req ->
    executeMiddleware (defaultMiddleware verify) t req' (snd r)
    = (ShortCircuited (tooManyRequests t (t0 + windowMs)),
       ["logging"; "rateLimit"], snd r).
Proof.
  intros Hstart Hlen Hall Hauth. cbv zeta.
  assert (Hrate :
    fst (rateLimitAll (t0 :: times) req g) = repeat CallsNext 100 /\
    rateLimitStore (snd (rateLimitAll (t0 :: times) req g)) !! clientIdOf req
    = Some {| count := 100; resetTime := t0 + windowMs |}).
  { cbn [rateLimitAll].
    rewrite (rateLimit_startsWindow req t0 g Hstart).
    set (g0 := set_rateLimitStore _ g).
    assert (Hk0 : rateLimitStore g0 !! clientIdOf req
                  = Some {| count := 1; resetTime := t0 + windowMs |})
      by (subst g0; cbn; apply lookup_insert_eq).
    destruct (rateLimitAll_below_cap req times g0 1 (t0 + windowMs) Hk0 Hall)
      as [H1 H2].
    { rewrite Hlen. unfold maxRequests. lia. }
    rewrite Hlen in H1, H2. change (1 + Z.of_nat 99) with 100 in H2.
    destruct (rateLimitAll times req g0) as [steps g1]. cbn [fst snd] in *.
    split; [now rewrite H1|exact H2]. }
  destruct Hrate as [Hpass Hstore].
  rewrite (executeMiddlewareAll_unauthenticated verify (t0 :: times) req g reply)
    by (try exact Hauth; cbn [length]; now rewrite Hlen).
  cbn [fst snd length]. rewrite Hlen. split; [reflexivity|].
  intros t req' Ht Hclient.
  rewrite defaultMiddleware_run.
  rewrite (rateLimit_at_cap req' t _ 100 (t0 + windowMs)).
  - reflexivity.
  - now rewrite Hclient.
  - exact Ht.
  - unfold maxRequests. lia.
Qed.

Lemma X20_refused_requests_use_up_the_quota_witness :
  fst (executeMiddlewareAll (defaultMiddleware verifyGood) (0 :: repeat 5 99)
         sampleRequest (newGatewayService 0))
  = repeat (ShortCircuited tokenRequired) 100.
Proof.
  assert (H1 : startsWindow 0 sampleRequest (newGatewayService 0))
    by (vm_compute; exact I).
  assert (H3 : Forall (fun t => t <= 0 + windowMs) (repeat 5 99)).
  { apply Forall_forall. intros t Ht.
    apply list_elem_of_In, repeat_spec in Ht. subst t.
    vm_compute. discriminate. }
  exact (proj1 (X20_refused_requests_use_up_the_quota verifyGood
                  (newGatewayService 0) sampleRequest tokenRequired 0
                  (repeat 5 99) H1 eq_refl H3 eq_refl)).
Defined.

(** ** The rate limiter and its clients *)

(** The rate limiter reads and writes the entry of the client of the
    request, and nothing else. *)
Lemma rateLimit_frame now req g k :
  k <> clientIdOf req ->
  rateLimitStore (snd (rateLimit now req g)) !! k = rateLimitStore g !! k.
Proof.
  intros Hk. unfold rateLimit.
  destruct (maxRequests <=? _); cbn; now rewrite lookup_insert_ne.
Qed.

Lemma rateLimit_local now req g g' :
  rateLimitStore g !! clientIdOf req = rateLimitStore g' !! clientIdOf req ->
  fst (rateLimit now req g) = fst (rateLimit now req g') /\
  rateLimitStore (snd (rateLimit now req g)) !! clientIdOf req
  = rateLimitStore (snd (rateLimit now req g')) !! clientIdOf req.
Proof.
  intros H. unfold rateLimit. rewrite H.
  destruct (maxRequests <=? _); cbn; now rewrite !lookup_insert_eq.
Qed.

Lemma rateLimit_keeps_the_rest now req g :
  services (snd (rateLimit now req g)) = services g /\
  circuitBreakerManager (snd (rateLimit now req g)) = circuitBreakerManager g.
Proof. unfold rateLimit. now destruct (maxRequests <=? _). Qed.

Lemma rateLimitEach_local client arrivals g g' :
  rateLimitStore g !! client = rateLimitStore g' !! client ->
  stepsOf client arrivals (fst (rateLimitEach arrivals g))
  = fst (rateLimitEach (arrivalsOf client arrivals) g').
Proof.
  revert g g'. induction arrivals as [|[now req] arrivals IH]; intros g g' H.
  - reflexivity.
  - cbn [rateLimitEach]. unfold arrivalsOf, stepsOf in *.
    destruct (rateLimit now req g) as [step g1] eqn:H1.
    destruct (rateLimitEach arrivals g1) as [steps g2] eqn:H2.
    cbn [fst zip zip_with]. rewrite !filter_cons. cbn [fst snd].
    destruct (decide (clientIdOf req = client)) as [Heq|Hne].
    + subst client. cbn [map snd rateLimitEach].
      destruct (rateLimit_local now req g g' H) as [Hstep Hstore].
      rewrite H1 in Hstep, Hstore. cbn [fst snd] in Hstep, Hstore.
      destruct (rateLimit now req g') as [step' g1'] eqn:H1'.
      cbn [fst snd] in Hstep, Hstore. subst step'.
      specialize (IH g1 g1' Hstore). rewrite H2 in IH. cbn [fst] in IH.
      destruct (rateLimitEach _ g1') as [steps' g2']. cbn [fst] in *.
      now rewrite IH.
    + specialize (IH g1 g'). rewrite H2 in IH. cbn [fst] in IH.
      apply IH.
      pose proof (rateLimit_frame now req g client) as Hf.
      rewrite H1 in Hf. cbn [snd] in Hf. rewrite Hf by congruence. exact H.
Qed.

(** X21. Rate limiting is per client: what the rate limiter answers to the
    requests of one client among the requests of all the others is what
    it answers to those requests alone. *)
Theorem X21_rate_limit_verdicts_depend_on_own_requests
    (client : string) (arrivals : list (Z * Request)) (g : GatewayService) :
  stepsOf client arrivals (fst (rateLimitEach arrivals g))
  = fst (rateLimitEach (arrivalsOf client arrivals) g).
Proof. now apply rateLimitEach_local. Qed.

Lemma withinCap_rateLimit now req g :
  withinCap g -> withinCap (snd (rateLimit now req g)).
Proof.
  intros Hcap client entry. unfold rateLimit.
  destruct (rateLimitStore g !! clientIdOf req) as [[c r]|] eqn:E; cbn.
  - pose proof (Hcap _ _ E) as Hc. cbn in Hc.
    destruct (r <? now); cbn;
      repeat match goal with
             | |- context [Z.leb ?a ?b] => destruct (Z.leb_spec a b); cbn
             end;
      intros Hlook; apply lookup_insert_Some in Hlook as [[_ <-]|[_ Hlook]];
      cbn; unfold maxRequests in *; try lia; exact (Hcap _ _ Hlook).
  - destruct (now + windowMs <? now); cbn;
      intros Hlook; apply lookup_insert_Some in Hlook as [[_ <-]|[_ Hlook]];
      cbn; unfold maxRequests in *; try lia; exact (Hcap _ _ Hlook).
Qed.

Lemma rateLimit_remembers now req g k :
  is_Some (rateLimitStore g !! k) \/ k = clientIdOf req ->
  is_Some (rateLimitStore (snd (rateLimit now req g)) !! k).
Proof.
  intros H. destruct (decide (k = clientIdOf req)) as [->|Hne].
  - unfold rateLimit. destruct (maxRequests <=? _); cbn;
      rewrite lookup_insert_eq; eauto.
  - rewrite rateLimit_frame by exact Hne. now destruct H.
Qed.

(** X22. The rate limiter never removes an entry from its store: every
    client that was in the store, and every client that has sent a
    request since, is in it afterwards (the store only grows). The count
    of every entry stays between 0 and the cap of 100, and nothing but the
    store is changed in the gateway. *)
Theorem X22_rate_limit_store_only_grows
    (arrivals : list (Z * Request)) (g : GatewayService) :
  withinCap g ->
  let g' := snd (rateLimitEach arrivals g) in
  withinCap g' /\
  (forall k, is_Some (rateLimitStore g !! k) ->
             is_Some (rateLimitStore g' !! k)) /\
  (forall a, a ∈ arrivals -> is_Some (rateLimitStore g' !! clientIdOf (snd a))) /\
  services g' = services g /\
  circuitBreakerManager g' = circuitBreakerManager g.
Proof.
  revert g. induction arrivals as [|[now req] arrivals IH]; intros g Hcap;
    cbv zeta.
  - cbn. split; [exact Hcap|]. split; [auto|]. split; [|now split].
    intros a Ha. now apply elem_of_nil in Ha.
  - cbn [rateLimitEach].
    pose proof (withinCap_rateLimit now req g Hcap) as Hcap1.
    pose proof (rateLimit_remembers now req g) as Hmem.
    destruct (rateLimit_keeps_the_rest now req g) as [Hs Hm].
    destruct (rateLimit now req g) as [step g1]. cbn [snd] in *.
    specialize (IH g1 Hcap1). cbv zeta in IH.
    destruct (rateLimitEach arrivals g1) as [steps g2]. cbn [snd] in *.
    destruct IH as (IH1 & IH2 & IH3 & IH4 & IH5).
    split; [exact IH1|]. split; [|split; [|split; congruence]].
    + intros k Hk. apply IH2, Hmem. now left.
    + intros a Ha. apply elem_of_cons in Ha as [->|Ha].
      * apply IH2, Hmem. now right.
      * now apply IH3.
Qed.

Lemma X22_rate_limit_store_only_grows_witness :
  is_Some (rateLimitStore
             (snd (rateLimitEach [(0, sampleRequest); (1000000, sampleRequest)]
                     (newGatewayService 0))) !! "10.0.0.7").
Proof.
  assert (Hcap : withinCap (newGatewayService 0)).
  { intros client entry H. cbn in H. now rewrite lookup_empty in H. }
  pose proof (X22_rate_limit_store_only_grows
                [(0, sampleRequest); (1000000, sampleRequest)]
                (newGatewayService 0) Hcap) as X.
  cbv zeta in X. destruct X as (_ & _ & X3 & _).
  apply (X3 (0, sampleRequest)). apply list_elem_of_here.
Defined.

(** ** Requests for a configured service *)

Lemma quietCallbacks_sameSettings b b' :
  sameSettings b b' -> quietCallbacks b -> quietCallbacks b'.
Proof.
  intros Hsame (Hq & Hf & Hs).
  split; [now apply (quietHook_sameSettings b)|].
  destruct Hsame as (_&_&_&_&_&_&Hf'&Hs'). now rewrite Hf', Hs'.
Qed.

(** With an observer that does not throw, the promise of
    [executeWithTimeout] settles as the race of the call and the timer
    decides. *)
Lemma executeWithTimeout_settlesAs now call b :
  quietHook b -> outcomeOf (executeWithTimeout now call b) = settlesAs b call.
Proof.
  intros Hq. unfold settlesAs.
  destruct (timesOut b call) eqn:Hto.
  { now rewrite executeWithTimeout_timesOut. }
  destruct call as [result dt|error dt| |error]; cbn in Hto;
    try discriminate Hto; try apply Z.leb_gt in Hto.
  - rewrite executeWithTimeout_resolves by assumption.
    now rewrite (recordSuccess_quiet _ _ Hq).
  - rewrite executeWithTimeout_rejects by assumption. cbv zeta.
    now rewrite outcomeOf_run, (recordFailure_quiet _ _ Hq).
  - now rewrite executeWithTimeout_throwsSync.
Qed.

(** With callbacks that return, the [try] statement of [execute] ends as
    the promise of [executeWithTimeout] does. *)
Lemma guardedCall_quiet now call b :
  quietCallbacks b ->
  outcomeOf (guardedCall now call b) = settlesAs b call.
Proof.
  intros Hqc.
  pose proof (quietCallbacks_sameSettings _ _
                (sameSettings_executeWithTimeout now call b) Hqc)
    as (_ & (f & Hf & Hfr) & (s & Hs & Hsr)).
  destruct Hqc as (Hq & _).
  rewrite guardedCall_run. cbv zeta.
  rewrite <- (executeWithTimeout_settlesAs now call b Hq).
  destruct (outcomeOf (executeWithTimeout now call b)) as [result|e|] eqn:Ho.
  - rewrite callOnSuccess_run, Hs, Hsr. reflexivity.
  - rewrite outcomeOf_run. unfold rethrown. now rewrite Hf, Hfr.
  - exact Ho.
Qed.

Lemma settlesAs_sameSettings b b' call :
  sameSettings b b' -> settlesAs b' call = settlesAs b call.
Proof.
  intros Hsame. unfold settlesAs, timeoutMessage.
  rewrite (timesOut_sameSettings b b' call Hsame).
  destruct Hsame as (Hn&_&Ht&_). now rewrite Hn, Ht.
Qed.

(** A call that [execute] lets through, on a breaker whose callbacks
    return: the caller sees how the race of the call and the timer ended,
    and the wrapped function has been called once. *)
Lemma execute_quiet now call b :
  quietCallbacks b ->
  letsThrough now b = true ->
  outcomeOf (execute now call b) = settlesAs b call /\
  callsMade (eventsOf (execute now call b)) = 1%nat.
Proof.
  intros Hqc Hlet.
  rewrite (execute_let_through now call b (proj1 Hqc) Hlet). cbv zeta.
  set (b0 := if State_eqb (state b) OPEN
             then transition now HALF_OPEN (countRequest b)
             else countRequest b).
  assert (Hsame : sameSettings b b0)
    by (subst b0; destruct (State_eqb (state b) OPEN); auto with settings).
  rewrite outcomeOf_run, eventsOf_run. split.
  - rewrite guardedCall_quiet
      by (eapply quietCallbacks_sameSettings; [exact Hsame|exact Hqc]).
    now apply settlesAs_sameSettings.
  - rewrite callsMade_app, callsMade_guardedCall.
    destruct (State_eqb (state b) OPEN);
      [now rewrite callsMade_notifyEvents|reflexivity].
Qed.

(** [processRequest] for a configured service whose breaker is in the map
    of the manager: the request goes through that breaker, which is put
    back as [execute] leaves it. *)
Lemma processRequest_configured now replyTime axios n req g service b :
  services g !! n = Some service ->
  breakers (circuitBreakerManager g) !! n = Some b ->
  processRequest now replyTime axios n req g =
  let r := execute now
             (callOf (makeRequestWithRetry axios (service_retries service))) b in
  {| reply :=
       match outcomeOf r with
       | Normal response =>
           Some {| statusCode := status response;
                   body := transformResponse replyTime (data response) n |}
       | Throw error => Some (errorReply replyTime n error)
       | Pending => None
       end;
     gateway :=
       set_circuitBreakerManager
         (setBreaker n (breakerOf r) (circuitBreakerManager g)) g;
     visible := eventsOf r |}.
Proof.
  intros Hs Hb. unfold processRequest, lookupService, getBreaker.
  rewrite Hs, Hb. cbn [makeServiceRequest]. cbv zeta.
  now destruct (execute now _ b) as [[o b'] l].
Qed.

(** X23. A request for a configured service goes through the breaker that
    was made for the service when the gateway was constructed: no breaker
    is created, the breakers of the other services, the services and the
    store of the rate limiter are left as they were, the settings of the
    breaker stay, and the wrapped request function is called at most
    once. The counts in [this.globalMetrics] are not refreshed, whatever
    happens to the breaker. *)
Theorem X23_processRequest_goes_through_its_own_breaker
    (now replyTime : Z) (axios : nat -> AxiosOutcome) (n : string)
    (req : Request) (g : GatewayService) (service : ServiceConfig)
    (b : CircuitBreaker) :
  services g !! n = Some service ->
  breakers (circuitBreakerManager g) !! n = Some b ->
  let p := processRequest now replyTime axios n req g in
  let call := callOf (makeRequestWithRetry axios (service_retries service)) in
  breakers (circuitBreakerManager (gateway p)) !! n
  = Some (breakerOf (execute now call b)) /\
  sameSettings b (breakerOf (execute now call b)) /\
  (forall k, k <> n ->
     breakers (circuitBreakerManager (gateway p)) !! k
     = breakers (circuitBreakerManager g) !! k) /\
  size (breakers (circuitBreakerManager (gateway p)))
  = size (breakers (circuitBreakerManager g)) /\
  globalMetrics (circuitBreakerManager (gateway p))
  = globalMetrics (circuitBreakerManager g) /\
  services (gateway p) = services g /\
  rateLimitStore (gateway p) = rateLimitStore g /\
  (callsMade (visible p) <= 1)%nat.
Proof.
  intros Hs Hb. cbv zeta.
  rewrite (processRequest_configured _ _ _ _ _ _ _ _ Hs Hb). cbv zeta.
  cbn [gateway visible set_circuitBreakerManager circuitBreakerManager
       setBreaker breakers globalMetrics services rateLimitStore].
  split; [apply lookup_insert_eq|].
  split; [apply sameSettings_execute|].
  split; [intros k Hk; now apply lookup_insert_ne|].
  split; [apply map_size_insert_Some; now exists b|].
  repeat split.
  rewrite execute_run.
  destruct (State_eqb (state b) OPEN);
    [destruct (shouldAttemptReset now b)|].
  - rewrite bind_run.
    pose proof (callsMade_setState now HALF_OPEN (countRequest b)) as H0.
    destruct (outcomeOf (setState now HALF_OPEN (countRequest b)));
      cbn [eventsOf snd]; rewrite ?callsMade_app, ?callsMade_guardedCall, H0;
      lia.
  - cbn. lia.
  - rewrite callsMade_guardedCall. lia.
Qed.

Lemma X23_processRequest_goes_through_its_own_breaker_witness :
  size (breakers (circuitBreakerManager
                    (gateway (processRequest 10 12 down "usuarios" sampleRequest
                                (newGatewayService 0)))))
  = size (breakers (circuitBreakerManager (newGatewayService 0))).
Proof.
  assert (Hs : services (newGatewayService 0) !! "usuarios"
               = Some usuariosConfig) by reflexivity.
  pose proof (X23_processRequest_goes_through_its_own_breaker 10 12 down
                "usuarios" sampleRequest (newGatewayService 0) usuariosConfig
                _ Hs (newGatewayService_breaker 0 _ _ Hs)) as X.
  cbv zeta in X. exact (proj1 (proj2 (proj2 (proj2 X)))).
Defined.

(** *** What the client is answered *)

Lemma httpError_not_retryable error :
  httpError 400 499 error -> isRetryableError error = false.
Proof.
  intros (response & Hr & Hs). unfold isRetryableError. rewrite Hr.
  apply Z.leb_gt. lia.
Qed.

Lemma makeRequestWithRetry_not_retried axios retries error dt :
  axios 0%nat = AxiosRejects error dt ->
  isRetryableError error = false ->
  makeRequestWithRetry axios retries =
  {| rr_result := Throw error; rr_events := [Attempt 0]; rr_elapsed := dt |}.
Proof.
  intros H0 Hno. unfold makeRequestWithRetry.
  destruct retries as [|fuel]; cbn [retryLoop]; rewrite H0; [reflexivity|].
  now rewrite Hno, andb_false_r.
Qed.

Lemma makeRequestWithRetry_first_success axios retries response dt :
  axios 0%nat = AxiosResolves response dt ->
  makeRequestWithRetry axios retries =
  {| rr_result := Normal response; rr_events := [Attempt 0];
     rr_elapsed := dt |}.
Proof.
  intros H0. unfold makeRequestWithRetry.
  destruct retries as [|fuel]; cbn [retryLoop]; now rewrite H0.
Qed.

(** The breaker on which the wrapped call is made when [execute] lets it
    through. *)
Lemma breakerOf_execute_let_through now call b :
  quietHook b ->
  letsThrough now b = true ->
  exists b0,
    breakerOf (execute now call b) = breakerOf (executeWithTimeout now call b0) /\
    sameSettings b b0 /\
    failures b0 = failures b /\
    failedRequests (metrics b0) = failedRequests (metrics b) /\
    successes b0 = successes b /\
    state b0 <> OPEN.
Proof.
  intros Hq Hlet.
  rewrite (execute_let_through now call b Hq Hlet). cbv zeta.
  rewrite breakerOf_run, breakerOf_guardedCall.
  eexists. split; [reflexivity|].
  destruct (State_eqb_spec (state b) OPEN) as [Hst|Hst].
  - split; [auto with settings|].
    break_breaker b. destruct me. cbn. repeat split. discriminate.
  - split; [auto with settings|].
    break_breaker b. destruct me. cbn in *. repeat split. exact Hst.
Qed.

Lemma failures_recordFailure now b :
  failures (breakerOf (recordFailure now b)) = failures b + 1 /\
  failedRequests (metrics (breakerOf (recordFailure now b)))
  = failedRequests (metrics b) + 1.
Proof.
  rewrite breakerOf_recordFailure, breakerOf_setState.
  break_breaker b. destruct me. cbn.
  destruct (thr <=? fl + 1); [destruct st|]; cbn; split; reflexivity.
Qed.

Lemma errorReply_relays replyTime n error response :
  fromAxios error ->
  eresponse error = Some response ->
  errorReply replyTime n error =
  {| statusCode := status response;
     body := [("error", JStr "Error en microservicio");
              ("service", JStr n);
              ("message",
                match getMember "error" (data response) with
                | Some v => if truthy v then v else JStr (emessage error)
                | None => JStr (emessage error)
                end);
              ("timestamp", JTime replyTime)] |}.
Proof.
  intros [H1 H2] Hr. unfold errorReply.
  destruct (String.eqb_spec (ename error) "CircuitBreakerOpenError");
    [contradiction|].
  destruct (String.eqb_spec (ename error) "CircuitBreakerTimeoutError");
    [contradiction|].
  now rewrite Hr.
Qed.

(** X24. A client error of the service (status 400 to 499) that arrives
    before the timer of the breaker is not retried and is relayed to the
    client with the status of the service, and it is counted by the
    breaker as a failure like any other. *)
Theorem X24_client_error_is_relayed_and_counted
    (now replyTime : Z) (axios : nat -> AxiosOutcome) (n : string)
    (req : Request) (g : GatewayService) (service : ServiceConfig)
    (b : CircuitBreaker) (error : JsError) (response : AxiosResponse)
    (dt : Z) :
  services g !! n = Some service ->
  breakers (circuitBreakerManager g) !! n = Some b ->
  quietCallbacks b ->
  letsThrough now b = true ->
  axios 0%nat = AxiosRejects error dt ->
  eresponse error = Some response ->
  400 <= status response <= 499 ->
  fromAxios error ->
  dt < timerDelay (timeout b) ->
  let p := processRequest now replyTime axios n req g in
  reply p = Some (errorReply replyTime n error) /\
  option_map statusCode (reply p) = Some (status response) /\
  callsMade (visible p) = 1%nat /\
  exists b',
    breakers (circuitBreakerManager (gateway p)) !! n = Some b' /\
    failures b' = failures b + 1 /\
    failedRequests (metrics b') = failedRequests (metrics b) + 1.
Proof.
  intros Hs Hb Hqc Hlet H0 Hr Hst Hax Hdt. cbv zeta.
  rewrite (processRequest_configured _ _ _ _ _ _ _ _ Hs Hb). cbv zeta.
  rewrite (makeRequestWithRetry_not_retried axios _ error dt H0)
    by (apply httpError_not_retryable; now exists response).
  change (callOf _) with (Rejects error dt).
  destruct (execute_quiet now (Rejects error dt) b Hqc Hlet) as [Hout Hcalls].
  assert (Hsettle : settlesAs b (Rejects error dt) = Throw error).
  { unfold settlesAs. cbn [timesOut].
    destruct (Z.leb_spec (timerDelay (timeout b)) dt); [lia|reflexivity]. }
  rewrite Hout, Hsettle. cbn [reply visible gateway].
  split; [reflexivity|].
  split; [now rewrite (errorReply_relays _ _ _ _ Hax Hr)|].
  split; [exact Hcalls|].
  destruct (breakerOf_execute_let_through now (Rejects error dt) b
              (proj1 Hqc) Hlet) as (b0 & Hb0 & Hsame & Hf & Hfr & _ & _).
  eexists. split; [cbn; apply lookup_insert_eq|].
  rewrite Hb0, breakerOf_executeWithTimeout_rejects
    by (destruct Hsame as (_&_&Ht&_); now rewrite Ht).
  destruct (failures_recordFailure (now + dt) b0) as [H1 H2].
  now rewrite H1, H2, Hf, Hfr.
Qed.

Lemma X24_client_error_is_relayed_and_counted_witness :
  option_map statusCode
    (reply (processRequest 10 12 notFound "usuarios" sampleRequest
              (newGatewayService 0)))
  = Some 404.
Proof.
  assert (Hs : services (newGatewayService 0) !! "usuarios"
               = Some usuariosConfig) by reflexivity.
  assert (Hst : 400 <= 404 <= 499) by lia.
  assert (Hax : fromAxios http404) by (split; discriminate).
  assert (Hdt : 9 < timerDelay (timeout (gatewayBreaker 0 "usuarios"
                                            usuariosConfig)))
    by reflexivity.
  pose proof (X24_client_error_is_relayed_and_counted 10 12 notFound
                "usuarios" sampleRequest (newGatewayService 0) usuariosConfig
                _ http404 _ 9 Hs (newGatewayService_breaker 0 _ _ Hs)
                (gatewayBreaker_quietCallbacks 0 _ _) eq_refl eq_refl eq_refl
                Hst Hax Hdt) as X.
  cbv zeta in X. exact (proj1 (proj2 X)).
Defined.

(** The gateway after requests for one configured service: its breaker has
    gone through the calls of [execute] one after the other. *)
Lemma processAll_configured runs n req g service b :
  services g !! n = Some service ->
  breakers (circuitBreakerManager g) !! n = Some b ->
  let g' := snd (processAll runs n req g) in
  services g' !! n = Some service /\
  breakers (circuitBreakerManager g') !! n
  = Some (executeAll
            (map (fun run =>
                    (fst (fst run),
                     callOf (makeRequestWithRetry (snd run)
                               (service_retries service)))) runs) b).
Proof.
  revert g b. induction runs as [|[[now replyTime] axios] runs IH];
    intros g b Hs Hb; cbv zeta.
  - now split.
  - cbn [processAll map executeAll fst snd].
    rewrite (processRequest_configured _ _ _ _ _ _ _ _ Hs Hb). cbv zeta.
    cbn [gateway reply].
    set (b1 := breakerOf (execute now _ b)).
    set (g1 := set_circuitBreakerManager _ g).
    specialize (IH g1 b1). cbv zeta in IH.
    destruct (processAll runs n req g1) as [replies g2]. cbn [snd] in *.
    apply IH.
    + exact Hs.
    + subst g1. cbn. apply lookup_insert_eq.
Qed.

(** As many failed calls in a row as the threshold asks for open a CLOSED
    breaker that had no failure counted. *)
Lemma executeAll_opens calls b :
  state b = CLOSED ->
  failures b = 0 ->
  0 < failureThreshold b ->
  Z.of_nat (length calls) = failureThreshold b ->
  Forall (fun c => rejectsInTime b (snd c) = true) calls ->
  state (executeAll calls b) = OPEN /\
  exists t, nextAttemptTime (executeAll calls b) = Some t.
Proof.
  intros Hst Hf0 Hpos Hlen Hall.
  destruct (exists_last (l := calls)) as (init & [now call] & ->).
  { intros ->. cbn in Hlen. lia. }
  rewrite length_app in Hlen. cbn in Hlen.
  apply Forall_app in Hall as [Hinit Hlast].
  inversion Hlast as [|c cs Hc _]; subst. cbn in Hc.
  destruct (executeAll_below_threshold init b Hst Hinit) as [Hst1 Hf1]; [lia|].
  pose proof (sameSettings_executeAll init b) as Hsame.
  rewrite executeAll_app. cbn [executeAll].
  set (b1 := executeAll init b) in *.
  rewrite <- (rejectsInTime_sameSettings b b1 call Hsame) in Hc.
  destruct (execute_failure_closed now call b1 Hst1 Hc) as (t & _ & _ & _ & Hopen).
  destruct Hsame as (_&Hthr&_).
  destruct Hopen as [Hst2 Hna]; [lia|].
  split; [exact Hst2|]. eexists. exact Hna.
Qed.

(** X25. Client errors trip the breaker: when a service whose breaker is
    CLOSED with no failure counted answers as many requests in a row as
    the threshold of the breaker asks for with a status from 400 to 499
    (a missing record, say), the breaker is OPEN afterwards, and every
    request for the service before the time of the next attempt is
    answered 503 without being forwarded. *)
Theorem X25_client_errors_open_the_breaker
    (runs : list (Z * Z * (nat -> AxiosOutcome))) (n : string)
    (req : Request) (g : GatewayService) (service : ServiceConfig)
    (b : CircuitBreaker) :
  services g !! n = Some service ->
  breakers (circuitBreakerManager g) !! n = Some b ->
  state b = CLOSED ->
  failures b = 0 ->
  0 < failureThreshold b ->
  Z.of_nat (length runs) = failureThreshold b ->
  Forall (fun run => answersClientError (timerDelay (timeout b)) (snd run))
         runs ->
  let g' := snd (processAll runs n req g) in
  exists b' t,
    breakers (circuitBreakerManager g') !! n = Some b' /\
    state b' = OPEN /\
    nextAttemptTime b' = Some t /\
    forall now replyTime axios req', now < t ->
      let p := processRequest now replyTime axios n req' g' in
      reply p = Some (breakerOpenReply replyTime n) /\
      visible p = [].
Proof.
  intros Hs Hb Hst Hf0 Hpos Hlen Hall. cbv zeta.
  destruct (processAll_configured runs n req g service b Hs Hb) as [Hs' Hb'].
  cbv zeta in Hs', Hb'.
  set (calls := map _ runs) in Hb'.
  destruct (executeAll_opens calls b Hst Hf0 Hpos) as (Hopen & t & Hna).
  { subst calls. now rewrite length_map. }
  { subst calls. apply Forall_map. eapply Forall_impl; [exact Hall|].
    intros [[now replyTime] axios] (error & dt & H0 & Hhttp & _ & Hdt).
    cbn [fst snd] in *.
    rewrite (makeRequestWithRetry_not_retried axios _ error dt H0)
      by now apply httpError_not_retryable.
    cbn. now apply Z.ltb_lt. }
  exists (executeAll calls b), t.
  split; [exact Hb'|]. split; [exact Hopen|]. split; [exact Hna|].
  intros now replyTime axios req' Hlt. cbv zeta.
  rewrite (processRequest_configured _ _ _ _ _ _ _ _ Hs' Hb'). cbv zeta.
  rewrite (execute_open_rejects now _ _ t Hopen Hna Hlt).
  now split.
Qed.

Lemma X25_client_errors_open_the_breaker_witness :
  exists b' t,
    breakers (circuitBreakerManager
                (snd (processAll [(10, 12, notFound); (20, 22, notFound);
                                  (30, 32, notFound); (40, 42, notFound);
                                  (50, 52, notFound)]
                        "usuarios" sampleRequest (newGatewayService 0))))
      !! "usuarios" = Some b' /\
    state b' = OPEN /\
    nextAttemptTime b' = Some t.
Proof.
  assert (Hs : services (newGatewayService 0) !! "usuarios"
               = Some usuariosConfig) by reflexivity.
  assert (Hall : Forall (fun run : Z * Z * (nat -> AxiosOutcome) =>
                   answersClientError
                     (timerDelay (timeout (gatewayBreaker 0 "usuarios"
                                             usuariosConfig))) (snd run))
                   [(10, 12, notFound); (20, 22, notFound);
                    (30, 32, notFound); (40, 42, notFound);
                    (50, 52, notFound)]).
  { repeat constructor; exists http404, 9;
      (split; [reflexivity|]);
      (split; [eexists; split; [reflexivity|cbn; lia]|]);
      (split; [split; discriminate|reflexivity]). }
  assert (Hlen : Z.of_nat 5
                 = failureThreshold (gatewayBreaker 0 "usuarios" usuariosConfig))
    by reflexivity.
  destruct (X25_client_errors_open_the_breaker
              [(10, 12, notFound); (20, 22, notFound); (30, 32, notFound);
               (40, 42, notFound); (50, 52, notFound)]
              "usuarios" sampleRequest
              (newGatewayService 0) usuariosConfig _ Hs
              (newGatewayService_breaker 0 _ _ Hs) eq_refl eq_refl eq_refl
              Hlen Hall) as (b' & t & H1 & H2 & H3 & _).
  exists b', t. now repeat split.
Defined.

(** *** Retries and the timer of the breaker *)

Lemma backoff_nonneg i : 0 <= backoff i.
Proof.
  unfold backoff. apply Z.mul_nonneg_nonneg; [|lia].
  apply Z.pow_nonneg. lia.
Qed.

Lemma retryLoop_elapsed_nonneg axios retries fuel i :
  (forall j, takesTime (axios j)) ->
  0 <= rr_elapsed (retryLoop axios retries fuel i).
Proof.
  intros Htime. revert i. induction fuel as [|fuel IH]; intros i;
    cbn [retryLoop]; pose proof (Htime i) as Hi;
    destruct (axios i) as [response dt|error dt|];
    cbn [takesTime] in Hi; cbn [rr_elapsed]; try lia.
  destruct ((i <? retries)%nat && isRetryableError error);
    cbn [afterRetry rr_elapsed]; [|lia].
  specialize (IH (S i)). pose proof (backoff_nonneg i) as Hb.
  unfold backoff in Hb. set (d := 2 ^ Z.of_nat i * 1000) in *. lia.
Qed.

(** Three attempts that fail and are retried keep the request busy for the
    7000 milliseconds of the three delays at least. *)
Lemma three_retries_take_7000 axios retries :
  (3 <= retries)%nat ->
  (forall j, takesTime (axios j)) ->
  (forall j, (j < 3)%nat -> failsRetryably (axios j)) ->
  7000 <= rr_elapsed (makeRequestWithRetry axios retries).
Proof.
  intros Hretries Htime Hfail. unfold makeRequestWithRetry.
  destruct retries as [|[|[|fuel]]]; try lia.
  destruct (failsRetryably_inv _ (Hfail 0%nat ltac:(lia))) as (e0 & d0 & H0 & R0).
  destruct (failsRetryably_inv _ (Hfail 1%nat ltac:(lia))) as (e1 & d1 & H1 & R1).
  destruct (failsRetryably_inv _ (Hfail 2%nat ltac:(lia))) as (e2 & d2 & H2 & R2).
  pose proof (Htime 0%nat) as T0. pose proof (Htime 1%nat) as T1.
  pose proof (Htime 2%nat) as T2. rewrite H0 in T0. rewrite H1 in T1.
  rewrite H2 in T2. cbn in T0, T1, T2.
  cbn [retryLoop]. rewrite H0, R0. cbn [Nat.ltb Nat.leb andb retryLoop].
  rewrite H1, R1. cbn [Nat.ltb Nat.leb andb retryLoop].
  rewrite H2, R2. cbn [Nat.ltb Nat.leb andb afterRetry rr_elapsed].
  pose proof (retryLoop_elapsed_nonneg axios (S (S (S fuel))) fuel 3 Htime).
  change (2 ^ Z.of_nat 0 * 1000) with 1000.
  change (2 ^ Z.of_nat 1 * 1000) with 2000.
  change (2 ^ Z.of_nat 2 * 1000) with 4000. lia.
Qed.

(** X26. The delays of the retries outlast the timer of the breaker: with
    three retries or more and a timer of less than 7000 milliseconds, as the
    gateway configures them (3 retries, 5000 milliseconds), a request whose
    first three attempts fail with errors that are retried (refused
    connections, statuses of 500 or above) is answered 504 by the timeout
    of the breaker, whatever the fourth attempt gives. When the answer is
    sent the breaker has counted no failure. *)
Theorem X26_retries_outlast_the_timer_of_the_breaker
    (now replyTime : Z) (axios : nat -> AxiosOutcome) (n : string)
    (req : Request) (g : GatewayService) (service : ServiceConfig)
    (b : CircuitBreaker) :
  services g !! n = Some service ->
  breakers (circuitBreakerManager g) !! n = Some b ->
  quietCallbacks b ->
  letsThrough now b = true ->
  (3 <= service_retries service)%nat ->
  timerDelay (timeout b) < 7000 ->
  (forall j, takesTime (axios j)) ->
  (forall j, (j < 3)%nat -> failsRetryably (axios j)) ->
  let p := processRequest now replyTime axios n req g in
  reply p = Some (breakerTimeoutReply replyTime n) /\
  exists b',
    breakers (circuitBreakerManager (gateway p)) !! n = Some b' /\
    failures b' = failures b /\
    failedRequests (metrics b') = failedRequests (metrics b).
Proof.
  intros Hs Hb Hqc Hlet Hretries Htimer Htime Hfail. cbv zeta.
  rewrite (processRequest_configured _ _ _ _ _ _ _ _ Hs Hb). cbv zeta.
  pose proof (three_retries_take_7000 axios _ Hretries Htime Hfail) as Hlong.
  set (r := makeRequestWithRetry axios (service_retries service)) in *.
  assert (Hto : timesOut b (callOf r) = true).
  { unfold callOf. destruct (rr_result r); cbn [timesOut];
      try reflexivity; apply Z.leb_le; lia. }
  destruct (execute_quiet now (callOf r) b Hqc Hlet) as [Hout _].
  unfold settlesAs in Hout. rewrite Hto in Hout. rewrite Hout.
  cbn [reply gateway]. split; [reflexivity|].
  destruct (breakerOf_execute_let_through now (callOf r) b (proj1 Hqc) Hlet)
    as (b0 & Hb0 & Hsame & Hf & Hfr & _ & _).
  eexists. split; [cbn; apply lookup_insert_eq|].
  rewrite Hb0, executeWithTimeout_timesOut
    by now rewrite (timesOut_sameSettings b b0).
  now rewrite breakerOf_run.
Qed.

Lemma X26_retries_outlast_the_timer_of_the_breaker_witness :
  reply (processRequest 10 5012 down "usuarios" sampleRequest
           (newGatewayService 0))
  = Some (breakerTimeoutReply 5012 "usuarios").
Proof.
  assert (Hs : services (newGatewayService 0) !! "usuarios"
               = Some usuariosConfig) by reflexivity.
  assert (H3 : (3 <= service_retries usuariosConfig)%nat) by (cbn; lia).
  assert (Ht : timerDelay (timeout (gatewayBreaker 0 "usuarios"
                                      usuariosConfig)) < 7000)
    by reflexivity.
  assert (Htime : forall j, takesTime (down j)) by (intros j; cbn; lia).
  assert (Hfail : forall j, (j < 3)%nat -> failsRetryably (down j))
    by (intros j _; reflexivity).
  exact (proj1 (X26_retries_outlast_the_timer_of_the_breaker 10 5012 down
                  "usuarios" sampleRequest (newGatewayService 0)
                  usuariosConfig _ Hs (newGatewayService_breaker 0 _ _ Hs)
                  (gatewayBreaker_quietCallbacks 0 _ _) eq_refl H3 Ht
                  Htime Hfail)).
Defined.

(** *** Answers that are passed on *)

Lemma recordSuccess_closes now b :
  quietHook b ->
  state b <> OPEN ->
  state (breakerOf (recordSuccess now b)) = CLOSED /\
  failures (breakerOf (recordSuccess now b)) = 0 /\
  successes (breakerOf (recordSuccess now b)) = successes b + 1.
Proof.
  intros Hq Hst. rewrite (recordSuccess_quiet _ _ Hq), breakerOf_run.
  break_breaker b. destruct me. cbn in *.
  destruct st; cbn; repeat split. contradiction.
Qed.

(** X27. An answer of the service that arrives at the first attempt and
    before the timer of the breaker is passed on with the status of the
    service (200, 201, ...) and with its data, stamped with the [_gateway]
    member; the request function was called once, and the breaker is
    CLOSED afterwards with no failure counted, whether it was CLOSED before
    or on trial. *)
Theorem X27_answer_is_passed_on_with_the_stamp
    (now replyTime : Z) (axios : nat -> AxiosOutcome) (n : string)
    (req : Request) (g : GatewayService) (service : ServiceConfig)
    (b : CircuitBreaker) (response : AxiosResponse) (dt : Z) :
  services g !! n = Some service ->
  breakers (circuitBreakerManager g) !! n = Some b ->
  quietCallbacks b ->
  letsThrough now b = true ->
  axios 0%nat = AxiosResolves response dt ->
  dt < timerDelay (timeout b) ->
  let p := processRequest now replyTime axios n req g in
  reply p = Some {| statusCode := status response;
                    body := transformResponse replyTime (data response) n |} /\
  (forall k, k <> "_gateway" ->
     option_map (fun r => getMember k (body r)) (reply p)
     = Some (getMember k (data response))) /\
  callsMade (visible p) = 1%nat /\
  exists b',
    breakers (circuitBreakerManager (gateway p)) !! n = Some b' /\
    state b' = CLOSED /\
    failures b' = 0 /\
    successes b' = successes b + 1.
Proof.
  intros Hs Hb Hqc Hlet H0 Hdt. cbv zeta.
  rewrite (processRequest_configured _ _ _ _ _ _ _ _ Hs Hb). cbv zeta.
  rewrite (makeRequestWithRetry_first_success axios _ response dt H0).
  change (callOf _) with (Resolves response dt).
  destruct (execute_quiet now (Resolves response dt) b Hqc Hlet)
    as [Hout Hcalls].
  assert (Hsettle : settlesAs b (Resolves response dt) = Normal response).
  { unfold settlesAs. cbn [timesOut].
    destruct (Z.leb_spec (timerDelay (timeout b)) dt); [lia|reflexivity]. }
  rewrite Hout, Hsettle. cbn [reply visible gateway].
  split; [reflexivity|]. split.
  { intros k Hk. cbn [option_map body]. f_equal. unfold transformResponse.
    now apply getMember_setMember_ne. }
  split; [exact Hcalls|].
  destruct (breakerOf_execute_let_through now (Resolves response dt) b
              (proj1 Hqc) Hlet) as (b0 & Hb0 & Hsame & _ & _ & Hsu & Hst0).
  pose proof (quietHook_sameSettings b b0 Hsame (proj1 Hqc)) as Hq0.
  eexists. split; [cbn; apply lookup_insert_eq|].
  rewrite Hb0, breakerOf_executeWithTimeout_resolves
    by (destruct Hsame as (_&_&Ht&_); now rewrite Ht).
  rewrite (recordSuccess_returns _ _ Hq0).
  destruct (recordSuccess_closes (now + dt) b0 Hq0 Hst0) as (H1 & H2 & H3).
  now rewrite H1, H2, H3, Hsu.
Qed.

Lemma X27_answer_is_passed_on_with_the_stamp_witness :
  option_map statusCode
    (reply (processRequest 10 30 up "usuarios" sampleRequest
              (newGatewayService 0)))
  = Some 200.
Proof.
  assert (Hs : services (newGatewayService 0) !! "usuarios"
               = Some usuariosConfig) by reflexivity.
  assert (Hdt : 15 < timerDelay (timeout (gatewayBreaker 0 "usuarios"
                                             usuariosConfig)))
    by reflexivity.
  pose proof (X27_answer_is_passed_on_with_the_stamp 10 30 up "usuarios"
                sampleRequest (newGatewayService 0) usuariosConfig _ ok200 15
                Hs (newGatewayService_breaker 0 _ _ Hs)
                (gatewayBreaker_quietCallbacks 0 _ _) eq_refl eq_refl Hdt)
    as X.
  cbv zeta in X. destruct X as (X1 & _). now rewrite X1.
Defined.

(** ** Logs and statistics *)

Lemma totalTime_bounds lo hi logs acc :
  Forall (fun log => lo <= durationOf log <= hi) logs ->
  acc + Z.of_nat (length logs) * lo
  <= fold_left (fun sum log => sum + durationOf log) logs acc
  <= acc + Z.of_nat (length logs) * hi.
Proof.
  intros H. revert acc. induction H as [|log logs Hlog _ IH]; intros acc.
  - cbn. lia.
  - cbn [fold_left]. rewrite length_cons, Nat2Z.inj_succ.
    specialize (IH (acc + durationOf log)). lia.
Qed.

(** X28. The average response time is 0 for an empty log; otherwise it is
    the mean of the durations logged, rounded to the nearest integer, and
    so it lies between the shortest and the longest of them. *)
Theorem X28_average_lies_between_the_extremes
    (logs : list LogEntry) (lo hi : Z) :
  logs <> [] ->
  Forall (fun log => lo <= durationOf log <= hi) logs ->
  let n := Z.of_nat (length logs) in
  let totalTime := fold_left (fun sum log => sum + durationOf log) logs 0 in
  lo <= calculateAverageResponseTime logs <= hi /\
  n * (2 * calculateAverageResponseTime logs - 1) <= 2 * totalTime /\
  2 * totalTime < n * (2 * calculateAverageResponseTime logs + 1) /\
  calculateAverageResponseTime [] = 0.
Proof.
  intros Hne Hall. cbv zeta.
  pose proof (totalTime_bounds lo hi logs 0 Hall) as Hsum.
  unfold calculateAverageResponseTime, roundDiv.
  destruct logs as [|log logs]; [contradiction|].
  set (n := Z.of_nat (length (log :: logs))) in *.
  set (total := fold_left _ (log :: logs) 0) in *.
  assert (Hn : 0 < n) by (subst n; rewrite length_cons; lia).
  pose proof (Z.div_mod (2 * total + n) (2 * n) ltac:(lia)) as Hdiv.
  pose proof (Z.mod_pos_bound (2 * total + n) (2 * n) ltac:(lia)) as Hmod.
  set (q := (2 * total + n) / (2 * n)) in *.
  set (m := (2 * total + n) mod (2 * n)) in *.
  repeat split; nia.
Qed.

Lemma X28_average_lies_between_the_extremes_witness :
  7 <= calculateAverageResponseTime sampleLogs <= 30.
Proof.
  assert (Hne : sampleLogs <> []) by discriminate.
  assert (Hall : Forall (fun log => 7 <= durationOf log <= 30) sampleLogs)
    by (repeat constructor; cbn; lia).
  exact (proj1 (X28_average_lies_between_the_extremes sampleLogs 7 30
                  Hne Hall)).
Defined.

Lemma filter_filter_weaker (P Q : LogEntry -> Prop)
    `{forall x, Decision (P x)} `{forall x, Decision (Q x)}
    (logs : list LogEntry) :
  (forall log, P log -> Q log) ->
  filter P (filter Q logs) = filter P logs.
Proof.
  intros HPQ. induction logs as [|log logs IH]; [reflexivity|].
  rewrite !filter_cons. destruct (decide (Q log)) as [HQ|HQ].
  - rewrite filter_cons. destruct (decide (P log)); now rewrite IH.
  - destruct (decide (P log)) as [HP|HP]; [|exact IH].
    exfalso. apply HQ, HPQ, HP.
Qed.

(** X29. [cleanupLogs] only drops entries, the ones written [maxAge] or
    longer before, and keeps the others in their order; cleaning up twice
    (at the same or at a later time) is cleaning up once at the later
    time. With a [maxAge] of an hour or more, as the 24 hours of the
    default, it never drops an entry that the statistics count among the
    requests of the last hour: [requestsLastHour] is the same with and
    without the cleanup, while [totalRequests] counts only what the
    cleanup has left. *)
Theorem X29_cleanup_keeps_the_last_hour
    (now now' maxAge : Z) (logs : list LogEntry) (g : GatewayService) :
  60 * 60 * 1000 <= maxAge ->
  now <= now' ->
  sublist (cleanupLogs now maxAge logs) logs /\
  (forall log, log ∈ cleanupLogs now maxAge logs <->
               log ∈ logs /\ now - maxAge < log_timestamp log) /\
  cleanupLogs now' maxAge (cleanupLogs now maxAge logs)
  = cleanupLogs now' maxAge logs /\
  stats_requestsLastHour (getStats now' (cleanupLogs now maxAge logs) g)
  = stats_requestsLastHour (getStats now' logs g) /\
  stats_requestsLastHour (getStats now' logs g)
  <= stats_totalRequests (getStats now' (cleanupLogs now maxAge logs) g)
  <= stats_totalRequests (getStats now' logs g).
Proof.
  intros Hage Hnow. unfold cleanupLogs, getStats.
  cbn [stats_requestsLastHour stats_totalRequests].
  split; [apply sublist_filter|].
  split; [intros log; rewrite list_elem_of_filter; tauto|].
  split; [apply filter_filter_weaker; intros log; lia|].
  assert (Hhour : filter (fun log => now' - 60 * 60 * 1000 < log_timestamp log)
                    (filter (fun log => now - maxAge < log_timestamp log) logs)
                  = filter (fun log => now' - 60 * 60 * 1000 < log_timestamp log)
                      logs)
    by (apply filter_filter_weaker; intros log; lia).
  split; [now rewrite Hhour|].
  rewrite <- Hhour at 1.
  pose proof (length_filter (fun log => now' - 60 * 60 * 1000 < log_timestamp log)
                (filter (fun log => now - maxAge < log_timestamp log) logs)).
  pose proof (length_filter (fun log => now - maxAge < log_timestamp log) logs).
  lia.
Qed.

Lemma X29_cleanup_keeps_the_last_hour_witness :
  stats_requestsLastHour
    (getStats 90000000 (cleanupLogs 86402500 defaultMaxAge sampleLogs)
       (newGatewayService 0))
  = stats_requestsLastHour (getStats 90000000 sampleLogs (newGatewayService 0)).
Proof.
  assert (H1 : 60 * 60 * 1000 <= defaultMaxAge) by (vm_compute; discriminate).
  assert (H2 : 86402500 <= 90000000) by lia.
  pose proof (X29_cleanup_keeps_the_last_hour 86402500 90000000 defaultMaxAge
                sampleLogs (newGatewayService 0) H1 H2) as X.
  exact (proj1 (proj2 (proj2 (proj2 X)))).
Defined.

(** ** Resetting a breaker by name *)

(** X30. [resetCircuitBreaker] leaves a CLOSED breaker with cleared
    counters under the name it is given and touches no other breaker. For
    the name of a breaker of the manager that breaker is reset and keeps
    its settings. For any other name, whether a service of that name is
    configured or not, a breaker with the default settings and without
    callbacks is created and stays in the manager, which has one breaker
    more than before. *)
Theorem X30_resetCircuitBreaker_creates_what_it_resets
    (now : Z) (n : string) (g : GatewayService) :
  let r := resetCircuitBreaker now n g in
  let g' := snd (fst r) in
  (exists b',
     breakers (circuitBreakerManager g') !! n = Some b' /\
     state b' = CLOSED /\ failures b' = 0 /\ successes b' = 0 /\
     nextAttemptTime b' = None) /\
  (forall k, k <> n ->
     breakers (circuitBreakerManager g') !! k
     = breakers (circuitBreakerManager g) !! k) /\
  services g' = services g /\
  (forall b, breakers (circuitBreakerManager g) !! n = Some b ->
     breakers (circuitBreakerManager g') !! n = Some (breakerOf (reset now b)) /\
     size (breakers (circuitBreakerManager g'))
     = size (breakers (circuitBreakerManager g))) /\
  (breakers (circuitBreakerManager g) !! n = None ->
     r = (Normal tt, g', []) /\
     breakers (circuitBreakerManager g') !! n
     = Some (newCircuitBreaker now (withName n noOptions)) /\
     size (breakers (circuitBreakerManager g'))
     = S (size (breakers (circuitBreakerManager g))) /\
     totalBreakers (globalMetrics (circuitBreakerManager g'))
     = Z.of_nat (size (breakers (circuitBreakerManager g))) + 1).
Proof.
  cbv zeta. unfold resetCircuitBreaker, getBreaker.
  destruct (breakers (circuitBreakerManager g) !! n) as [b|] eqn:Hn.
  - pose proof (reset_leaves now b) as Hleft. cbv zeta in Hleft.
    destruct (reset now b) as [[o b'] events] eqn:Hreset.
    cbn [fst snd breakerOf] in *.
    cbn [set_circuitBreakerManager circuitBreakerManager setBreaker breakers
         services].
    split; [exists b'; split; [apply lookup_insert_eq|exact Hleft]|].
    split; [intros k Hk; now apply lookup_insert_ne|].
    split; [reflexivity|]. split; [|discriminate].
    intros b0 Hb0. inversion Hb0; subst b0. rewrite Hreset.
    split; [apply lookup_insert_eq|].
    apply map_size_insert_Some. now exists b.
  - set (fresh := newCircuitBreaker now (withName n noOptions)).
    assert (Hreset : reset now fresh = (Normal tt, fresh, [])).
    { rewrite reset_run, setState_run. reflexivity. }
    rewrite Hreset.
    cbn [fst snd set_circuitBreakerManager circuitBreakerManager setBreaker
         breakers services updateGlobalMetrics globalMetrics totalBreakers].
    rewrite insert_insert_eq.
    split.
    { exists fresh. split; [apply lookup_insert_eq|]. now repeat split. }
    split; [intros k Hk; now apply lookup_insert_ne|].
    split; [reflexivity|]. split; [discriminate|].
    intros _. split; [reflexivity|]. split; [apply lookup_insert_eq|].
    rewrite map_size_insert_None by exact Hn. split; [reflexivity|lia].
Qed.
